(** * weather-update: the Collector (weatherTrigger.js) and the Aggregator
      (dailyAggregation), embedded over an explicit relational store.

    Conventions of the embedding.
    - A JavaScript [Date] is the integer number of milliseconds since the
      epoch ([getTime()]); [toISOString] followed by [new Date(string)] is
      the identity on that number, so the ISO string is represented by the
      number it denotes.
    - A SQL [date] is the number of days since 1970-01-01; the string
      'yyyy-MM-dd' obtained with [toISOString().split('T')[0]] denotes it.
    - SQL FLOAT values and JavaScript numbers are exact rationals ([Q]).
    - Strings are compared exactly (all configured city names and the API's
      labels are plain ASCII, on which the column collation is left aside).
    - [context.log] / [context.error] write to the host's log only and are
      not part of the state; the statements sent to the server are recorded
      in a trace. *)

From Stdlib Require Import ZArith QArith Qround Qabs String List Bool Lia Lqa.
From Stdlib Require Import Permutation Sorted.
Import ListNotations.

Local Open Scope Z_scope.

(** ** JavaScript side *)

Module Js.

(** Exceptions that travel through the two handlers. *)
Inductive exn : Type :=
| Error (message : string)
| TypeError (message : string)
| AxiosError (message : string)
| RequestError (message : string)
| ConnectionError (message : string)
| TransactionError (code : string).

(** Result of evaluating a block: it completes or it throws. *)
Inductive completion (A : Type) : Type :=
| Normal (value : A)
| Throw (error : exn).
Arguments Normal {A} value.
Arguments Throw {A} error.

(** [5.5 * 60 * 60 * 1000] *)
Definition istOffset : Z := 19800000.

Definition msPerDay : Z := 86400000.

(** [x || fallback] on strings: the empty string and [undefined] are falsy. *)
Definition or_string (x : option string) (fallback : string) : string :=
  match x with
  | Some s => if String.eqb s EmptyString then fallback else s
  | None => fallback
  end.

End Js.

(** ** The SQL fragment used by the queries *)

Module Sql.

(** [datetimeoffset]: a UTC instant with a zone offset in minutes. *)
Record datetimeoffset : Type := mkDateTimeOffset {
  utc_ms : Z;
  offset_minutes : Z
}.

(** Wall-clock reading of a [datetimeoffset], in ms. *)
Definition local_ms (t : datetimeoffset) : Z :=
  utc_ms t + offset_minutes t * 60000.

(** [CONVERT(date, t)]: the calendar day of the wall-clock reading. *)
Definition CONVERT_date (t : datetimeoffset) : Z :=
  local_ms t / Js.msPerDay.

(** [COUNT( * )] *)
Definition COUNT {A : Type} (rows : list A) : Z := Z.of_nat (length rows).

(** [AVG]: running sum and running count, NULL on no rows. *)
Definition AVG (xs : list Q) : option Q :=
  match xs with
  | [] => None
  | _ =>
      let acc := fold_left (fun a x => (Qplus (fst a) x, snd a + 1)) xs (0%Q, 0) in
      Some (Qdiv (fst acc) (inject_Z (snd acc)))
  end.

(** [MIN] / [MAX] for any ordered column type, NULL on no rows. *)
Definition MIN {A : Type} (leb : A -> A -> bool) (xs : list A) : option A :=
  match xs with
  | [] => None
  | x :: rest => Some (fold_left (fun m y => if leb m y then m else y) rest x)
  end.

Definition MAX {A : Type} (leb : A -> A -> bool) (xs : list A) : option A :=
  match xs with
  | [] => None
  | x :: rest => Some (fold_left (fun m y => if leb y m then m else y) rest x)
  end.

(** Nearest integer, halves away from zero. *)
Definition round_half_away (q : Q) : Z :=
  if Qle_bool 0 q then Qfloor (Qplus q (1 # 2)) else Qceiling (Qminus q (1 # 2)).

(** [ROUND(x, length)] for a non-negative [length]. *)
Definition ROUND (x : option Q) (length : N) : option Q :=
  match x with
  | None => None
  | Some q =>
      let scale := Z.to_pos (10 ^ Z.of_N length) in
      Some (Qmake (round_half_away (Qmult q (inject_Z (Z.pos scale)))) scale)
  end.

(** [ISNULL(x, d)] *)
Definition ISNULL {A : Type} (x : option A) (d : A) : A :=
  match x with Some v => v | None => d end.

(** The distinct values of a column, in order of first appearance. *)
Fixpoint distinct (l : list string) : list string :=
  match l with
  | [] => []
  | x :: rest => x :: filter (fun y => negb (String.eqb y x)) (distinct rest)
  end.

(** [GROUP BY key]: one group per distinct key, holding the rows with it. *)
Definition GROUP_BY {R : Type} (key : R -> string) (rows : list R)
  : list (string * list R) :=
  map (fun k => (k, filter (fun r => String.eqb (key r) k) rows))
      (distinct (map key rows)).

(** Numbers 1, 2, ... attached to an already ordered row set. *)
Definition number_rows {A : Type} (rows : list A) : list (A * Z) :=
  combine rows (map Z.of_nat (seq 1 (length rows))).

(** [SELECT TOP 1 ...] used as a scalar subquery. *)
Definition TOP1 {A : Type} (rows : list A) : option A := hd_error rows.

(** What [ORDER BY COUNT( * ) DESC] guarantees of the order it produces:
    the same rows, counts non-increasing.  Rows with equal counts may come
    in any order. *)
Definition count_desc (a b : string * Z) : Prop := snd b <= snd a.

Definition orders_by_count_desc
    (rank : list (string * Z) -> list (string * Z)) : Prop :=
  forall groups,
    Permutation groups (rank groups) /\ StronglySorted count_desc (rank groups).

(** One admissible order: insertion sort, equal counts kept in input order. *)
Fixpoint insert_desc (g : string * Z) (l : list (string * Z)) : list (string * Z) :=
  match l with
  | [] => [g]
  | h :: t => if snd h <=? snd g then g :: h :: t else h :: insert_desc g t
  end.

Definition rank_stable (groups : list (string * Z)) : list (string * Z) :=
  fold_right insert_desc [] groups.

(** The opposite choice among equal counts. *)
Fixpoint insert_desc_last (g : string * Z) (l : list (string * Z)) : list (string * Z) :=
  match l with
  | [] => [g]
  | h :: t => if snd h <? snd g then g :: h :: t else h :: insert_desc_last g t
  end.

Definition rank_reversed (groups : list (string * Z)) : list (string * Z) :=
  fold_right insert_desc_last [] groups.

End Sql.

(** ** The store: tables [weather_data] and [daily_weather_summary] *)

Module Store.

(** Modelled from the spec: the declaration of table [weather_data] is not
    in the sources.  The columns are those of section 6 of the spec, named
    as in the INSERT of weatherTrigger.js, typed as the parameters bound to
    them ([sql.Float], [sql.Int], [sql.NVarChar], [sql.DateTimeOffset]) and
    taken as NOT NULL; [id] is the auto-increment column. *)
Record weather_row : Type := mkWeatherRow {
  id : Z;
  city : string;
  temperature : Q;
  feels_like : Q;
  pressure : Z;
  humidity : Z;
  weather : string;
  timestamp : Sql.datetimeoffset
}.

(** Modelled from the spec: the declaration of table
    [daily_weather_summary] is not in the sources.  The columns are those
    listed by the INSERT of the aggregation query ([city] and [date] are
    [summary_city] and [summary_date] here); a column fed by an aggregate or
    by the scalar subquery may hold NULL. *)
Record summary_row : Type := mkSummaryRow {
  summary_city : string;
  summary_date : Z;
  avg_temp : option Q;
  min_temp : option Q;
  max_temp : option Q;
  dominant_weather : option string;
  avg_feels_like : option Q;
  avg_pressure : option Q;
  avg_humidity : option Q;
  record_count : Z
}.

(** [identity] is the current identity value of [weather_data.id]
    (IDENT_CURRENT); the table has held rows, so the next generated id is
    the current value plus the increment 1. *)
Record database : Type := mkDatabase {
  weather_data : list weather_row;
  identity : Z;
  daily_weather_summary : list summary_row
}.

Definition next_id (d : database) : Z := identity d + 1.

(** [INSERT INTO weather_data (city, ..., timestamp) VALUES (...)]: the id
    is generated. *)
Definition INSERT_weather_data
    (c : string) (t f : Q) (p h : Z) (w : string) (ts : Sql.datetimeoffset)
    (d : database) : database :=
  {| weather_data :=
       weather_data d ++ [mkWeatherRow (next_id d) c t f p h w ts];
     identity := next_id d;
     daily_weather_summary := daily_weather_summary d |}.

(** The same INSERT on the values the driver sends, any of the four
    numbers possibly NULL: a NULL in a column that does not allow it makes
    the server reject the statement (error 515, 'Cannot insert the value
    NULL into column ...', abridged here) and nothing is stored. *)
Definition INSERT_weather_data_VALUES
    (c : string) (t f : option Q) (p h : option Z) (w : string)
    (ts : Sql.datetimeoffset) (d : database) : database * Js.completion unit :=
  match t, f, p, h with
  | Some t', Some f', Some p', Some h' =>
      (INSERT_weather_data c t' f' p' h' w ts d, Js.Normal tt)
  | _, _, _, _ =>
      (d, Js.Throw (Js.RequestError "Cannot insert the value NULL into column"))
  end.

(** [DBCC CHECKIDENT (weather_data, RESEED, n)] on a table that has held
    rows: the current identity value becomes [n]. *)
Definition DBCC_CHECKIDENT_RESEED (n : Z) (d : database) : database :=
  {| weather_data := weather_data d;
     identity := n;
     daily_weather_summary := daily_weather_summary d |}.

Definition on_date (day : Z) (r : weather_row) : bool :=
  Sql.CONVERT_date (timestamp r) =? day.

Definition on_date_city (day : Z) (c : string) (r : weather_row) : bool :=
  on_date day r && String.eqb (city r) c.

End Store.

(** ** The Aggregator: timer function [dailyAggregation] *)

Module Aggregator.
Import Js Sql Store.

(** Calls made on the connection pool or on the transaction. *)
Inductive step : Type :=
| Connect
| InitialDataQuery
| CheckDataQuery
| AggregationQuery (c : string)
| VerifyQuery
| Begin
| CountQuery
| DeleteQuery
| ResetIdentityQuery
| Commit
| FinalStateQuery
| Rollback
| Close.

Definition step_eq_dec (a b : step) : {a = b} + {a <> b}.
Proof. decide equality. apply string_dec. Defined.

(** State of one invocation: the store, the snapshot a running transaction
    would restore, whether [pool] has been assigned, and the calls issued
    so far (latest first). *)
Record world : Type := mkWorld {
  db : database;
  transaction : option database;
  pool : bool;
  issued : list step
}.

Definition M (A : Type) : Type := world -> world * completion A.

Definition ret {A : Type} (a : A) : M A := fun w => (w, Normal a).

Definition throw {A : Type} (e : exn) : M A := fun w => (w, Throw e).

Definition bind {A B : Type} (m : M A) (k : A -> M B) : M B :=
  fun w =>
    match m w with
    | (w', Normal a) => k a w'
    | (w', Throw e) => (w', Throw e)
    end.

Notation "x <- m ;; k" := (bind m (fun x => k))
  (at level 61, m at next level, right associativity).
Notation "m ;;; k" := (bind m (fun _ => k))
  (at level 61, right associativity).

(** [try { body } catch (err) { handler }] *)
Definition try_catch {A : Type} (body : M A) (handler : exn -> M A) : M A :=
  fun w =>
    match body w with
    | (w', Normal a) => (w', Normal a)
    | (w', Throw e) => handler e w'
    end.

(** [try { body } finally { cleanup }]: a throwing cleanup replaces the
    completion of the body. *)
Definition try_finally {A : Type} (body : M A) (cleanup : M unit) : M A :=
  fun w =>
    match body w with
    | (w', r) =>
        match cleanup w' with
        | (w'', Normal _) => (w'', r)
        | (w'', Throw e) => (w'', Throw e)
        end
    end.

(** [for (const x of xs) { body }] *)
Fixpoint for_of {X : Type} (xs : list X) (body : X -> M unit) : M unit :=
  match xs with
  | [] => ret tt
  | x :: rest => body x ;;; for_of rest body
  end.

Definition note (s : step) (w : world) : world :=
  {| db := db w; transaction := transaction w; pool := pool w;
     issued := s :: issued w |}.

Definition set_db (d : database) (w : world) : world :=
  {| db := d; transaction := transaction w; pool := pool w;
     issued := issued w |}.

Definition set_transaction (t : option database) (w : world) : world :=
  {| db := db w; transaction := t; pool := pool w; issued := issued w |}.

Definition set_pool (b : bool) (w : world) : world :=
  {| db := db w; transaction := transaction w; pool := b;
     issued := issued w |}.

(** Row returned by [checkDataQuery]; its two FORMAT columns are only
    logged. *)
Record cityData : Type := mkCityData {
  cd_city : string;
  cd_record_count : Z
}.

Section Handler.

(** How the server orders label groups of equal count. *)
Variable rank : list (string * Z) -> list (string * Z).

(** Which calls are rejected by the server, and with what. *)
Variable fault : step -> option exn.

(** A call: it is issued, then it rejects or runs on the store. *)
Definition request {A : Type} (s : step) (q : database -> database * A) : M A :=
  fun w =>
    let w1 := note s w in
    match fault s with
    | Some e => (w1, Throw e)
    | None => let r := q (db w1) in (set_db (fst r) w1, Normal (snd r))
    end.

(** [pool = await sql.connect(config)] *)
Definition connect : M unit :=
  fun w =>
    let w1 := note Connect w in
    match fault Connect with
    | Some e => (w1, Throw e)
    | None => (set_pool true w1, Normal tt)
    end.

(** [await transaction.begin()] *)
Definition begin : M unit :=
  fun w =>
    let w1 := note Begin w in
    match fault Begin with
    | Some e => (w1, Throw e)
    | None => (set_transaction (Some (db w1)) w1, Normal tt)
    end.

(** [await transaction.commit()] *)
Definition commit : M unit :=
  fun w =>
    let w1 := note Commit w in
    match fault Commit with
    | Some e => (w1, Throw e)
    | None => (set_transaction None w1, Normal tt)
    end.

(** [await transaction.rollback()]: undoes everything since [begin]; on a
    transaction that is no longer open the driver rejects. *)
Definition rollback : M unit :=
  fun w =>
    let w1 := note Rollback w in
    match fault Rollback with
    | Some e => (w1, Throw e)
    | None =>
        match transaction w1 with
        | Some snapshot =>
            (set_transaction None (set_db snapshot w1), Normal tt)
        | None => (w1, Throw (TransactionError "ENOTBEGUN"))
        end
    end.

(** [if (pool) { await pool.close(); }] *)
Definition close_pool : M unit :=
  fun w =>
    if pool w then
      let w1 := note Close w in
      match fault Close with
      | Some e => (w1, Throw e)
      | None => (w1, Normal tt)
      end
    else (w, Normal tt).

(** [ist.setDate(ist.getDate() - 1); ist.toISOString().split('T')[0]] with
    [ist = new Date(now + 5.5h)], on a host whose zone is UTC. *)
Definition yesterdayIST (now : Z) : Z :=
  (now + istOffset) / msPerDay - 1.

(** Lines 33-41: totals over the table, only logged. *)
Definition initialDataQuery (d : database) : database * (Z * Z) :=
  (d, (COUNT (weather_data d), COUNT (distinct (map city (weather_data d))))).

(** Lines 46-55. *)
Definition checkDataQuery (yesterday : Z) (d : database)
  : database * list cityData :=
  (d, map (fun g => mkCityData (fst g) (COUNT (snd g)))
          (GROUP_BY city (filter (on_date yesterday) (weather_data d)))).

(** Lines 68-75: the CTE, labels with their counts, numbered in the
    server's order of decreasing count. *)
Definition WeatherCounts (c : string) (yesterday : Z) (d : database)
  : list (string * Z * Z) :=
  number_rows
    (rank (map (fun g => (fst g, COUNT (snd g)))
               (GROUP_BY weather
                  (filter (on_date_city yesterday c) (weather_data d))))).

(** Lines 88-102: the SELECT feeding the INSERT. *)
Definition aggregationSelect (c : string) (yesterday : Z) (d : database)
  : list summary_row :=
  map (fun g =>
         let w := snd g in
         {| summary_city := c;
            summary_date := yesterday;
            avg_temp := ROUND (AVG (map temperature w)) 2;
            min_temp := MIN Qle_bool (map temperature w);
            max_temp := MAX Qle_bool (map temperature w);
            dominant_weather :=
              TOP1 (map (fun r => fst (fst r))
                        (filter (fun r => snd r =? 1)
                                (WeatherCounts c yesterday d)));
            avg_feels_like := ROUND (AVG (map feels_like w)) 2;
            avg_pressure :=
              ROUND (AVG (map (fun r => inject_Z (pressure r)) w)) 2;
            avg_humidity :=
              ROUND (AVG (map (fun r => inject_Z (humidity r)) w)) 2;
            record_count := COUNT w |})
      (GROUP_BY city (filter (on_date_city yesterday c) (weather_data d))).

(** Lines 67-103; the result is [rowsAffected[0]]. *)
Definition aggregationQuery (c : string) (yesterday : Z) (d : database)
  : database * Z :=
  let rows := aggregationSelect c yesterday d in
  ({| weather_data := weather_data d;
      identity := identity d;
      daily_weather_summary := daily_weather_summary d ++ rows |},
   COUNT rows).

(** Lines 113-117. *)
Definition verifyQuery (yesterday : Z) (d : database)
  : database * list summary_row :=
  (d, filter (fun s => summary_date s =? yesterday) (daily_weather_summary d)).

(** Lines 128-132. *)
Definition countQuery (yesterday : Z) (d : database) : database * Z :=
  (d, COUNT (filter (on_date yesterday) (weather_data d))).

(** Lines 140-143; the result is [rowsAffected[0]]. *)
Definition deleteQuery (yesterday : Z) (d : database) : database * Z :=
  ({| weather_data :=
        filter (fun r => negb (on_date yesterday r)) (weather_data d);
      identity := identity d;
      daily_weather_summary := daily_weather_summary d |},
   COUNT (filter (on_date yesterday) (weather_data d))).

(** Lines 149-160. *)
Definition resetIdentityQuery (d : database) : database * unit :=
  let NewSeed := ISNULL (MIN Z.leb (map id (weather_data d))) 0 - 1 in
  (DBCC_CHECKIDENT_RESEED NewSeed d, tt).

(** Lines 167-171. *)
Definition finalStateQuery (d : database) : database * (Z * Z) :=
  (d, (COUNT (weather_data d), identity d)).

(** Lines 127-179: the purge, inside the transaction already begun. *)
Definition purge (yesterday : Z) : M unit :=
  try_catch
    (recordsToDelete <- request CountQuery (countQuery yesterday) ;;
     deleteResult <- request DeleteQuery (deleteQuery yesterday) ;;
     request ResetIdentityQuery resetIdentityQuery ;;;
     commit ;;;
     finalState <- request FinalStateQuery finalStateQuery ;;
     ret tt)
    (fun err => rollback ;;; throw err).

(** Lines 19-190. *)
Definition handler (now : Z) : M unit :=
  let yesterday := yesterdayIST now in
  try_finally
    (try_catch
       (connect ;;;
        initialData <- request InitialDataQuery initialDataQuery ;;
        dataCheck <- request CheckDataQuery (checkDataQuery yesterday) ;;
        if (length dataCheck =? 0)%nat then ret tt
        else
          for_of dataCheck
            (fun cd =>
               result <- request (AggregationQuery (cd_city cd))
                                 (aggregationQuery (cd_city cd) yesterday) ;;
               ret tt) ;;;
          verification <- request VerifyQuery (verifyQuery yesterday) ;;
          begin ;;;
          purge yesterday)
       (fun err => throw err))
    close_pool.

(** One invocation of the timer function at clock reading [now]. *)
Definition dailyAggregation (now : Z) (d : database) : world * completion unit :=
  handler now (mkWorld d None false []).

End Handler.

(** No call is rejected. *)
Definition no_fault : step -> option exn := fun _ => None.

(** Exactly the call [s] is rejected, with [e]. *)
Definition fail_at (s : step) (e : exn) : step -> option exn :=
  fun s' => if step_eq_dec s' s then Some e else None.

End Aggregator.

(** ** The Collector: timer function [weatherTrigger] *)

Module Api.

(** [response.data.main], with the four readings the Collector takes from
    it.  A reading is a number (metric units) or is missing: [None] stands
    for a property that is absent ([undefined]) or [null], which nothing in
    the Collector tells apart. *)
Record Main : Type := mkMain {
  temp : option Q;
  feels_like : option Q;
  pressure : option Q;
  humidity : option Q
}.

(** An element of [response.data.weather]; [main] is the short label. *)
Record Condition : Type := mkCondition {
  label : option string
}.

(** [response.data], as far as the Collector can see it.  [dt] is the
    instant the API reports for its reading (Unix seconds); the Collector
    never reads it.  An absent property is [None]; an element of the array
    may be [null]. *)
Record Data : Type := mkData {
  main : option Main;
  weather : option (list (option Condition));
  dt : Z
}.

(** What [axios.get] settles to: it rejects on a timeout or a status
    outside 2xx, else it resolves with [response.data]. *)
Inductive outcome : Type :=
| Rejected (message : string)
| Resolved (data : option Data).

End Api.

Module Collector.
Import Js.

Record City : Type := mkCity {
  name : string;
  lat : Q;
  lon : Q
}.

Definition cities : list City :=
  [ mkCity "Delhi" (287041 # 10000) (771025 # 10000);
    mkCity "Mumbai" (190760 # 10000) (728777 # 10000);
    mkCity "Chennai" (130827 # 10000) (802707 # 10000);
    mkCity "Bangalore" (129716 # 10000) (775946 # 10000);
    mkCity "Kolkata" (225726 # 10000) (883639 # 10000);
    mkCity "Hyderabad" (173850 # 10000) (784867 # 10000) ].

(** The object built by [fetchWeatherData] and taken by [insertWeatherData].
    The four readings are copied from [response.data.main] as they are, so
    each may be missing. *)
Record params : Type := mkParams {
  city : string;
  temperature : option Q;
  feels_like : option Q;
  pressure : option Q;
  humidity : option Q;
  weather : string;
  timestamp : Z
}.

(** Parameter binding of the driver.  A value that is [undefined] or [null]
    is sent as NULL whatever the type.  [sql.Int] rejects a number outside
    the 32-bit range and keeps the integer part of the others ([value | 0]);
    [sql.Float] and [sql.NVarChar] pass the value on; a [Date] bound as
    [sql.DateTimeOffset] is sent as its UTC reading with offset zero. *)
Definition truncate (v : Q) : Z := Z.quot (Qnum v) (Z.pos (Qden v)).

Definition sql_Int (v : option Q) : completion (option Z) :=
  match v with
  | None => Normal None
  | Some q =>
      if Qle_bool (inject_Z (-2147483648)) q && Qle_bool q (inject_Z 2147483647)
      then Normal (Some (truncate q))
      else Throw (TypeError "Value must be between -2147483648 and 2147483647, inclusive.")
  end.

Definition sql_Float (v : option Q) : option Q := v.

Definition sql_NVarChar (s : string) : string := s.

Definition sql_DateTimeOffset (date : Z) : Sql.datetimeoffset :=
  Sql.mkDateTimeOffset date 0.

Section Handler.

(** [process.env.OPENWEATHER_API_KEY] *)
Variable apiKey : option string.

(** What the request for each city settles to. *)
Variable http : City -> Api.outcome.

(** The reading of [new Date()] when the response of a city is turned into
    an observation. *)
Variable clock : City -> Z.

(** Which inserts the server (or [getSqlPool]) rejects, by city. *)
Variable insert_fault : string -> option exn.

(** [!apiKey] *)
Definition apiKey_missing : bool :=
  match apiKey with
  | Some k => String.eqb k EmptyString
  | None => true
  end.

(** Lines 44-60: the body of the [try]. *)
Definition fetchWeatherData_try (c : City) : completion params :=
  match http c with
  | Api.Rejected message => Throw (AxiosError message)
  | Api.Resolved None => Throw (Error "Invalid weather data format")
  | Api.Resolved (Some data) =>
      match Api.main data with
      | None => Throw (Error "Invalid weather data format")
      | Some m =>
          match Api.weather data with
          | None =>
              (* [response.data.weather[0]] indexes [undefined] *)
              Throw (TypeError "Cannot read properties of undefined (reading '0')")
          | Some conditions =>
              let first :=
                match nth_error conditions 0 with
                | Some (Some c0) => Api.label c0   (* [weather[0]?.main] *)
                | _ => None
                end in
              Normal {| city := name c;
                        temperature := Api.temp m;
                        feels_like := Api.feels_like m;
                        pressure := Api.pressure m;
                        humidity := Api.humidity m;
                        weather := or_string first "Unknown";
                        timestamp := clock c |}
          end
      end
  end.

(** Lines 41-68: any exception is logged and becomes [null]. *)
Definition fetchWeatherData (c : City) : option params :=
  match fetchWeatherData_try c with
  | Normal p => Some p
  | Throw _ => None
  end.

(** Lines 70-97: one INSERT; a rejection is logged and thrown again. *)
Definition insertWeatherData (p : params) (d : Store.database)
  : Store.database * completion unit :=
  match insert_fault (city p) with
  | Some e => (d, Throw e)
  | None =>
      let utcTimestamp := timestamp p in
      let istTimestamp := utcTimestamp + istOffset in
      match sql_Int (pressure p), sql_Int (humidity p) with
      | Normal pr, Normal hu =>
          Store.INSERT_weather_data_VALUES
            (sql_NVarChar (city p))
            (sql_Float (temperature p))
            (sql_Float (feels_like p))
            pr hu
            (sql_NVarChar (weather p))
            (sql_DateTimeOffset istTimestamp) d
      | Throw e, _ => (d, Throw e)
      | _, Throw e => (d, Throw e)
      end
  end.

(** [await Promise.all(list.map(insertWeatherData))]: every insert is started
    and runs to its end whatever the others do; the await throws the first
    rejection.  The inserts are single statements, taken here in list order. *)
Fixpoint insert_all (l : list params) (d : Store.database)
  : Store.database * completion unit :=
  match l with
  | [] => (d, Normal tt)
  | p :: rest =>
      let (d1, r1) := insertWeatherData p d in
      let (d2, r2) := insert_all rest d1 in
      (d2, match r1 with Normal _ => r2 | Throw e => Throw e end)
  end.

(** [weatherDataResults.filter(data => data !== null)] *)
Fixpoint not_null (l : list (option params)) : list params :=
  match l with
  | [] => []
  | Some p :: rest => p :: not_null rest
  | None :: rest => not_null rest
  end.

(** Lines 101-127. *)
Definition weatherTrigger (d : Store.database)
  : Store.database * completion unit :=
  if apiKey_missing then
    (d, Throw (Error "OpenWeather API key not configured"))
  else
    let weatherDataResults := map fetchWeatherData cities in
    let validWeatherData := not_null weatherDataResults in
    if (length validWeatherData =? 0)%nat then (d, Normal tt)
    else insert_all validWeatherData d.

End Handler.

End Collector.

(** ** Vocabulary of the properties *)

Module Spec.
Import Js Sql Store.

(** The observations of city [c] on calendar day [day]. *)
Definition observations (d : database) (day : Z) (c : string) : list weather_row :=
  filter (on_date_city day c) (weather_data d).

(** All observations of calendar day [day]. *)
Definition observations_on (d : database) (day : Z) : list weather_row :=
  filter (on_date day) (weather_data d).

Definition total (xs : list Q) : Q := fold_right Qplus 0%Q xs.

Definition arithmetic_mean (xs : list Q) : Q :=
  Qdiv (total xs) (inject_Z (Z.of_nat (length xs))).

(** Rounding to two decimal places: the nearest multiple of 1/100, a tie
    going away from zero. *)
Definition round_2dp (q : Q) : Q :=
  Qmake (round_half_away (Qmult q (inject_Z 100))) 100.

Definition is_minimum (m : Q) (xs : list Q) : Prop :=
  In m xs /\ forall x, In x xs -> Qle m x.

Definition is_maximum (m : Q) (xs : list Q) : Prop :=
  In m xs /\ forall x, In x xs -> Qle x m.

(** Number of observations carrying label [l]. *)
Definition label_count (l : string) (obs : list weather_row) : Z :=
  Z.of_nat (length (filter (fun r => String.eqb (weather r) l) obs)).

(** Summary rows present after an invocation that were not there before. *)
Definition inserted (before after : database) : list summary_row :=
  skipn (length (daily_weather_summary before)) (daily_weather_summary after).

(** Among them, the rows of city [c]. *)
Definition inserted_for (c : string) (before after : database) : list summary_row :=
  filter (fun s => String.eqb (summary_city s) c) (inserted before after).

(** Largest id in the table, if any. *)
Definition max_id (d : database) : option Z := MAX Z.leb (map id (weather_data d)).

(** The id specified to come next after the purge: one more than the
    largest id left, or 1 on an empty table. *)
Definition expected_next_id (d : database) : Z :=
  match max_id d with
  | Some m => m + 1
  | None => 1
  end.

(** [s] carries the statistics of the observations [obs] of city [c] on
    [day]: means rounded to two places, extremes, and their number. *)
Definition summarizes (s : summary_row) (day : Z) (c : string)
    (obs : list weather_row) : Prop :=
  summary_city s = c /\
  summary_date s = day /\
  avg_temp s = Some (round_2dp (arithmetic_mean (map temperature obs))) /\
  (exists m, min_temp s = Some m /\ is_minimum m (map temperature obs)) /\
  (exists m, max_temp s = Some m /\ is_maximum m (map temperature obs)) /\
  avg_feels_like s = Some (round_2dp (arithmetic_mean (map feels_like obs))) /\
  avg_pressure s =
    Some (round_2dp (arithmetic_mean (map (fun r => inject_Z (pressure r)) obs))) /\
  avg_humidity s =
    Some (round_2dp (arithmetic_mean (map (fun r => inject_Z (humidity r)) obs))) /\
  record_count s = Z.of_nat (length obs).

(** [v] is [q] rounded to two decimal places, stated without reference to
    any way of computing it: [v] is a whole number of hundredths, no more
    than half a hundredth away from [q], and when [q] lies exactly halfway
    between two hundredths [v] is the one farther from zero. *)
Definition rounded_to_2dp (q v : Q) : Prop :=
  (exists n : Z, v = Qmake n 100) /\
  (Qle 0 q -> Qlt (Qminus q (1 # 200)) v /\ Qle v (Qplus q (1 # 200))) /\
  (Qlt q 0 -> Qle (Qminus q (1 # 200)) v /\ Qlt v (Qplus q (1 # 200))).


(** Two summary rows that agree on every column except, possibly,
    [dominant_weather]. *)
Definition same_statistics (a b : summary_row) : Prop :=
  summary_city a = summary_city b /\
  summary_date a = summary_date b /\
  avg_temp a = avg_temp b /\
  min_temp a = min_temp b /\
  max_temp a = max_temp b /\
  avg_feels_like a = avg_feels_like b /\
  avg_pressure a = avg_pressure b /\
  avg_humidity a = avg_humidity b /\
  record_count a = record_count b.

(** Label [l] occurs in [obs], and no label occurs more often. *)
Definition most_frequent (l : string) (obs : list weather_row) : Prop :=
  In l (map weather obs) /\
  forall l', label_count l' obs <= label_count l obs.

Definition sum_Z (l : list Z) : Z := fold_right Z.add 0 l.

(** The label groups of a set of observations with their counts, as the CTE
    hands them to the ranking. *)
Definition label_groups (obs : list weather_row) : list (string * Z) :=
  map (fun l => (l, label_count l obs)) (distinct (map weather obs)).

End Spec.

(** ** Closed forms of what an invocation of the Aggregator computes *)

Module Run.
Import Js Sql Store Aggregator Spec.

(** The row [aggregationSelect] yields for a city that has observations. *)
Definition summary_of (rank : list (string * Z) -> list (string * Z))
    (day : Z) (d : database) (c : string) : summary_row :=
  let w := observations d day c in
  {| summary_city := c;
     summary_date := day;
     avg_temp := ROUND (AVG (map temperature w)) 2;
     min_temp := MIN Qle_bool (map temperature w);
     max_temp := MAX Qle_bool (map temperature w);
     dominant_weather :=
       TOP1 (map (fun r => fst (fst r))
                 (filter (fun r => snd r =? 1) (WeatherCounts rank c day d)));
     avg_feels_like := ROUND (AVG (map feels_like w)) 2;
     avg_pressure := ROUND (AVG (map (fun r => inject_Z (pressure r)) w)) 2;
     avg_humidity := ROUND (AVG (map (fun r => inject_Z (humidity r)) w)) 2;
     record_count := COUNT w |}.

(** Cities with at least one observation on [day], as [checkDataQuery]
    lists them. *)
Definition cities_on (d : database) (day : Z) : list string :=
  distinct (map city (observations_on d day)).

(** The store once the loop over the cities has run. *)
Definition summarized (rank : list (string * Z) -> list (string * Z))
    (day : Z) (d : database) : database :=
  {| weather_data := weather_data d;
     identity := identity d;
     daily_weather_summary :=
       daily_weather_summary d ++ map (summary_of rank day d) (cities_on d day) |}.

(** The store once DELETE and the reseed have run. *)
Definition purged (day : Z) (d : database) : database :=
  fst (resetIdentityQuery (fst (deleteQuery day d))).

(** The calls issued up to and including [transaction.begin()], latest
    first. *)
Definition issued_at_begin (d : database) (day : Z) : list step :=
  Begin :: VerifyQuery ::
  rev (map AggregationQuery (cities_on d day)) ++
  [CheckDataQuery; InitialDataQuery; Connect].

(** The calls of the purge made before call [s] of it. *)
Definition purge_calls_before (s : step) : list step :=
  match s with
  | DeleteQuery => [CountQuery]
  | ResetIdentityQuery => [CountQuery; DeleteQuery]
  | _ => []
  end.

(** The state in which the purge starts. *)
Definition world_at_begin (rank : list (string * Z) -> list (string * Z))
    (day : Z) (d : database) : world :=
  {| db := summarized rank day d;
     transaction := Some (summarized rank day d);
     pool := true;
     issued := issued_at_begin d day |}.

(** The body of the loop of lines 66-111. *)
Definition loop_body (rank : list (string * Z) -> list (string * Z))
    (fault : step -> option exn) (day : Z) (cd : cityData) : M unit :=
  bind (request fault (AggregationQuery (cd_city cd))
                (aggregationQuery rank (cd_city cd) day))
       (fun _ => ret tt).

(** What [finally { if (pool) await pool.close(); }] makes of the completion
    of the guarded block. *)
Definition finish (fault : step -> option exn) (x : world * completion unit)
  : world * completion unit :=
  match close_pool fault (fst x) with
  | (w2, Normal _) => (w2, snd x)
  | (w2, Throw e) => (w2, Throw e)
  end.

(** The state in which an invocation that found nothing to do ends. *)
Definition world_no_data (d : database) : world :=
  {| db := d;
     transaction := None;
     pool := true;
     issued := [Close; CheckDataQuery; InitialDataQuery; Connect] |}.

(** The state in which an invocation that summarized and purged ends. *)
Definition world_done (rank : list (string * Z) -> list (string * Z))
    (day : Z) (d : database) : world :=
  {| db := purged day (summarized rank day d);
     transaction := None;
     pool := true;
     issued := Close :: FinalStateQuery :: Commit :: ResetIdentityQuery ::
               DeleteQuery :: CountQuery :: issued_at_begin d day |}.

(** The state after the three opening calls. *)
Definition world_after_check (d : database) : world :=
  {| db := d;
     transaction := None;
     pool := true;
     issued := [CheckDataQuery; InitialDataQuery; Connect] |}.

End Run.

(** ** What the store holds of an observation *)

Module Stored.
Import Js Store.

(** The driver accepts the two integer parameters of the observation. *)
Definition binds (p : Collector.params) : Prop :=
  exists pr hu,
    Collector.sql_Int (Collector.pressure p) = Normal pr /\
    Collector.sql_Int (Collector.humidity p) = Normal hu.

(** None of the four readings of the observation is missing. *)
Definition has_readings (p : Collector.params) : Prop :=
  exists t f pr hu,
    Collector.temperature p = Some t /\
    Collector.feels_like p = Some f /\
    Collector.pressure p = Some pr /\
    Collector.humidity p = Some hu.

(** The insert of [p] is accepted by the driver and by the server. *)
Definition accepted (insert_fault : string -> option exn) (p : Collector.params)
  : Prop :=
  insert_fault (Collector.city p) = None /\ binds p /\ has_readings p.

(** Row [r] is what the INSERT of lines 77-90 stores of [p]. *)
Definition row_of (p : Collector.params) (r : weather_row) : Prop :=
  city r = Collector.city p /\
  Collector.temperature p = Some (temperature r) /\
  Collector.feels_like p = Some (feels_like r) /\
  option_map Collector.truncate (Collector.pressure p) = Some (pressure r) /\
  option_map Collector.truncate (Collector.humidity p) = Some (humidity r) /\
  weather r = Collector.weather p /\
  timestamp r =
    Sql.mkDateTimeOffset (Collector.timestamp p + istOffset) 0.

(** The instant the API reports for its reading, in milliseconds. *)
Definition api_instant_ms (data : Api.Data) : Z := Api.dt data * 1000.

End Stored.

(** ** Sample data *)

Module Examples.
Import Js Sql Store.

(** A clock reading of the Aggregator, 2023-11-14T22:13:20Z: in IST it is
    already 15 November, so the target date is 14 November, day 19675. *)
Definition now0 : Z := 1700000000000.

Definition day0 : Z := 19675.

Definition at_minute (day minute : Z) : datetimeoffset :=
  mkDateTimeOffset (day * msPerDay + minute * 60000) 0.

Definition row (i : Z) (c : string) (t : Q) (p h : Z) (w : string)
    (day minute : Z) : weather_row :=
  mkWeatherRow i c t (Qplus t 1) p h w (at_minute day minute).

(** Three readings for Delhi and one for Mumbai on the target date, two
    readings of the day after. *)
Definition two_days : database :=
  {| weather_data :=
       [ row 1 "Delhi" (2010 # 100) 1012 40 "Clear" day0 5;
         row 2 "Delhi" (2225 # 100) 1011 45 "Clouds" day0 10;
         row 3 "Mumbai" (3000 # 100) 1008 80 "Rain" day0 10;
         row 4 "Delhi" (2100 # 100) 1011 42 "Clear" day0 15;
         row 5 "Delhi" (1900 # 100) 1013 50 "Clear" (day0 + 1) 5;
         row 6 "Mumbai" (2900 # 100) 1009 82 "Rain" (day0 + 1) 5 ];
     identity := 6;
     daily_weather_summary := [] |}.

(** Readings of the target date only. *)
Definition one_day : database :=
  {| weather_data :=
       [ row 1 "Delhi" (2010 # 100) 1012 40 "Clear" day0 5;
         row 2 "Mumbai" (3000 # 100) 1008 80 "Rain" day0 5 ];
     identity := 2;
     daily_weather_summary := [] |}.

(** No reading at all. *)
Definition empty_store : database :=
  {| weather_data := []; identity := 0; daily_weather_summary := [] |}.

(** Ten readings for Delhi on the target date: A three times, B five times,
    C twice. *)
Definition labelled : database :=
  {| weather_data :=
       map (fun x => row (fst x) "Delhi" (2500 # 100) 1010 50 (snd x) day0 (5 * fst x))
           [ (1, "A"); (2, "B"); (3, "C"); (4, "B"); (5, "A");
             (6, "B"); (7, "C"); (8, "B"); (9, "A"); (10, "B") ]%string;
     identity := 10;
     daily_weather_summary := [] |}.

(** Two labels, twice each. *)
Definition tied : database :=
  {| weather_data :=
       map (fun x => row (fst x) "Delhi" (2500 # 100) 1010 50 (snd x) day0 (5 * fst x))
           [ (1, "Haze"); (2, "Mist"); (3, "Haze"); (4, "Mist") ]%string;
     identity := 4;
     daily_weather_summary := [] |}.

(** Responses of the weather API. *)
Definition reading : Api.Main :=
  Api.mkMain (Some (2831 # 100)) (Some (3012 # 100)) (Some (10135 # 10)) (Some (647 # 10)).

(** [main] is there, its [temp] is not. *)
Definition reading_without_temp : Api.Main :=
  Api.mkMain None (Some (3012 # 100)) (Some (10135 # 10)) (Some (647 # 10)).

Definition complete : Api.Data :=
  Api.mkData (Some reading) (Some [Some (Api.mkCondition (Some "Haze"%string))]) 1699999400.

Definition no_conditions : Api.Data :=
  Api.mkData (Some reading) (Some []) 1699999400.

Definition no_weather_property : Api.Data :=
  Api.mkData (Some reading) None 1699999400.

Definition no_main : Api.Data :=
  Api.mkData None (Some [Some (Api.mkCondition (Some "Haze"%string))]) 1699999400.

Definition no_temp : Api.Data :=
  Api.mkData (Some reading_without_temp)
             (Some [Some (Api.mkCondition (Some "Haze"%string))]) 1699999400.

(** Mumbai times out, Chennai answers without [main], the rest answer. *)
Definition http_two_down (c : Collector.City) : Api.outcome :=
  if String.eqb (Collector.name c) "Mumbai" then
    Api.Rejected "timeout of 5000ms exceeded"
  else if String.eqb (Collector.name c) "Chennai" then
    Api.Resolved (Some no_main)
  else Api.Resolved (Some complete).

(** Delhi answers without a [weather] property, the rest answer. *)
Definition http_delhi_bare (c : Collector.City) : Api.outcome :=
  if String.eqb (Collector.name c) "Delhi" then
    Api.Resolved (Some no_weather_property)
  else Api.Resolved (Some complete).

(** Delhi answers with an empty [weather] array, the rest answer. *)
Definition http_delhi_empty (c : Collector.City) : Api.outcome :=
  if String.eqb (Collector.name c) "Delhi" then
    Api.Resolved (Some no_conditions)
  else Api.Resolved (Some complete).

(** Delhi answers with a [main] that has no [temp], the rest answer. *)
Definition http_delhi_no_temp (c : Collector.City) : Api.outcome :=
  if String.eqb (Collector.name c) "Delhi" then
    Api.Resolved (Some no_temp)
  else Api.Resolved (Some complete).

(** Every response is processed at the same reading of the clock. *)
Definition clock0 (c : Collector.City) : Z := now0.

Definition accept_all (c : string) : option exn := None.

(** The server rejects the insert for Delhi. *)
Definition reject_delhi (c : string) : option exn :=
  if String.eqb c "Delhi" then Some (RequestError "Connection lost") else None.

Definition key : option string := Some "0123456789abcdef"%string.

(** The server rejects the DELETE of the purge (the transaction was chosen
    as a deadlock victim) and then the rollback, the transaction being
    already aborted. *)
Definition deadlock_then_abort (s : Aggregator.step) : option exn :=
  match s with
  | Aggregator.DeleteQuery => Some (RequestError "deadlock")
  | Aggregator.Rollback => Some (TransactionError "EABORT")
  | _ => None
  end.

End Examples.

(** ** The timer of the Aggregator *)

Module Timer.
Import Js.

(** [schedule: '0 30 18 * * *']: second 0, minute 30, hour 18 of every day,
    on a host whose zone is UTC.  Milliseconds into the day. *)
Definition schedule_ms : Z := ((18 * 60 + 30) * 60 + 0) * 1000.

(** The instant the timer fires on day [k] (days since 1970-01-01). *)
Definition fires_at (k : Z) : Z := k * msPerDay + schedule_ms.

End Timer.

(** ** The cached connection pool of the Collector *)

Module SqlPool.
Import Js.

(** [let sqlPool = null], together with the number of calls of
    [sql.connect(dbConfig)] made so far.  A pool is named by a number. *)
Record state : Type := mkState {
  sqlPool : option nat;
  connects : nat
}.

Definition initial : state := mkState None 0.

Section Connect.

(** What the n-th call of [sql.connect(dbConfig)] settles to. *)
Variable connect : nat -> completion nat.

(** Lines 34-39. *)
Definition getSqlPool (s : state) : state * completion nat :=
  match sqlPool s with
  | Some p => (s, Normal p)
  | None =>
      match connect (connects s) with
      | Normal p => (mkState (Some p) (S (connects s)), Normal p)
      | Throw e => (mkState None (S (connects s)), Throw e)
      end
  end.

(** [n] calls of [getSqlPool], each awaited before the next is made, with
    their results in order. *)
Fixpoint calls (n : nat) (s : state) : state * list (completion nat) :=
  match n with
  | O => (s, [])
  | S n' =>
      let (s1, r) := getSqlPool s in
      let (s2, rs) := calls n' s1 in
      (s2, r :: rs)
  end.

End Connect.

End SqlPool.

(** ** Invariants of a computation *)

Module Invariant.
Import Js Store Aggregator.

(** [m] keeps [P]: started in a state with [P], it ends in one, however it
    completes. *)
Definition preserves {A : Type} (P : world -> Prop) (m : M A) : Prop :=
  forall w w' r, P w -> m w = (w', r) -> P w'.

(** The summaries present at the start are still there, in place, in the
    store and in the snapshot of an open transaction. *)
Definition keeps_summaries (base : list summary_row) (w : world) : Prop :=
  (exists x, daily_weather_summary (db w) = base ++ x) /\
  forall snap, transaction w = Some snap ->
    exists y, daily_weather_summary snap = base ++ y.

(** [weather_data] is what it was at the start, or that without the rows of
    [day]; so is the snapshot of an open transaction. *)
Definition only_purged (day : Z) (rows : list weather_row) (w : world) : Prop :=
  (weather_data (db w) = rows \/
   weather_data (db w) = filter (fun r => negb (on_date day r)) rows) /\
  forall snap, transaction w = Some snap ->
    weather_data snap = rows \/
    weather_data snap = filter (fun r => negb (on_date day r)) rows.

(** [pool] has been assigned. *)
Definition connected (w : world) : Prop := pool w = true.

End Invariant.

(** ** Decided acceptance of an insert *)

Module Accept.
Import Js.

(** The insert of [p] goes through: the server takes it, the driver binds
    its two integer parameters, and no reading is missing. *)
Definition acceptedb (insert_fault : string -> option exn) (p : Collector.params)
  : bool :=
  match insert_fault (Collector.city p),
        Collector.sql_Int (Collector.pressure p),
        Collector.sql_Int (Collector.humidity p),
        Collector.temperature p, Collector.feels_like p with
  | None, Normal (Some _), Normal (Some _), Some _, Some _ => true
  | _, _, _, _, _ => false
  end.

End Accept.

(** * Properties *)

(** ** Facts about the SQL fragment *)

Module SqlFacts.
Import Js Sql Store Spec.

Lemma filter_none {A : Type} (f : A -> bool) (l : list A) :
  (forall x, In x l -> f x = false) -> filter f l = [].
Proof.
  induction l as [|a l IH]; intros H; simpl; [reflexivity|].
  rewrite (H a (or_introl eq_refl)). apply IH. intros x Hx. apply H. now right.
Qed.

Lemma filter_all {A : Type} (f : A -> bool) (l : list A) :
  (forall x, In x l -> f x = true) -> filter f l = l.
Proof.
  induction l as [|a l IH]; intros H; simpl; [reflexivity|].
  rewrite (H a (or_introl eq_refl)). f_equal. apply IH. intros x Hx. apply H. now right.
Qed.

Lemma distinct_In (l : list string) (x : string) :
  In x (distinct l) <-> In x l.
Proof.
  induction l as [|a l IH]; simpl; [tauto|].
  rewrite filter_In, IH. split.
  - intros [H|[H _]]; auto.
  - intros [H|H]; auto.
    destruct (String.eqb_spec x a) as [E|E]; [left; congruence|].
    right. split; [assumption|]. reflexivity.
Qed.

Lemma distinct_NoDup (l : list string) : NoDup (distinct l).
Proof.
  induction l as [|a l IH]; simpl; constructor.
  - rewrite filter_In. intros [_ H]. cbv beta in H. now rewrite String.eqb_refl in H.
  - now apply NoDup_filter.
Qed.

Lemma distinct_nil_iff (l : list string) : distinct l = [] <-> l = [].
Proof. destruct l; simpl; split; intros H; congruence. Qed.

(** Rows that all carry the key [c] form the single group [c]. *)
Lemma GROUP_BY_single {R : Type} (key : R -> string) (rows : list R) (c : string) :
  rows <> [] ->
  (forall r, In r rows -> key r = c) ->
  GROUP_BY key rows = [(c, rows)].
Proof.
  intros Hne Hall. unfold GROUP_BY.
  destruct rows as [|r0 rest]; [congruence|].
  simpl map at 2. simpl distinct.
  assert (Hk : key r0 = c) by (apply Hall; now left).
  rewrite Hk.
  rewrite filter_none.
  - simpl map. f_equal. f_equal.
    apply (filter_all (fun r => String.eqb (key r) c) (r0 :: rest)).
    intros x Hx. rewrite (Hall x Hx). apply String.eqb_refl.
  - intros x Hx. apply (proj1 (distinct_In _ _)) in Hx. apply in_map_iff in Hx.
    destruct Hx as [r [E Hr]]. subst x.
    rewrite (Hall r (or_intror Hr)). now rewrite String.eqb_refl.
Qed.

Lemma GROUP_BY_keys {R : Type} (key : R -> string) (rows : list R) :
  map fst (GROUP_BY key rows) = distinct (map key rows).
Proof.
  unfold GROUP_BY. rewrite map_map. simpl. apply map_id.
Qed.

Lemma GROUP_BY_length {R : Type} (key : R -> string) (rows : list R) :
  length (GROUP_BY key rows) = length (distinct (map key rows)).
Proof. unfold GROUP_BY. apply length_map. Qed.

(** [AVG] is the arithmetic mean. *)
Lemma AVG_fold (xs : list Q) (s : Q) (n : Z) :
  let acc := fold_left (fun a x => (Qplus (fst a) x, snd a + 1)) xs (s, n) in
  Qeq (fst acc) (Qplus s (total xs)) /\ snd acc = n + Z.of_nat (length xs).
Proof.
  revert s n. induction xs as [|x xs IH]; intros s n; simpl.
  - split; [ring | lia].
  - destruct (IH (Qplus s x) (n + 1)) as [H1 H2]. simpl in H1, H2.
    split.
    + rewrite H1. unfold total. simpl. ring.
    + rewrite H2. lia.
Qed.

Lemma AVG_mean (xs : list Q) :
  xs <> [] -> exists q, AVG xs = Some q /\ Qeq q (arithmetic_mean xs).
Proof.
  intros Hne. destruct xs as [|x xs]; [congruence|].
  eexists. split; [reflexivity|].
  destruct (AVG_fold (x :: xs) 0%Q 0) as [H1 H2].
  cbv zeta in H1, H2. rewrite H1, H2. unfold arithmetic_mean.
  rewrite Z.add_0_l. rewrite Qplus_0_l. reflexivity.
Qed.

Lemma round_half_away_comp (a b : Q) :
  Qeq a b -> round_half_away a = round_half_away b.
Proof.
  intros E. unfold round_half_away.
  assert (Hb : Qle_bool 0 a = Qle_bool 0 b).
  { destruct (Qle_bool 0 a) eqn:Ha, (Qle_bool 0 b) eqn:Hb'; try reflexivity.
    - apply Qle_bool_iff in Ha. rewrite E in Ha. apply Qle_bool_iff in Ha. congruence.
    - apply Qle_bool_iff in Hb'. rewrite <- E in Hb'. apply Qle_bool_iff in Hb'. congruence. }
  rewrite Hb. destruct (Qle_bool 0 b).
  - apply Qfloor_comp. now rewrite E.
  - apply Qceiling_comp. now rewrite E.
Qed.

Lemma round_2dp_comp (a b : Q) : Qeq a b -> round_2dp a = round_2dp b.
Proof.
  intros E. unfold round_2dp. f_equal. apply round_half_away_comp. now rewrite E.
Qed.

Lemma ROUND_2 (q : Q) : ROUND (Some q) 2 = Some (round_2dp q).
Proof. reflexivity. Qed.

(** [ROUND(AVG(...), 2)] is the arithmetic mean rounded to two places. *)
Lemma ROUND_AVG (xs : list Q) :
  xs <> [] -> ROUND (AVG xs) 2 = Some (round_2dp (arithmetic_mean xs)).
Proof.
  intros Hne. destruct (AVG_mean xs Hne) as [q [Hq E]].
  rewrite Hq, ROUND_2. f_equal. now apply round_2dp_comp.
Qed.

(** Two places: a multiple of 1/100 at most half a hundredth away. *)
Lemma round_2dp_close (q : Q) :
  Qle (Qabs (Qminus (round_2dp q) q)) (1 # 200).
Proof.
  unfold round_2dp, round_half_away.
  set (y := Qmult q (inject_Z 100)).
  assert (Hy : Qeq q (Qdiv y (inject_Z 100))).
  { unfold y. field. }
  clearbody y. rewrite Hy. clear Hy.
  apply Qabs_Qle_condition.
  change (inject_Z 100) with 100%Q.
  destruct (Qle_bool 0 y).
  - pose proof (Qfloor_le (Qplus y (1 # 2))) as H1.
    pose proof (Qlt_floor (Qplus y (1 # 2))) as H2.
    rewrite inject_Z_plus in H2.
    rewrite (Qmake_Qdiv (Qfloor (Qplus y (1 # 2))) 100).
    set (n := inject_Z (Qfloor (Qplus y (1 # 2)))) in *.
    change (inject_Z 1) with 1%Q in H2. change (inject_Z (Z.pos 100)) with 100%Q.
    clearbody n. unfold Qdiv. change (/ 100)%Q with (1 # 100)%Q.
    split; lra.
  - pose proof (Qle_ceiling (Qminus y (1 # 2))) as H1.
    pose proof (Qceiling_lt (Qminus y (1 # 2))) as H2.
    unfold Z.sub in H2. rewrite inject_Z_plus in H2.
    rewrite (Qmake_Qdiv (Qceiling (Qminus y (1 # 2))) 100).
    set (n := inject_Z (Qceiling (Qminus y (1 # 2)))) in *.
    change (inject_Z (- (1))) with (- (1))%Q in H2. change (inject_Z (Z.pos 100)) with 100%Q.
    clearbody n. unfold Qdiv. change (/ 100)%Q with (1 # 100)%Q.
    split; lra.
Qed.


(** [rounded_to_2dp] leaves no choice: a number has one rounding. *)
Lemma rounded_to_2dp_unique (q v v' : Q) :
  rounded_to_2dp q v -> rounded_to_2dp q v' -> v = v'.
Proof.
  intros [[n ->] [Hpos Hneg]] [[n' ->] [Hpos' Hneg']].
  f_equal.
  rewrite (Qmake_Qdiv n 100), (Qmake_Qdiv n' 100) in *.
  change (inject_Z (Z.pos 100)) with 100%Q in *.
  unfold Qdiv in *. change (/ 100)%Q with (1 # 100)%Q in *.
  assert (Hlt : Qlt (inject_Z n - inject_Z n') 1 /\ Qlt (inject_Z n' - inject_Z n) 1).
  { set (a := inject_Z n) in *. set (b := inject_Z n') in *. clearbody a b.
    destruct (Qlt_le_dec q 0) as [Hq|Hq].
    - specialize (Hneg Hq). specialize (Hneg' Hq). split; lra.
    - specialize (Hpos Hq). specialize (Hpos' Hq). split; lra. }
  destruct Hlt as [L1 L2].
  unfold Qminus in L1, L2. rewrite <- inject_Z_opp, <- inject_Z_plus in L1, L2.
  change 1%Q with (inject_Z 1) in L1, L2.
  rewrite <- Zlt_Qlt in L1, L2. lia.
Qed.

Section MinMax.

Context {A : Type} (leb : A -> A -> bool) (le : A -> A -> Prop).
Hypothesis leb_le : forall a b, leb a b = true <-> le a b.
Hypothesis le_refl : forall a, le a a.
Hypothesis le_trans : forall a b c, le a b -> le b c -> le a c.
Hypothesis le_total : forall a b, le a b \/ le b a.

Lemma MIN_fold (rest : list A) (x : A) :
  let m := fold_left (fun m y => if leb m y then m else y) rest x in
  In m (x :: rest) /\ forall y, In y (x :: rest) -> le m y.
Proof.
  revert x. induction rest as [|y rest IH]; intros x; cbv zeta.
  - simpl. split; [now left|]. intros z [E|[]]. subst z. apply le_refl.
  - simpl fold_left.
    destruct (IH (if leb x y then x else y)) as [Hin Hle]. cbv zeta in Hin, Hle.
    set (m := fold_left _ rest _) in *.
    assert (Hxy : le (if leb x y then x else y) x /\ le (if leb x y then x else y) y).
    { destruct (leb x y) eqn:E.
      - split; [apply le_refl | now apply leb_le].
      - split; [|apply le_refl].
        destruct (le_total x y) as [H|H]; [|assumption].
        apply leb_le in H. congruence. }
    split.
    + destruct Hin as [Hin|Hin].
      * destruct (leb x y); rewrite <- Hin; simpl; auto.
      * simpl. auto.
    + intros z [E|[E|Hz]].
      * subst z. apply le_trans with (2 := proj1 Hxy). apply Hle. now left.
      * subst z. apply le_trans with (2 := proj2 Hxy). apply Hle. now left.
      * apply Hle. now right.
Qed.

Lemma MAX_fold (rest : list A) (x : A) :
  let m := fold_left (fun m y => if leb y m then m else y) rest x in
  In m (x :: rest) /\ forall y, In y (x :: rest) -> le y m.
Proof.
  revert x. induction rest as [|y rest IH]; intros x; cbv zeta.
  - simpl. split; [now left|]. intros z [E|[]]. subst z. apply le_refl.
  - simpl fold_left.
    destruct (IH (if leb y x then x else y)) as [Hin Hle]. cbv zeta in Hin, Hle.
    set (m := fold_left _ rest _) in *.
    assert (Hxy : le x (if leb y x then x else y) /\ le y (if leb y x then x else y)).
    { destruct (leb y x) eqn:E.
      - split; [apply le_refl | now apply leb_le].
      - split; [|apply le_refl].
        destruct (le_total y x) as [H|H]; [|assumption].
        apply leb_le in H. congruence. }
    split.
    + destruct Hin as [Hin|Hin].
      * destruct (leb y x); rewrite <- Hin; simpl; auto.
      * simpl. auto.
    + intros z [E|[E|Hz]].
      * subst z. apply le_trans with (1 := proj1 Hxy). apply Hle. now left.
      * subst z. apply le_trans with (1 := proj2 Hxy). apply Hle. now left.
      * apply Hle. now right.
Qed.

Lemma MIN_spec (xs : list A) :
  xs <> [] ->
  exists m, MIN leb xs = Some m /\ In m xs /\ forall y, In y xs -> le m y.
Proof.
  destruct xs as [|x rest]; [congruence|]. intros _.
  eexists. split; [reflexivity|]. apply MIN_fold.
Qed.

Lemma MAX_spec (xs : list A) :
  xs <> [] ->
  exists m, MAX leb xs = Some m /\ In m xs /\ forall y, In y xs -> le y m.
Proof.
  destruct xs as [|x rest]; [congruence|]. intros _.
  eexists. split; [reflexivity|]. apply MAX_fold.
Qed.

End MinMax.

Lemma Qle_either (a b : Q) : Qle a b \/ Qle b a.
Proof. destruct (Qlt_le_dec a b) as [H|H]; [left; now apply Qlt_le_weak | now right]. Qed.

Lemma MIN_Q (xs : list Q) :
  xs <> [] -> exists m, MIN Qle_bool xs = Some m /\ is_minimum m xs.
Proof.
  intros H.
  destruct (MIN_spec Qle_bool Qle Qle_bool_iff Qle_refl Qle_trans Qle_either xs H)
    as [m [E Hm]].
  now exists m.
Qed.

Lemma MAX_Q (xs : list Q) :
  xs <> [] -> exists m, MAX Qle_bool xs = Some m /\ is_maximum m xs.
Proof.
  intros H.
  destruct (MAX_spec Qle_bool Qle Qle_bool_iff Qle_refl Qle_trans Qle_either xs H)
    as [m [E Hm]].
  now exists m.
Qed.

Lemma MIN_Z (xs : list Z) :
  xs <> [] ->
  exists m, MIN Z.leb xs = Some m /\ In m xs /\ forall y, In y xs -> m <= y.
Proof.
  apply (MIN_spec Z.leb Z.le).
  - intros a b. apply Z.leb_le.
  - intros a. lia.
  - intros a b c. lia.
  - intros a b. lia.
Qed.

Lemma MAX_Z (xs : list Z) :
  xs <> [] ->
  exists m, MAX Z.leb xs = Some m /\ In m xs /\ forall y, In y xs -> y <= m.
Proof.
  apply (MAX_spec Z.leb Z.le).
  - intros a b. apply Z.leb_le.
  - intros a. lia.
  - intros a b c. lia.
  - intros a b. lia.
Qed.

(** *** Orders of decreasing count *)

Lemma insert_desc_last_perm (g : string * Z) (l : list (string * Z)) :
  Permutation (g :: l) (insert_desc_last g l).
Proof.
  induction l as [|h t IH]; simpl; [reflexivity|].
  destruct (snd h <? snd g); [reflexivity|].
  rewrite perm_swap. now apply perm_skip.
Qed.

Lemma insert_desc_last_sorted (g : string * Z) (l : list (string * Z)) :
  StronglySorted count_desc l -> StronglySorted count_desc (insert_desc_last g l).
Proof.
  induction 1 as [|h t Hs IH Hall]; simpl.
  - repeat constructor.
  - destruct (Z.ltb_spec (snd h) (snd g)) as [Hlt|Hge].
    + constructor; [now constructor|].
      constructor; [unfold count_desc; lia|].
      eapply Forall_impl; [|exact Hall]. unfold count_desc. intros x Hx. lia.
    + constructor; [assumption|].
      eapply Permutation_Forall; [apply insert_desc_last_perm|].
      constructor; [unfold count_desc; lia | assumption].
Qed.

Lemma rank_reversed_orders : orders_by_count_desc rank_reversed.
Proof.
  intros groups. unfold rank_reversed.
  induction groups as [|g l [IHp IHs]]; simpl.
  - split; constructor.
  - split.
    + rewrite <- insert_desc_last_perm. now apply perm_skip.
    + now apply insert_desc_last_sorted.
Qed.

Lemma insert_desc_perm (g : string * Z) (l : list (string * Z)) :
  Permutation (g :: l) (insert_desc g l).
Proof.
  induction l as [|h t IH]; simpl; [reflexivity|].
  destruct (snd h <=? snd g); [reflexivity|].
  rewrite perm_swap. now apply perm_skip.
Qed.

Lemma insert_desc_sorted (g : string * Z) (l : list (string * Z)) :
  StronglySorted count_desc l -> StronglySorted count_desc (insert_desc g l).
Proof.
  induction 1 as [|h t Hs IH Hall]; simpl.
  - repeat constructor.
  - destruct (Z.leb_spec (snd h) (snd g)) as [Hle|Hgt].
    + constructor; [now constructor|].
      constructor; [unfold count_desc; lia|].
      eapply Forall_impl; [|exact Hall]. unfold count_desc. intros x Hx. lia.
    + constructor; [assumption|].
      eapply Permutation_Forall; [apply insert_desc_perm|].
      constructor; [unfold count_desc; lia | assumption].
Qed.

Lemma rank_stable_orders : orders_by_count_desc rank_stable.
Proof.
  intros groups. unfold rank_stable.
  induction groups as [|g l [IHp IHs]]; simpl.
  - split; constructor.
  - split.
    + rewrite <- insert_desc_perm. now apply perm_skip.
    + now apply insert_desc_sorted.
Qed.

(** The first row of any such order carries a largest count. *)
Lemma first_rank_is_largest (rank : list (string * Z) -> list (string * Z))
    (groups : list (string * Z)) :
  orders_by_count_desc rank ->
  groups <> [] ->
  exists h, hd_error (rank groups) = Some h /\ In h groups /\
            forall g, In g groups -> snd g <= snd h.
Proof.
  intros Hrank Hne. destruct (Hrank groups) as [Hp Hs].
  destruct (rank groups) as [|h t] eqn:E.
  - apply Permutation_sym, Permutation_nil in Hp. contradiction.
  - exists h. split; [reflexivity|]. split.
    + apply (Permutation_in h (Permutation_sym Hp)). now left.
    + intros g Hg. apply (Permutation_in g Hp) in Hg.
      inversion Hs as [|? ? _ Hall]; subst.
      destruct Hg as [Hg|Hg]; [subst; lia|].
      rewrite Forall_forall in Hall. apply (Hall g Hg).
Qed.

(** Row number 1 of the numbered row set is its first row. *)
Lemma TOP1_row_number_1 (ranked : list (string * Z)) :
  TOP1 (map (fun r => fst (fst r))
            (filter (fun r => snd r =? 1) (number_rows ranked)))
  = option_map fst (hd_error ranked).
Proof. destruct ranked as [|h t]; reflexivity. Qed.

Lemma label_groups_GROUP_BY (obs : list weather_row) :
  map (fun g => (fst g, COUNT (snd g))) (GROUP_BY weather obs) = label_groups obs.
Proof. unfold GROUP_BY, label_groups. rewrite map_map. reflexivity. Qed.

Lemma label_count_absent (l : string) (obs : list weather_row) :
  ~ In l (map weather obs) -> label_count l obs = 0.
Proof.
  intros H. unfold label_count. rewrite filter_none; [reflexivity|].
  intros r Hr. destruct (String.eqb_spec (weather r) l) as [E|E]; [|reflexivity].
  exfalso. apply H. apply in_map_iff. now exists r.
Qed.

Lemma label_count_nonneg (l : string) (obs : list weather_row) :
  0 <= label_count l obs.
Proof. unfold label_count. lia. Qed.

(** Whatever the order among equal counts, the label of row number 1 occurs
    at least as often as every other label. *)
Lemma first_label_is_most_frequent
    (rank : list (string * Z) -> list (string * Z)) (obs : list weather_row) :
  orders_by_count_desc rank ->
  obs <> [] ->
  exists l, option_map fst (hd_error (rank (label_groups obs))) = Some l /\
            In l (map weather obs) /\
            forall l', label_count l' obs <= label_count l obs.
Proof.
  intros Hrank Hne.
  assert (Hg : label_groups obs <> []).
  { unfold label_groups. destruct obs as [|r rest]; [congruence|]. discriminate. }
  destruct (first_rank_is_largest rank _ Hrank Hg) as [h [Hh [Hin Hmax]]].
  unfold label_groups in Hin. apply in_map_iff in Hin.
  destruct Hin as [l [El Hl]]. subst h.
  exists l. rewrite Hh. split; [reflexivity|]. split.
  - now apply distinct_In.
  - intros l'. destruct (in_dec string_dec l' (map weather obs)) as [Hi|Hi].
    + apply (Hmax (l', label_count l' obs)). unfold label_groups.
      apply in_map_iff. exists l'. split; [reflexivity|]. now apply distinct_In.
    + rewrite (label_count_absent l' obs Hi). apply label_count_nonneg.
Qed.

End SqlFacts.

(** ** Facts about the Aggregator *)

Module AggregatorFacts.
Import Js Sql Store Aggregator Spec Run SqlFacts.

Lemma bind_ok {A B : Type} (m : M A) (k : A -> M B) (w w1 : world) (a : A) :
  m w = (w1, Normal a) -> bind m k w = k a w1.
Proof. intros H. unfold bind. now rewrite H. Qed.

Lemma bind_throws {A B : Type} (m : M A) (k : A -> M B) (w w1 : world) (e : exn) :
  m w = (w1, Throw e) -> bind m k w = (w1, Throw e).
Proof. intros H. unfold bind. now rewrite H. Qed.

Lemma bind_normal_inv {A B : Type} (m : M A) (k : A -> M B) (w w' : world) (b : B) :
  bind m k w = (w', Normal b) ->
  exists w1 a, m w = (w1, Normal a) /\ k a w1 = (w', Normal b).
Proof.
  unfold bind. destruct (m w) as [w1 [a|e]]; intros H.
  - now exists w1, a.
  - discriminate.
Qed.

Lemma try_catch_rethrow {A : Type} (m : M A) (w : world) :
  try_catch m (fun err => throw err) w = m w.
Proof. unfold try_catch, throw. now destruct (m w) as [w1 [a|e]]. Qed.

Section Calls.

Variable rank : list (string * Z) -> list (string * Z).
Variable fault : step -> option exn.

Lemma request_ok {A : Type} (s : step) (q : database -> database * A) (w : world) :
  fault s = None ->
  request fault s q w = (set_db (fst (q (db w))) (note s w), Normal (snd (q (db w)))).
Proof. intros H. unfold request. now rewrite H. Qed.

Lemma request_rejected {A : Type} (s : step) (q : database -> database * A)
    (w : world) (e : exn) :
  fault s = Some e -> request fault s q w = (note s w, Throw e).
Proof. intros H. unfold request. now rewrite H. Qed.

Lemma request_normal_inv {A : Type} (s : step) (q : database -> database * A)
    (w w' : world) (a : A) :
  request fault s q w = (w', Normal a) -> fault s = None.
Proof. unfold request. destruct (fault s); [discriminate | reflexivity]. Qed.

Lemma connect_ok (w : world) :
  fault Connect = None -> connect fault w = (set_pool true (note Connect w), Normal tt).
Proof. intros H. unfold connect. now rewrite H. Qed.

Lemma connect_normal_inv (w w' : world) (a : unit) :
  connect fault w = (w', Normal a) -> fault Connect = None.
Proof. unfold connect. destruct (fault Connect); [discriminate | reflexivity]. Qed.

Lemma begin_ok (w : world) :
  fault Begin = None ->
  begin fault w = (set_transaction (Some (db w)) (note Begin w), Normal tt).
Proof. intros H. unfold begin. now rewrite H. Qed.

Lemma begin_normal_inv (w w' : world) (a : unit) :
  begin fault w = (w', Normal a) -> fault Begin = None.
Proof. unfold begin. destruct (fault Begin); [discriminate | reflexivity]. Qed.

Lemma commit_ok (w : world) :
  fault Commit = None ->
  commit fault w = (set_transaction None (note Commit w), Normal tt).
Proof. intros H. unfold commit. now rewrite H. Qed.

Lemma commit_normal_inv (w w' : world) (a : unit) :
  commit fault w = (w', Normal a) -> fault Commit = None.
Proof. unfold commit. destruct (fault Commit); [discriminate | reflexivity]. Qed.

Lemma close_pool_db (w : world) : db (fst (close_pool fault w)) = db w.
Proof.
  unfold close_pool. destruct (pool w); [|reflexivity].
  now destruct (fault Close).
Qed.

(** *** The queries read [weather_data] only *)

Lemma observations_In (d : database) (day : Z) (c : string) (r : weather_row) :
  In r (observations d day c) <->
  In r (weather_data d) /\ CONVERT_date (timestamp r) = day /\ city r = c.
Proof.
  unfold observations, on_date_city, on_date. rewrite filter_In, andb_true_iff.
  rewrite Z.eqb_eq, String.eqb_eq. tauto.
Qed.

Lemma observations_on_In (d : database) (day : Z) (r : weather_row) :
  In r (observations_on d day) <->
  In r (weather_data d) /\ CONVERT_date (timestamp r) = day.
Proof.
  unfold observations_on, on_date. rewrite filter_In, Z.eqb_eq. tauto.
Qed.

Lemma cities_on_In (d : database) (day : Z) (c : string) :
  In c (cities_on d day) <-> observations d day c <> [].
Proof.
  unfold cities_on. rewrite distinct_In, in_map_iff. split.
  - intros [r [E Hr]] Hnil. apply observations_on_In in Hr.
    assert (Hin : In r (observations d day c)) by (apply observations_In; tauto).
    rewrite Hnil in Hin. contradiction.
  - intros Hne. destruct (observations d day c) as [|r rest] eqn:E; [congruence|].
    assert (Hin : In r (observations d day c)) by (rewrite E; now left).
    apply observations_In in Hin. exists r. split; [tauto|].
    apply observations_on_In. tauto.
Qed.

Lemma cities_on_NoDup (d : database) (day : Z) : NoDup (cities_on d day).
Proof. apply distinct_NoDup. Qed.

Lemma cities_on_nil (d : database) (day : Z) :
  cities_on d day = [] <-> observations_on d day = [].
Proof.
  unfold cities_on. rewrite distinct_nil_iff. split.
  - apply map_eq_nil.
  - intros H. now rewrite H.
Qed.

Lemma checkDataQuery_cities (day : Z) (d : database) :
  map cd_city (snd (checkDataQuery day d)) = cities_on d day.
Proof.
  unfold checkDataQuery, cities_on, observations_on, GROUP_BY. simpl.
  rewrite !map_map. simpl. apply map_id.
Qed.

Lemma checkDataQuery_db (day : Z) (d : database) : fst (checkDataQuery day d) = d.
Proof. reflexivity. Qed.

Lemma aggregationSelect_single (c : string) (day : Z) (d : database) :
  observations d day c <> [] ->
  aggregationSelect rank c day d = [summary_of rank day d c].
Proof.
  intros Hne. unfold aggregationSelect.
  change (filter (on_date_city day c) (weather_data d)) with (observations d day c).
  rewrite (GROUP_BY_single city (observations d day c) c Hne).
  - reflexivity.
  - intros r Hr. apply observations_In in Hr. tauto.
Qed.

Lemma aggregationSelect_reads (c : string) (day : Z) (d1 d2 : database) :
  weather_data d1 = weather_data d2 ->
  aggregationSelect rank c day d1 = aggregationSelect rank c day d2.
Proof.
  intros H. unfold aggregationSelect, WeatherCounts. now rewrite H.
Qed.

Lemma summaries_of_cities (day : Z) (d : database) (cs : list string) :
  (forall c, In c cs -> observations d day c <> []) ->
  flat_map (fun c => aggregationSelect rank c day d) cs
  = map (summary_of rank day d) cs.
Proof.
  induction cs as [|c cs IH]; intros H; simpl; [reflexivity|].
  rewrite aggregationSelect_single by (apply H; now left).
  simpl. f_equal. apply IH. intros x Hx. apply H. now right.
Qed.

(** *** The loop over the cities *)

Lemma loop_ok (day : Z) (cds : list cityData) (w : world) :
  (forall cd, In cd cds -> fault (AggregationQuery (cd_city cd)) = None) ->
  for_of cds (loop_body rank fault day) w
  = ({| db :=
          {| weather_data := weather_data (db w);
             identity := identity (db w);
             daily_weather_summary :=
               daily_weather_summary (db w) ++
               flat_map (fun c => aggregationSelect rank c day (db w))
                        (map cd_city cds) |};
        transaction := transaction w;
        pool := pool w;
        issued := rev (map AggregationQuery (map cd_city cds)) ++ issued w |},
     Normal tt).
Proof.
  revert w. induction cds as [|cd cds IH]; intros w H.
  - destruct w as [[wd i s] t p tr]. simpl. unfold ret. now rewrite app_nil_r.
  - simpl for_of. unfold loop_body at 1.
    erewrite bind_ok; [|erewrite bind_ok; [reflexivity|]; apply request_ok; apply H; now left].
    rewrite IH by (intros x Hx; apply H; now right).
    simpl. f_equal. f_equal.
    + f_equal. rewrite <- app_assoc. do 2 apply f_equal.
      apply flat_map_ext. intros c. now apply aggregationSelect_reads.
    + now rewrite <- app_assoc.
Qed.

Lemma loop_normal_inv (day : Z) (cds : list cityData) (w w' : world) :
  for_of cds (loop_body rank fault day) w = (w', Normal tt) ->
  forall cd, In cd cds -> fault (AggregationQuery (cd_city cd)) = None.
Proof.
  revert w. induction cds as [|cd cds IH]; intros w H x Hx; [contradiction|].
  simpl for_of in H. apply bind_normal_inv in H. destruct H as [w1 [a [H1 H2]]].
  destruct Hx as [E|Hx].
  - subst x. unfold loop_body in H1. apply bind_normal_inv in H1.
    destruct H1 as [w2 [b [H1 _]]]. now apply request_normal_inv in H1.
  - now apply (IH w1).
Qed.

(** *** The handler up to [transaction.begin()] *)

Lemma try_finally_finish (m : M unit) (w : world) :
  try_finally m (close_pool fault) w = finish fault (m w).
Proof.
  unfold try_finally, finish. destruct (m w) as [w1 r]. reflexivity.
Qed.

Lemma checkDataQuery_length (day : Z) (d : database) :
  length (snd (checkDataQuery day d)) = length (cities_on d day).
Proof. rewrite <- checkDataQuery_cities. now rewrite length_map. Qed.

Lemma checkDataQuery_empty (day : Z) (d : database) :
  (length (snd (checkDataQuery day d)) =? 0)%nat = true <-> observations_on d day = [].
Proof.
  rewrite Nat.eqb_eq, checkDataQuery_length, length_zero_iff_nil.
  apply cities_on_nil.
Qed.

(** No observation for the day: the handler returns after [checkDataQuery]. *)
Lemma handler_no_data (now : Z) (d : database) :
  fault Connect = None ->
  fault InitialDataQuery = None ->
  fault CheckDataQuery = None ->
  observations_on d (yesterdayIST now) = [] ->
  dailyAggregation rank fault now d
  = finish fault (world_after_check d, Normal tt).
Proof.
  intros Hc Hi Hk Hnone.
  unfold dailyAggregation, handler.
  rewrite try_finally_finish. f_equal. rewrite try_catch_rethrow.
  erewrite bind_ok by (now apply connect_ok).
  erewrite bind_ok by (now apply request_ok).
  erewrite bind_ok by (now apply request_ok).
  cbn [db set_db set_pool note fst snd initialDataQuery].
  rewrite (proj2 (checkDataQuery_empty _ d) Hnone).
  reflexivity.
Qed.

(** Observations for the day and no call rejected so far: the handler
    reaches the purge in [world_at_begin]. *)
Lemma handler_at_purge (now : Z) (d : database) :
  let day := yesterdayIST now in
  fault Connect = None ->
  fault InitialDataQuery = None ->
  fault CheckDataQuery = None ->
  (forall c, In c (cities_on d day) -> fault (AggregationQuery c) = None) ->
  fault VerifyQuery = None ->
  fault Begin = None ->
  observations_on d day <> [] ->
  dailyAggregation rank fault now d
  = finish fault (purge fault day (world_at_begin rank day d)).
Proof.
  intros day Hc Hi Hk Hagg Hv Hb Hdata.
  unfold dailyAggregation, handler. fold day.
  rewrite try_finally_finish. f_equal. rewrite try_catch_rethrow.
  erewrite bind_ok by (now apply connect_ok).
  erewrite bind_ok by (now apply request_ok).
  erewrite bind_ok by (now apply request_ok).
  cbn [db set_db set_pool note fst snd initialDataQuery].
  destruct (length (snd (checkDataQuery day d)) =? 0)%nat eqn:E.
  { apply checkDataQuery_empty in E. contradiction. }
  change (fun cd : cityData =>
            bind (request fault (AggregationQuery (cd_city cd))
                          (aggregationQuery rank (cd_city cd) day))
                 (fun _ => ret tt))
    with (loop_body rank fault day).
  erewrite bind_ok.
  2:{ apply loop_ok. intros cd Hcd. apply Hagg.
      rewrite <- checkDataQuery_cities. now apply in_map. }
  erewrite bind_ok by (now apply request_ok).
  erewrite bind_ok by (now apply begin_ok).
  f_equal.
  unfold set_transaction, note, set_db, set_pool.
  cbn [db transaction pool issued fst verifyQuery].
  rewrite ?checkDataQuery_db.
  cbn [db transaction pool issued fst verifyQuery weather_data identity
       daily_weather_summary].
  unfold world_at_begin, summarized, issued_at_begin.
  rewrite !checkDataQuery_cities.
  rewrite summaries_of_cities by (intros c Hin; now apply cities_on_In).
  reflexivity.
Qed.

(** *** The purge *)

Lemma rollback_open (w : world) (snapshot : database) :
  fault Rollback = None ->
  transaction w = Some snapshot ->
  rollback fault w
  = ({| db := snapshot; transaction := None; pool := pool w;
        issued := Rollback :: issued w |}, Normal tt).
Proof.
  intros Hr Ht. unfold rollback. rewrite Hr. simpl. now rewrite Ht.
Qed.

Lemma purge_ok (day : Z) (w : world) :
  fault CountQuery = None ->
  fault DeleteQuery = None ->
  fault ResetIdentityQuery = None ->
  fault Commit = None ->
  fault FinalStateQuery = None ->
  purge fault day w
  = ({| db := purged day (db w);
        transaction := None;
        pool := pool w;
        issued := FinalStateQuery :: Commit :: ResetIdentityQuery ::
                  DeleteQuery :: CountQuery :: issued w |},
     Normal tt).
Proof.
  intros H1 H2 H3 H4 H5. unfold purge, try_catch.
  erewrite bind_ok by (now apply request_ok).
  erewrite bind_ok by (now apply request_ok).
  erewrite bind_ok by (now apply request_ok).
  erewrite bind_ok by (now apply commit_ok).
  erewrite bind_ok by (now apply request_ok).
  reflexivity.
Qed.

Lemma purge_count_rejected (day : Z) (w : world) (snapshot : database) (e : exn) :
  fault CountQuery = Some e ->
  fault Rollback = None ->
  transaction w = Some snapshot ->
  purge fault day w
  = ({| db := snapshot; transaction := None; pool := pool w;
        issued := Rollback :: CountQuery :: issued w |}, Throw e).
Proof.
  intros H1 Hr Ht. unfold purge, try_catch.
  erewrite bind_throws by (eapply request_rejected; eassumption).
  erewrite bind_ok by (eapply rollback_open; [assumption | exact Ht]).
  reflexivity.
Qed.

Lemma purge_delete_rejected (day : Z) (w : world) (snapshot : database) (e : exn) :
  fault CountQuery = None ->
  fault DeleteQuery = Some e ->
  fault Rollback = None ->
  transaction w = Some snapshot ->
  purge fault day w
  = ({| db := snapshot; transaction := None; pool := pool w;
        issued := Rollback :: DeleteQuery :: CountQuery :: issued w |}, Throw e).
Proof.
  intros H1 H2 Hr Ht. unfold purge, try_catch.
  erewrite bind_ok by (now apply request_ok).
  erewrite bind_throws by (eapply request_rejected; eassumption).
  erewrite bind_ok by (eapply rollback_open; [assumption | exact Ht]).
  reflexivity.
Qed.

Lemma purge_reseed_rejected (day : Z) (w : world) (snapshot : database) (e : exn) :
  fault CountQuery = None ->
  fault DeleteQuery = None ->
  fault ResetIdentityQuery = Some e ->
  fault Rollback = None ->
  transaction w = Some snapshot ->
  purge fault day w
  = ({| db := snapshot; transaction := None; pool := pool w;
        issued := Rollback :: ResetIdentityQuery :: DeleteQuery :: CountQuery ::
                  issued w |}, Throw e).
Proof.
  intros H1 H2 H3 Hr Ht. unfold purge, try_catch.
  erewrite bind_ok by (now apply request_ok).
  erewrite bind_ok by (now apply request_ok).
  erewrite bind_throws by (eapply request_rejected; eassumption).
  erewrite bind_ok by (eapply rollback_open; [assumption | exact Ht]).
  reflexivity.
Qed.

(** Whichever of the three calls is the one rejected. *)
Lemma purge_call_rejected (day : Z) (w : world) (snapshot : database)
    (s : step) (e : exn) :
  In s [CountQuery; DeleteQuery; ResetIdentityQuery] ->
  (forall s', In s' (purge_calls_before s) -> fault s' = None) ->
  fault s = Some e ->
  fault Rollback = None ->
  transaction w = Some snapshot ->
  purge fault day w
  = ({| db := snapshot; transaction := None; pool := pool w;
        issued := Rollback :: s :: rev (purge_calls_before s) ++ issued w |},
     Throw e).
Proof.
  intros Hs Hbefore He Hr Ht. destruct Hs as [<-|[<-|[<-|[]]]].
  - now apply purge_count_rejected.
  - apply purge_delete_rejected; try assumption.
    apply Hbefore. simpl. tauto.
  - apply purge_reseed_rejected; try assumption; apply Hbefore; simpl; tauto.
Qed.

(** The [catch] block of the purge never completes normally. *)
Lemma purge_handler_throws (err : exn) (w : world) :
  exists w' e,
    bind (rollback fault) (fun _ => throw err) w = (w', @Throw unit e).
Proof.
  unfold bind. destruct (rollback fault w) as [w1 [a|e]].
  - now exists w1, err.
  - now exists w1, e.
Qed.

Lemma purge_normal_inv (day : Z) (w w' : world) :
  purge fault day w = (w', Normal tt) ->
  fault CountQuery = None /\ fault DeleteQuery = None /\
  fault ResetIdentityQuery = None /\ fault Commit = None /\
  fault FinalStateQuery = None.
Proof.
  unfold purge, try_catch. intros H.
  match type of H with
  | (match ?body with _ => _ end) = _ => destruct body as [w1 [a|e]] eqn:HB
  end.
  - apply bind_normal_inv in HB. destruct HB as [w2 [a2 [Hcount HB]]].
    apply bind_normal_inv in HB. destruct HB as [w3 [a3 [Hdel HB]]].
    apply bind_normal_inv in HB. destruct HB as [w4 [a4 [Hres HB]]].
    apply bind_normal_inv in HB. destruct HB as [w5 [a5 [Hcom HB]]].
    apply bind_normal_inv in HB. destruct HB as [w6 [a6 [Hfin HB]]].
    apply request_normal_inv in Hcount, Hdel, Hres, Hfin.
    apply commit_normal_inv in Hcom. tauto.
  - destruct (purge_handler_throws e w1) as [w2 [e2 Hh]].
    rewrite Hh in H. discriminate.
Qed.

Lemma connect_rejected (w : world) (e : exn) :
  fault Connect = Some e -> connect fault w = (note Connect w, Throw e).
Proof. intros H. unfold connect. now rewrite H. Qed.

Lemma finish_fst_db (x : world * completion unit) :
  db (fst (finish fault x)) = db (fst x).
Proof.
  unfold finish. pose proof (close_pool_db (fst x)) as Hdb.
  now destruct (close_pool fault (fst x)) as [w2 [u|e]].
Qed.

Lemma finish_issued (x : world * completion unit) :
  issued (fst (finish fault x)) = issued (fst x) \/
  issued (fst (finish fault x)) = Close :: issued (fst x).
Proof.
  unfold finish, close_pool. destruct (pool (fst x)); [|now left].
  destruct (fault Close); now right.
Qed.

(** No observation for the day: whichever calls are rejected, the store is
    left as it was and neither an aggregation nor the DELETE is issued. *)
Lemma handler_no_data_any_fault (now : Z) (d : database) :
  observations_on d (yesterdayIST now) = [] ->
  let res := dailyAggregation rank fault now d in
  db (fst res) = d /\
  ~ In DeleteQuery (issued (fst res)) /\
  forall c, ~ In (AggregationQuery c) (issued (fst res)).
Proof.
  intros Hnone res.
  assert (Hshape : exists w r, res = finish fault (w, r) /\ db w = d /\
                     incl (issued w) [CheckDataQuery; InitialDataQuery; Connect]).
  { unfold res. destruct (fault Connect) as [e|] eqn:Fc.
    { unfold dailyAggregation, handler.
      rewrite try_finally_finish, try_catch_rethrow.
      erewrite bind_throws by (eapply connect_rejected; eassumption).
      eexists _, _. split; [reflexivity|]. split; [reflexivity|].
      intros s [<-|[]]. simpl. tauto. }
    destruct (fault InitialDataQuery) as [e|] eqn:Fi.
    { unfold dailyAggregation, handler.
      rewrite try_finally_finish, try_catch_rethrow.
      erewrite bind_ok by (now apply connect_ok).
      erewrite bind_throws by (eapply request_rejected; eassumption).
      eexists _, _. split; [reflexivity|]. split; [reflexivity|].
      intros s [<-|[<-|[]]]; simpl; tauto. }
    destruct (fault CheckDataQuery) as [e|] eqn:Fk.
    { unfold dailyAggregation, handler.
      rewrite try_finally_finish, try_catch_rethrow.
      erewrite bind_ok by (now apply connect_ok).
      erewrite bind_ok by (now apply request_ok).
      erewrite bind_throws by (eapply request_rejected; eassumption).
      eexists _, _. split; [reflexivity|]. split; [reflexivity|].
      intros s [<-|[<-|[<-|[]]]]; simpl; tauto. }
    rewrite (handler_no_data now d Fc Fi Fk Hnone).
    eexists _, _. split; [reflexivity|]. split; [reflexivity|].
    apply incl_refl. }
  destruct Hshape as [w [r [Hres [Hdb Hincl]]]]. rewrite Hres.
  split; [now rewrite finish_fst_db|].
  assert (Hin : forall s, In s (issued (fst (finish fault (w, r)))) ->
                          s = Close \/ In s [CheckDataQuery; InitialDataQuery; Connect]).
  { intros s Hs. destruct (finish_issued (w, r)) as [E|E]; rewrite E in Hs.
    - right. now apply Hincl.
    - destruct Hs as [<-|Hs]; [now left | right; now apply Hincl]. }
  split.
  - intros H. destruct (Hin _ H) as [E|[E|[E|[E|[]]]]]; discriminate.
  - intros c H. destruct (Hin _ H) as [E|[E|[E|[E|[]]]]]; discriminate.
Qed.

(** *** Invocations that return *)

Lemma finish_db (x : world * completion unit) (w' : world) (r : completion unit) :
  finish fault x = (w', r) -> db w' = db (fst x).
Proof.
  unfold finish. pose proof (close_pool_db (fst x)) as Hdb.
  destruct (close_pool fault (fst x)) as [w2 [u|e]]; simpl in Hdb;
    intros H; injection H as <- _; exact Hdb.
Qed.

Lemma finish_normal_inv (x : world * completion unit) (w' : world) :
  finish fault x = (w', Normal tt) -> snd x = Normal tt.
Proof.
  unfold finish. destruct (close_pool fault (fst x)) as [w2 [u|e]]; intros H.
  - now injection H.
  - discriminate.
Qed.

(** An invocation that returns had none of the calls it issued rejected. *)
Lemma handler_normal_calls (now : Z) (d : database) (w' : world) :
  let day := yesterdayIST now in
  dailyAggregation rank fault now d = (w', Normal tt) ->
  fault Connect = None /\ fault InitialDataQuery = None /\
  fault CheckDataQuery = None /\
  (observations_on d day <> [] ->
   (forall c, In c (cities_on d day) -> fault (AggregationQuery c) = None) /\
   fault VerifyQuery = None /\ fault Begin = None /\
   fault CountQuery = None /\ fault DeleteQuery = None /\
   fault ResetIdentityQuery = None /\ fault Commit = None /\
   fault FinalStateQuery = None).
Proof.
  intros day H.
  unfold dailyAggregation, handler in H. fold day in H.
  rewrite try_finally_finish in H. apply finish_normal_inv in H.
  rewrite try_catch_rethrow in H.
  match type of H with snd ?x = _ => destruct x as [w1 r1] eqn:HB end.
  simpl in H. subst r1.
  apply bind_normal_inv in HB. destruct HB as [wa [a [Hconn HB]]].
  pose proof (connect_normal_inv _ _ _ Hconn) as Fc.
  rewrite (connect_ok _ Fc) in Hconn. injection Hconn as <- _.
  apply bind_normal_inv in HB. destruct HB as [wb [b [Hini HB]]].
  pose proof (request_normal_inv _ _ _ _ _ Hini) as Fi.
  rewrite (request_ok _ _ _ Fi) in Hini. injection Hini as <- _.
  apply bind_normal_inv in HB. destruct HB as [wc [dataCheck [Hchk HB]]].
  pose proof (request_normal_inv _ _ _ _ _ Hchk) as Fk.
  rewrite (request_ok _ _ _ Fk) in Hchk. injection Hchk as <- <-.
  cbn [db set_db set_pool note fst snd initialDataQuery] in HB.
  change (map (fun g : string * list weather_row =>
                 {| cd_city := fst g; cd_record_count := COUNT (snd g) |})
              (GROUP_BY city (filter (on_date day) (weather_data d))))
    with (snd (checkDataQuery day d)) in HB.
  repeat (split; [assumption|]).
  intros Hdata.
  destruct (length (snd (checkDataQuery day d)) =? 0)%nat eqn:E.
  { apply checkDataQuery_empty in E. contradiction. }
  change (fun cd : cityData =>
            bind (request fault (AggregationQuery (cd_city cd))
                          (aggregationQuery rank (cd_city cd) day))
                 (fun _ => ret tt))
    with (loop_body rank fault day) in HB.
  apply bind_normal_inv in HB. destruct HB as [wd [u [Hloop HB]]]. destruct u.
  pose proof (loop_normal_inv _ _ _ _ Hloop) as Fagg.
  apply bind_normal_inv in HB. destruct HB as [we [v [Hver HB]]].
  apply request_normal_inv in Hver.
  apply bind_normal_inv in HB. destruct HB as [wf [u [Hbeg HB]]].
  apply begin_normal_inv in Hbeg.
  apply purge_normal_inv in HB.
  split; [|tauto].
  intros c Hc. rewrite <- checkDataQuery_cities in Hc.
  apply in_map_iff in Hc. destruct Hc as [cd [<- Hcd]]. now apply Fagg.
Qed.

(** What an invocation that returns has done to the store. *)
Lemma handler_normal (now : Z) (d : database) (w' : world) :
  let day := yesterdayIST now in
  dailyAggregation rank fault now d = (w', Normal tt) ->
  (observations_on d day = [] /\ db w' = d) \/
  (observations_on d day <> [] /\ db w' = purged day (summarized rank day d)).
Proof.
  intros day H.
  destruct (handler_normal_calls now d w' H) as [Fc [Fi [Fk Hrest]]].
  fold day in Hrest.
  destruct (observations_on d day) as [|r l] eqn:E.
  - left. split; [reflexivity|].
    rewrite (handler_no_data now d Fc Fi Fk E) in H.
    apply finish_db in H. exact H.
  - right. split; [discriminate|].
    assert (Hne : observations_on d day <> []) by (rewrite E; discriminate).
    rewrite <- E in Hrest.
    destruct (Hrest Hne) as [Fa [Fv [Fb [F1 [F2 [F3 [F4 F5]]]]]]].
    rewrite (handler_at_purge now d Fc Fi Fk Fa Fv Fb Hne) in H.
    fold day in H. rewrite (purge_ok day _ F1 F2 F3 F4 F5) in H.
    apply finish_db in H. exact H.
Qed.

End Calls.

(** *** Invocations in which no call is rejected *)

Lemma run_without_data (rank : list (string * Z) -> list (string * Z))
    (now : Z) (d : database) :
  observations_on d (yesterdayIST now) = [] ->
  dailyAggregation rank no_fault now d = (world_no_data d, Normal tt).
Proof.
  intros H. now rewrite handler_no_data.
Qed.

Lemma run_with_data (rank : list (string * Z) -> list (string * Z))
    (now : Z) (d : database) :
  observations_on d (yesterdayIST now) <> [] ->
  dailyAggregation rank no_fault now d
  = (world_done rank (yesterdayIST now) d, Normal tt).
Proof.
  intros H. rewrite handler_at_purge by (assumption || reflexivity).
  now rewrite purge_ok.
Qed.

Lemma observations_sub (d : database) (day : Z) (c : string) :
  observations d day c <> [] -> observations_on d day <> [].
Proof.
  intros Hne Hnil. destruct (observations d day c) as [|r l] eqn:E; [congruence|].
  assert (Hin : In r (observations d day c)) by (rewrite E; now left).
  apply observations_In in Hin.
  assert (Hon : In r (observations_on d day)) by (apply observations_on_In; tauto).
  rewrite Hnil in Hon. contradiction.
Qed.

Lemma purged_summary (day : Z) (d : database) :
  daily_weather_summary (purged day d) = daily_weather_summary d.
Proof. reflexivity. Qed.

Lemma purged_weather_data (day : Z) (d : database) :
  weather_data (purged day d)
  = filter (fun r => negb (on_date day r)) (weather_data d).
Proof. reflexivity. Qed.

Lemma purged_nothing_left (day : Z) (d : database) :
  observations_on (purged day d) day = [].
Proof.
  unfold observations_on. rewrite purged_weather_data.
  apply filter_none. intros r Hr. apply filter_In in Hr.
  destruct Hr as [_ Hr]. now destruct (on_date day r).
Qed.

Lemma skipn_app_exact {A : Type} (l x : list A) : skipn (length l) (l ++ x) = x.
Proof. induction l as [|a l IH]; simpl; [reflexivity | exact IH]. Qed.

Lemma inserted_summarized (rank : list (string * Z) -> list (string * Z))
    (day : Z) (d : database) :
  inserted d (purged day (summarized rank day d))
  = map (summary_of rank day d) (cities_on d day).
Proof.
  unfold inserted. rewrite purged_summary. simpl. apply skipn_app_exact.
Qed.

Lemma filter_map_unique (f : string -> summary_row) (cs : list string) (c : string) :
  (forall x, summary_city (f x) = x) ->
  NoDup cs -> In c cs ->
  filter (fun s => String.eqb (summary_city s) c) (map f cs) = [f c].
Proof.
  intros Hf. induction cs as [|a cs IH]; intros Hnd Hin; [contradiction|].
  inversion Hnd as [|? ? Hnotin Hnd']; subst. simpl. rewrite Hf.
  destruct (String.eqb_spec a c) as [E|E].
  - subst a. f_equal. apply filter_none. intros s Hs.
    apply in_map_iff in Hs. destruct Hs as [x [<- Hx]]. rewrite Hf.
    apply String.eqb_neq. intros ->. contradiction.
  - destruct Hin as [Hin|Hin]; [contradiction|]. now apply IH.
Qed.

(** The rows a complete invocation inserts for a city with observations. *)
Lemma inserted_for_city (rank : list (string * Z) -> list (string * Z))
    (day : Z) (d : database) (c : string) :
  observations d day c <> [] ->
  inserted_for c d (purged day (summarized rank day d)) = [summary_of rank day d c].
Proof.
  intros Hne. unfold inserted_for. rewrite inserted_summarized.
  apply filter_map_unique.
  - reflexivity.
  - apply cities_on_NoDup.
  - now apply cities_on_In.
Qed.

(** The label written for a city is that of row number 1 of the ranking of
    its label groups. *)
Lemma dominant_weather_rank (rank : list (string * Z) -> list (string * Z))
    (day : Z) (d : database) (c : string) :
  dominant_weather (summary_of rank day d c)
  = option_map fst (hd_error (rank (label_groups (observations d day c)))).
Proof.
  unfold summary_of. cbn [dominant_weather]. unfold WeatherCounts.
  change (filter (on_date_city day c) (weather_data d)) with (observations d day c).
  rewrite label_groups_GROUP_BY. apply TOP1_row_number_1.
Qed.

Lemma map_nonempty {A B : Type} (f : A -> B) (l : list A) :
  l <> [] -> map f l <> [].
Proof. destruct l; [congruence | discriminate]. Qed.

End AggregatorFacts.

(** ** Facts about the Collector *)

Module CollectorFacts.
Import Js Store Stored.

Lemma sql_Int_normal (v : option Q) (z : option Z) :
  Collector.sql_Int v = Normal z -> z = option_map Collector.truncate v.
Proof.
  unfold Collector.sql_Int. destruct v as [q|]; [|intros H; now injection H].
  destruct (Qle_bool _ q && Qle_bool q _); intros H; [now injection H | discriminate].
Qed.

Lemma not_null_In (l : list (option Collector.params)) (p : Collector.params) :
  In p (Collector.not_null l) <-> In (Some p) l.
Proof.
  induction l as [|[q|] l IH]; simpl.
  - tauto.
  - rewrite IH. split; intros [H|H]; auto; left; congruence.
  - rewrite IH. split; [auto|]. intros [H|H]; [discriminate | assumption].
Qed.

Section Fetch.

Variable http : Collector.City -> Api.outcome.
Variable clock : Collector.City -> Z.

(** What a fetched observation is made of. *)
Lemma fetchWeatherData_some (c : Collector.City) (p : Collector.params) :
  Collector.fetchWeatherData http clock c = Some p ->
  exists data m conditions,
    http c = Api.Resolved (Some data) /\
    Api.main data = Some m /\
    Api.weather data = Some conditions /\
    Collector.city p = Collector.name c /\
    Collector.temperature p = Api.temp m /\
    Collector.feels_like p = Api.feels_like m /\
    Collector.pressure p = Api.pressure m /\
    Collector.humidity p = Api.humidity m /\
    Collector.timestamp p = clock c.
Proof.
  unfold Collector.fetchWeatherData, Collector.fetchWeatherData_try.
  destruct (http c) as [msg|[data|]]; try discriminate.
  destruct (Api.main data) as [m|] eqn:Em; try discriminate.
  destruct (Api.weather data) as [conditions|] eqn:Ew; try discriminate.
  intros H. injection H as <-. exists data, m, conditions. simpl.
  repeat split; reflexivity || assumption.
Qed.

(** A response with [main] and an empty [weather] array gives an
    observation labelled 'Unknown'. *)
Lemma fetchWeatherData_empty_weather (c : Collector.City) (data : Api.Data) (m : Api.Main) :
  http c = Api.Resolved (Some data) ->
  Api.main data = Some m ->
  Api.weather data = Some [] ->
  exists p, Collector.fetchWeatherData http clock c = Some p /\
            Collector.weather p = "Unknown"%string.
Proof.
  intros H1 H2 H3.
  unfold Collector.fetchWeatherData, Collector.fetchWeatherData_try.
  rewrite H1, H2, H3. eexists. split; reflexivity.
Qed.

(** A response with [main] and no [weather] property throws inside the
    [try] and is dropped. *)
Lemma fetchWeatherData_absent_weather (c : Collector.City) (data : Api.Data) (m : Api.Main) :
  http c = Api.Resolved (Some data) ->
  Api.main data = Some m ->
  Api.weather data = None ->
  Collector.fetchWeatherData http clock c = None.
Proof.
  intros H1 H2 H3.
  unfold Collector.fetchWeatherData, Collector.fetchWeatherData_try.
  now rewrite H1, H2, H3.
Qed.

End Fetch.

Section Inserts.

Variable insert_fault : string -> option exn.

Lemma insertWeatherData_cases (p : Collector.params) (d : database) :
  (accepted insert_fault p /\
   exists r, row_of p r /\ id r = next_id d /\
     Collector.insertWeatherData insert_fault p d
     = ({| weather_data := weather_data d ++ [r];
           identity := next_id d;
           daily_weather_summary := daily_weather_summary d |}, Normal tt)) \/
  (~ accepted insert_fault p /\
   exists e, Collector.insertWeatherData insert_fault p d = (d, Throw e)).
Proof.
  unfold Collector.insertWeatherData, accepted, binds, has_readings, row_of.
  destruct p as [c t f pr hu w ts].
  cbn [Collector.city Collector.temperature Collector.feels_like
       Collector.pressure Collector.humidity Collector.weather
       Collector.timestamp].
  destruct (insert_fault c) as [e|] eqn:Ef.
  { right. split; [intros [H _]; discriminate | now exists e]. }
  destruct (Collector.sql_Int pr) as [pr'|e1] eqn:Ep.
  2:{ right. split; [|now exists e1].
      intros [_ [[a [b [H _]]] _]]. discriminate. }
  destruct (Collector.sql_Int hu) as [hu'|e2] eqn:Eh.
  2:{ right. split; [|now exists e2].
      intros [_ [[a [b [_ H]]] _]]. discriminate. }
  pose proof (sql_Int_normal _ _ Ep) as Ep'.
  pose proof (sql_Int_normal _ _ Eh) as Eh'. subst pr' hu'.
  unfold Collector.sql_Float, Collector.sql_NVarChar,
    Collector.sql_DateTimeOffset, INSERT_weather_data_VALUES.
  destruct t as [t|], f as [f|], pr as [pr|], hu as [hu|];
    cbn [option_map];
    try (right; split;
         [intros [_ [_ [t' [f' [p' [h' [H1 [H2 [H3 H4]]]]]]]]]; discriminate
         | eexists; reflexivity]).
  left. split.
  - split; [reflexivity|]. split; [now eexists _, _ | now exists t, f, pr, hu].
  - eexists. split; [|split; [|reflexivity]].
    + cbn [city temperature feels_like pressure humidity weather timestamp].
      repeat split; reflexivity.
    + reflexivity.
Qed.

(** An insert that is not accepted throws and stores nothing; one such
    insert among those of [Promise.all] makes the await throw. *)
Lemma insert_all_throws (l : list Collector.params) (d : database) :
  (exists p, In p l /\ ~ accepted insert_fault p) ->
  exists e, snd (Collector.insert_all insert_fault l d) = Throw e.
Proof.
  revert d. induction l as [|p l IH]; intros d [q [Hq Hn]]; [contradiction|].
  simpl Collector.insert_all.
  destruct (insertWeatherData_cases p d) as [[Hacc [r [_ [_ Hins]]]]|[_ [e Hins]]];
    rewrite Hins.
  - destruct Hq as [<-|Hq]; [contradiction|].
    match goal with
    | |- context [Collector.insert_all insert_fault l ?d1] =>
        destruct (IH d1 (ex_intro _ q (conj Hq Hn))) as [e He];
        destruct (Collector.insert_all insert_fault l d1) as [d2 r2]
    end.
    simpl in He. exists e. exact He.
  - destruct (Collector.insert_all insert_fault l d) as [d2 r2].
    now exists e.
Qed.

(** What [Promise.all] over the inserts leaves in the store and how it
    settles. *)
Lemma insert_all_spec (l : list Collector.params) (d : database) :
  exists rows,
    weather_data (fst (Collector.insert_all insert_fault l d))
      = weather_data d ++ rows /\
    daily_weather_summary (fst (Collector.insert_all insert_fault l d))
      = daily_weather_summary d /\
    (forall r, In r rows -> exists p, In p l /\ accepted insert_fault p /\ row_of p r) /\
    (forall p, In p l -> accepted insert_fault p -> exists r, In r rows /\ row_of p r) /\
    ((forall p, In p l -> accepted insert_fault p) ->
     snd (Collector.insert_all insert_fault l d) = Normal tt) /\
    (forall e, snd (Collector.insert_all insert_fault l d) = Throw e ->
     exists p, In p l /\ ~ accepted insert_fault p).
Proof.
  revert d. induction l as [|p l IH]; intros d.
  - exists []. simpl. rewrite app_nil_r.
    repeat split; try reflexivity; try contradiction. intros e H. discriminate.
  - simpl Collector.insert_all.
    destruct (insertWeatherData_cases p d) as [[Hacc [r [Hrow [_ Hins]]]]|[Hrej [e Hins]]];
      rewrite Hins.
    + match goal with
      | |- context [Collector.insert_all insert_fault l ?d1] =>
          destruct (IH d1) as [rows [Hw [Hs [Hfrom [Hto [Hok Herr]]]]]];
          destruct (Collector.insert_all insert_fault l d1) as [d2 r2]
      end.
      simpl in Hw, Hs, Hok, Herr. exists (r :: rows). simpl.
      split; [rewrite Hw, <- app_assoc; reflexivity|].
      split; [exact Hs|].
      split; [|split; [|split]].
      * intros x [<-|Hx]; [exists p; auto|].
        destruct (Hfrom x Hx) as [q [Hq Hq']]. exists q. auto.
      * intros q [<-|Hq] Ha; [exists r; auto|].
        destruct (Hto q Hq Ha) as [x [Hx Hx']]. exists x. auto.
      * intros Hall. apply Hok. intros q Hq. apply Hall. now right.
      * intros e He. destruct (Herr e He) as [q [Hq Hq']]. exists q. auto.
    + destruct (IH d) as [rows [Hw [Hs [Hfrom [Hto [Hok Herr]]]]]].
      destruct (Collector.insert_all insert_fault l d) as [d2 r2].
      simpl in Hw, Hs, Hok, Herr. exists rows. simpl.
      split; [exact Hw|]. split; [exact Hs|].
      split; [|split; [|split]].
      * intros x Hx. destruct (Hfrom x Hx) as [q [Hq Hq']]. exists q. auto.
      * intros q [<-|Hq] Ha; [contradiction|]. now apply Hto.
      * intros Hall. exfalso. apply Hrej. apply Hall. now left.
      * intros e' _. exists p. auto.
Qed.

End Inserts.

Section Trigger.

Variable apiKey : option string.
Variable http : Collector.City -> Api.outcome.
Variable clock : Collector.City -> Z.
Variable insert_fault : string -> option exn.

Lemma valid_In (p : Collector.params) :
  In p (Collector.not_null (map (Collector.fetchWeatherData http clock) Collector.cities))
  <-> exists c, In c Collector.cities /\ Collector.fetchWeatherData http clock c = Some p.
Proof.
  rewrite not_null_In, in_map_iff. split; intros [c [H1 H2]]; exists c; auto.
Qed.

(** With an API key configured: the rows an invocation adds are those of the
    fetched observations whose insert is accepted, and it throws only when
    an insert is not accepted. *)
Lemma weatherTrigger_spec (d : database) :
  Collector.apiKey_missing apiKey = false ->
  let res := Collector.weatherTrigger apiKey http clock insert_fault d in
  exists rows,
    weather_data (fst res) = weather_data d ++ rows /\
    (forall r, In r rows ->
       exists c p, In c Collector.cities /\
         Collector.fetchWeatherData http clock c = Some p /\
         accepted insert_fault p /\ row_of p r) /\
    (forall c p, In c Collector.cities ->
       Collector.fetchWeatherData http clock c = Some p ->
       accepted insert_fault p -> exists r, In r rows /\ row_of p r) /\
    ((forall c p, In c Collector.cities ->
        Collector.fetchWeatherData http clock c = Some p ->
        accepted insert_fault p) -> snd res = Normal tt) /\
    (forall e, snd res = Throw e ->
       exists c p, In c Collector.cities /\
         Collector.fetchWeatherData http clock c = Some p /\
         ~ accepted insert_fault p).
Proof.
  intros Hkey res. unfold res, Collector.weatherTrigger. rewrite Hkey.
  set (valid := Collector.not_null
                  (map (Collector.fetchWeatherData http clock) Collector.cities)).
  assert (Hvalid : forall p, In p valid <->
            exists c, In c Collector.cities /\
                      Collector.fetchWeatherData http clock c = Some p)
    by apply valid_In.
  destruct (length valid =? 0)%nat eqn:E.
  - apply Nat.eqb_eq, length_zero_iff_nil in E.
    exists []. simpl. rewrite app_nil_r.
    split; [reflexivity|]. split; [contradiction|]. split; [|split].
    + intros c p Hc Hf _. exfalso.
      assert (Hin : In p valid) by (apply (proj2 (Hvalid p)); exists c; split; assumption).
      rewrite E in Hin. contradiction.
    + reflexivity.
    + intros e H. discriminate.
  - destruct (insert_all_spec insert_fault valid d)
      as [rows [Hw [_ [Hfrom [Hto [Hok Herr]]]]]].
    exists rows. split; [exact Hw|]. split; [|split; [|split]].
    + intros r Hr. destruct (Hfrom r Hr) as [p [Hp [Ha Hrow]]].
      apply Hvalid in Hp. destruct Hp as [c [Hc Hf]]. exists c, p. auto.
    + intros c p Hc Hf Ha. apply Hto; [|assumption]. apply (proj2 (Hvalid p)). exists c; split; assumption.
    + intros Hall. apply Hok. intros p Hp. apply Hvalid in Hp.
      destruct Hp as [c [Hc Hf]]. eauto.
    + intros e He. destruct (Herr e He) as [p [Hp Hn]].
      apply Hvalid in Hp. destruct Hp as [c [Hc Hf]]. exists c, p. auto.
Qed.

(** With an API key configured, a fetched observation whose insert is not
    accepted makes the invocation throw. *)
Lemma weatherTrigger_throws (d : database) (c : Collector.City) (p : Collector.params) :
  Collector.apiKey_missing apiKey = false ->
  In c Collector.cities ->
  Collector.fetchWeatherData http clock c = Some p ->
  ~ accepted insert_fault p ->
  exists e, snd (Collector.weatherTrigger apiKey http clock insert_fault d) = Throw e.
Proof.
  intros Hkey Hc Hf Hn. unfold Collector.weatherTrigger. rewrite Hkey.
  set (valid := Collector.not_null
                  (map (Collector.fetchWeatherData http clock) Collector.cities)).
  assert (Hin : In p valid) by (apply (proj2 (valid_In p)); now exists c).
  destruct (length valid =? 0)%nat eqn:E.
  - apply Nat.eqb_eq, length_zero_iff_nil in E. rewrite E in Hin. contradiction.
  - apply insert_all_throws. now exists p.
Qed.

(** Key or no key: every row an invocation adds is that of an observation
    fetched for a configured city. *)
Lemma weatherTrigger_rows (d : database) :
  exists rows,
    weather_data (fst (Collector.weatherTrigger apiKey http clock insert_fault d))
      = weather_data d ++ rows /\
    forall r, In r rows ->
      exists c p, In c Collector.cities /\
        Collector.fetchWeatherData http clock c = Some p /\ row_of p r.
Proof.
  destruct (Collector.apiKey_missing apiKey) eqn:K.
  - exists []. unfold Collector.weatherTrigger. rewrite K. simpl.
    rewrite app_nil_r. split; [reflexivity | contradiction].
  - destruct (weatherTrigger_spec d K) as [rows [Hw [Hfrom _]]].
    exists rows. split; [exact Hw|].
    intros r Hr. destruct (Hfrom r Hr) as [c [p [Hc [Hf [_ Hrow]]]]].
    exists c, p. auto.
Qed.

End Trigger.

Lemma cities_names_distinct : NoDup (map Collector.name Collector.cities).
Proof.
  repeat constructor; simpl; intuition discriminate.
Qed.

Lemma cities_name_inj (c c' : Collector.City) :
  In c Collector.cities -> In c' Collector.cities ->
  Collector.name c = Collector.name c' -> c = c'.
Proof.
  intros Hc Hc' E. pose proof cities_names_distinct as Hnd.
  revert Hc Hc' Hnd. generalize Collector.cities as l.
  induction l as [|a l IH]; intros Hc Hc' Hnd; [contradiction|].
  simpl in Hnd. inversion Hnd as [|? ? Hnotin Hnd']; subst.
  destruct Hc as [<-|Hc], Hc' as [<-|Hc'].
  - reflexivity.
  - exfalso. apply Hnotin. rewrite E. now apply in_map.
  - exfalso. apply Hnotin. rewrite <- E. now apply in_map.
  - now apply IH.
Qed.

End CollectorFacts.

(** * Specified properties of the two functions *)

Import Js Sql Store Aggregator Spec Run Stored Examples.
Import SqlFacts AggregatorFacts CollectorFacts.

(** The row written for a city carries the statistics of its observations. *)
Lemma summary_of_summarizes (rank : list (string * Z) -> list (string * Z))
    (day : Z) (d : database) (c : string) :
  observations d day c <> [] ->
  summarizes (summary_of rank day d c) day c (observations d day c).
Proof.
  intros Hne. unfold summarizes, summary_of.
  cbn [summary_city summary_date avg_temp min_temp max_temp avg_feels_like
       avg_pressure avg_humidity record_count].
  repeat split.
  - apply ROUND_AVG. now apply map_nonempty.
  - apply MIN_Q. now apply map_nonempty.
  - apply MAX_Q. now apply map_nonempty.
  - apply ROUND_AVG. now apply map_nonempty.
  - apply ROUND_AVG. now apply map_nonempty.
  - apply ROUND_AVG. now apply map_nonempty.
Qed.




(** The two rows written for the sample store: Delhi has readings 20.10,
    22.25 and 21.00 (mean 21.1166.., written 21.12), Mumbai one reading. *)
Example summaries_of_two_days :
  inserted two_days (db (fst (dailyAggregation rank_stable no_fault now0 two_days)))
  = [ mkSummaryRow "Delhi" day0
        (Some (2112 # 100)%Q) (Some (2010 # 100)%Q) (Some (2225 # 100)%Q)
        (Some "Clear"%string)
        (Some (2212 # 100)%Q) (Some (101133 # 100)%Q) (Some (4233 # 100)%Q) 3;
      mkSummaryRow "Mumbai" day0
        (Some (3000 # 100)%Q) (Some (3000 # 100)%Q) (Some (3000 # 100)%Q)
        (Some "Rain"%string)
        (Some (3100 # 100)%Q) (Some (100800 # 100)%Q) (Some (8000 # 100)%Q) 1 ].
Proof. vm_compute. reflexivity. Qed.

(** After a purge the identity value is one less than the least id left, or
    -1 when nothing is left: the next generated id is the least id left, or
    0. *)
Lemma purged_next_id (day : Z) (d : database) :
  next_id (purged day d)
  = ISNULL (MIN Z.leb (map id (weather_data (purged day d)))) 0.
Proof.
  unfold purged, resetIdentityQuery, next_id, DBCC_CHECKIDENT_RESEED.
  cbn [fst identity weather_data]. lia.
Qed.

(** When rows are left, the next generated id is the id of one of them. *)
Lemma purged_next_id_taken (day : Z) (d : database) :
  weather_data (purged day d) <> [] ->
  In (next_id (purged day d)) (map id (weather_data (purged day d))) /\
  next_id (purged day d) < expected_next_id (purged day d).
Proof.
  intros Hne. rewrite purged_next_id. unfold expected_next_id, max_id.
  set (ids := map id (weather_data (purged day d))).
  assert (Hids : ids <> []) by (now apply map_nonempty).
  destruct (MIN_Z ids Hids) as [m [Em [Hin Hle]]].
  destruct (MAX_Z ids Hids) as [M [EM [HinM HleM]]].
  rewrite Em, EM. simpl. split; [assumption|].
  specialize (HleM m Hin). lia.
Qed.

(** C2. After a purge that deleted the rows of the target date, the
    identity of weather_data has been reset to one less than the LEAST id
    left (to -1 on an empty table): the next generated id is the least id
    left, the id of a row still in the table, or 0 on an empty table.  It is
    never the specified one, one more than the greatest id left or 1 on an
    empty table. *)
Theorem C2_next_id_after_purge
    (rank : list (string * Z) -> list (string * Z)) (now : Z) (d : database) :
  observations_on d (yesterdayIST now) <> [] ->
  let after := db (fst (dailyAggregation rank no_fault now d)) in
  next_id after = ISNULL (MIN Z.leb (map id (weather_data after))) 0 /\
  next_id after < expected_next_id after /\
  (weather_data after <> [] -> In (next_id after) (map id (weather_data after))).
Proof.
  intros Hdata after. unfold after. rewrite run_with_data by assumption.
  cbn [fst db world_done].
  set (rest := purged (yesterdayIST now) (summarized rank (yesterdayIST now) d)).
  split; [apply purged_next_id|]. split.
  - destruct (weather_data rest) as [|r l] eqn:E.
    + unfold rest in *. rewrite purged_next_id, E.
      unfold expected_next_id, max_id. rewrite E. simpl. lia.
    + apply purged_next_id_taken. unfold rest in E. rewrite E. discriminate.
  - intros Hne. now apply purged_next_id_taken.
Qed.

Lemma C2_witness :
  observations_on two_days (yesterdayIST now0) <> [] /\
  observations_on one_day (yesterdayIST now0) <> [] /\
  (let after := db (fst (dailyAggregation rank_stable no_fault now0 two_days)) in
   map id (weather_data after) = [5; 6] /\
   next_id after = 5 /\ expected_next_id after = 7) /\
  (let after := db (fst (dailyAggregation rank_stable no_fault now0 one_day)) in
   weather_data after = [] /\
   next_id after = 0 /\ expected_next_id after = 1).
Proof.
  split; [vm_compute; discriminate|]. split; [vm_compute; discriminate|].
  destruct (C2_next_id_after_purge rank_stable now0 two_days) as [H1 _];
    [vm_compute; discriminate|].
  destruct (C2_next_id_after_purge rank_stable now0 one_day) as [H2 _];
    [vm_compute; discriminate|].
  cbv zeta in *. rewrite H1, H2. vm_compute. repeat split; reflexivity.
Defined.

(** C3. For every city with observations on the target date and whatever
    order the server gives to labels of equal count, the dominant_weather of
    the inserted summary is a label of those observations that occurs at
    least as often as every other label; with counts A:3, B:5, C:2 and no
    other label it is "B". *)
Theorem C3_dominant_weather_most_frequent
    (rank : list (string * Z) -> list (string * Z))
    (now : Z) (d : database) (c : string) :
  orders_by_count_desc rank ->
  observations d (yesterdayIST now) c <> [] ->
  exists s l,
    inserted_for c d (db (fst (dailyAggregation rank no_fault now d))) = [s] /\
    dominant_weather s = Some l /\
    most_frequent l (observations d (yesterdayIST now) c) /\
    (label_count "A" (observations d (yesterdayIST now) c) = 3 ->
     label_count "B" (observations d (yesterdayIST now) c) = 5 ->
     label_count "C" (observations d (yesterdayIST now) c) = 2 ->
     (forall l', l' <> "A"%string -> l' <> "B"%string -> l' <> "C"%string ->
        label_count l' (observations d (yesterdayIST now) c) = 0) ->
     l = "B"%string).
Proof.
  intros Hrank Hne.
  rewrite run_with_data by (now apply observations_sub with (c := c)).
  set (day := yesterdayIST now) in *. set (obs := observations d day c) in *.
  destruct (first_label_is_most_frequent rank obs Hrank Hne) as [l [Hl [Hin Hmax]]].
  exists (summary_of rank day d c), l.
  split; [now apply inserted_for_city|].
  split; [now rewrite dominant_weather_rank|].
  split; [now split|].
  intros HA HB HC Hother.
  pose proof (Hmax "B"%string) as HmB. rewrite HB in HmB.
  destruct (string_dec l "B") as [E|NB]; [assumption|].
  destruct (string_dec l "A") as [E|NA]; [subst l; lia|].
  destruct (string_dec l "C") as [E|NC]; [subst l; lia|].
  rewrite (Hother l NA NB NC) in HmB. lia.
Qed.

Lemma C3_witness :
  orders_by_count_desc rank_stable /\
  observations labelled (yesterdayIST now0) "Delhi" <> [] /\
  exists s,
    inserted_for "Delhi" labelled
      (db (fst (dailyAggregation rank_stable no_fault now0 labelled))) = [s] /\
    dominant_weather s = Some "B"%string.
Proof.
  split; [exact rank_stable_orders|].
  split; [vm_compute; discriminate|].
  destruct (C3_dominant_weather_most_frequent rank_stable now0 labelled "Delhi"
              rank_stable_orders)
    as [s [l [H1 [H2 [_ H4]]]]]; [vm_compute; discriminate|].
  exists s. split; [exact H1|]. rewrite H2. f_equal.
  apply H4; try reflexivity.
  intros l' NA NB NC. apply label_count_absent.
  vm_compute. intuition congruence.
Defined.

(** On a tie the label depends on the order the server happens to give. *)
Lemma tie_follows_the_ranking :
  map dominant_weather
      (inserted tied (db (fst (dailyAggregation rank_stable no_fault now0 tied))))
    = [Some "Haze"%string] /\
  map dominant_weather
      (inserted tied (db (fst (dailyAggregation rank_reversed no_fault now0 tied))))
    = [Some "Mist"%string].
Proof. split; vm_compute; reflexivity. Qed.

(** C4. After an invocation of the Aggregator that returns (whichever calls
    the server would have rejected), no observation of the target date is
    left in weather_data, and every city that had observations on that date
    has had them summarized by this invocation. *)
Theorem C4_purge_complete
    (rank : list (string * Z) -> list (string * Z)) (fault : step -> option exn)
    (now : Z) (d : database) (w' : world) :
  dailyAggregation rank fault now d = (w', Normal tt) ->
  observations_on (db w') (yesterdayIST now) = [] /\
  forall c, observations (db w') (yesterdayIST now) c = [] /\
    (observations d (yesterdayIST now) c <> [] ->
     exists s, inserted_for c d (db w') = [s] /\
               summarizes s (yesterdayIST now) c
                          (observations d (yesterdayIST now) c)).
Proof.
  intros H. apply handler_normal in H.
  set (day := yesterdayIST now) in *.
  assert (Hcity : forall d0 c, observations_on d0 day = [] -> observations d0 day c = []).
  { intros d0 c Hnil. destruct (observations d0 day c) as [|r l] eqn:E; [reflexivity|].
    exfalso. apply (observations_sub d0 day c); [rewrite E; discriminate | exact Hnil]. }
  destruct H as [[Hnil Hdb]|[Hdata Hdb]]; rewrite Hdb.
  - split; [exact Hnil|]. intros c. split; [now apply Hcity|].
    intros Hne. exfalso. now apply (observations_sub d day c).
  - split; [apply purged_nothing_left|]. intros c.
    split; [apply Hcity, purged_nothing_left|].
    intros Hne. exists (summary_of rank day d c). split.
    + now apply inserted_for_city.
    + now apply summary_of_summarizes.
Qed.

Lemma C4_witness :
  dailyAggregation rank_stable no_fault now0 two_days
    = (world_done rank_stable day0 two_days, Normal tt) /\
  observations_on (db (world_done rank_stable day0 two_days)) (yesterdayIST now0) = [].
Proof.
  assert (H : dailyAggregation rank_stable no_fault now0 two_days
              = (world_done rank_stable day0 two_days, Normal tt))
    by (vm_compute; reflexivity).
  split; [exact H|].
  exact (proj1 (C4_purge_complete rank_stable no_fault now0 two_days _ H)).
Defined.

(** C5. When the count, the delete or the identity reseed of the purge is
    rejected and the rollback that follows is accepted, the transaction is
    rolled back and never committed: the block of the transaction throws
    the very exception of the rejected call again, weather_data and its
    identity value are as they were before the invocation, and the summary
    rows inserted before the transaction are still in daily_weather_summary.
    The invocation ends with that exception, unless closing the pool is
    then rejected, in which case it ends with the exception of the close.
    The other calls may be accepted or rejected in any way that lets the
    invocation reach the rejected call. *)
Theorem C5_purge_failure_rolls_back
    (rank : list (string * Z) -> list (string * Z)) (fault : step -> option exn)
    (now : Z) (d : database) (s : step) (e : exn) :
  observations_on d (yesterdayIST now) <> [] ->
  fault Connect = None ->
  fault InitialDataQuery = None ->
  fault CheckDataQuery = None ->
  (forall c, In c (cities_on d (yesterdayIST now)) ->
             fault (AggregationQuery c) = None) ->
  fault VerifyQuery = None ->
  fault Begin = None ->
  In s [CountQuery; DeleteQuery; ResetIdentityQuery] ->
  (forall s', In s' (purge_calls_before s) -> fault s' = None) ->
  fault s = Some e ->
  fault Rollback = None ->
  let res := dailyAggregation rank fault now d in
  snd (purge fault (yesterdayIST now) (world_at_begin rank (yesterdayIST now) d))
    = Throw e /\
  snd res = Throw (match fault Close with Some e' => e' | None => e end) /\
  In Rollback (issued (fst res)) /\
  ~ In Commit (issued (fst res)) /\
  transaction (fst res) = None /\
  weather_data (db (fst res)) = weather_data d /\
  identity (db (fst res)) = identity d /\
  daily_weather_summary (db (fst res))
    = daily_weather_summary (db (fst (dailyAggregation rank no_fault now d))) /\
  inserted d (db (fst res))
    = map (summary_of rank (yesterdayIST now) d) (cities_on d (yesterdayIST now)).
Proof.
  intros Hdata Fc Fi Fk Fa Fv Fb Hs Hbefore He Hr res.
  set (day := yesterdayIST now) in *.
  assert (Hno : daily_weather_summary
                  (db (fst (dailyAggregation rank no_fault now d)))
                = daily_weather_summary (summarized rank day d)).
  { unfold day. now rewrite run_with_data. }
  assert (Hnotin : ~ In Commit (s :: rev (purge_calls_before s)
                                  ++ issued_at_begin d day)).
  { intros [H|H].
    - subst s. destruct Hs as [H|[H|[H|[]]]]; discriminate.
    - rewrite in_app_iff, <- in_rev in H. destruct H as [H|H].
      + destruct Hs as [<-|[<-|[<-|[]]]]; simpl in H; intuition discriminate.
      + unfold issued_at_begin in H. simpl in H.
        rewrite in_app_iff, <- in_rev, in_map_iff in H.
        destruct H as [H|[H|[[c [H _]]|[H|[H|[H|[]]]]]]]; discriminate. }
  assert (Hins : inserted d (summarized rank day d)
                 = map (summary_of rank day d) (cities_on d day)).
  { unfold inserted. simpl. apply skipn_app_exact. }
  assert (Hpurge : purge fault day (world_at_begin rank day d)
                   = ({| db := summarized rank day d; transaction := None;
                         pool := true;
                         issued := Rollback :: s :: rev (purge_calls_before s)
                                   ++ issued_at_begin d day |}, Throw e)).
  { now apply purge_call_rejected. }
  split; [now rewrite Hpurge|].
  unfold res. rewrite Hno.
  rewrite (handler_at_purge rank fault now d Fc Fi Fk Fa Fv Fb Hdata).
  fold day. rewrite Hpurge. unfold finish, close_pool.
  cbn [fst snd pool note issued db transaction].
  destruct (fault Close) as [e'|];
    cbn [fst snd pool note issued db transaction summarized weather_data
         identity daily_weather_summary];
    (split; [reflexivity|]);
    (split; [simpl; tauto|]);
    (split; [intros [H|[H|H]]; try discriminate; now apply Hnotin|]);
    repeat split; auto.
Qed.

Lemma C5_witness :
  observations_on two_days (yesterdayIST now0) <> [] /\
  In DeleteQuery [CountQuery; DeleteQuery; ResetIdentityQuery] /\
  fail_at DeleteQuery (RequestError "deadlock") Rollback = None /\
  snd (dailyAggregation rank_stable (fail_at DeleteQuery (RequestError "deadlock"))
         now0 two_days) = Throw (RequestError "deadlock") /\
  weather_data
    (db (fst (dailyAggregation rank_stable
                (fail_at DeleteQuery (RequestError "deadlock")) now0 two_days)))
    = weather_data two_days.
Proof.
  split; [vm_compute; discriminate|].
  split; [simpl; tauto|].
  split; [reflexivity|].
  destruct (C5_purge_failure_rolls_back rank_stable
              (fail_at DeleteQuery (RequestError "deadlock")) now0 two_days
              DeleteQuery (RequestError "deadlock"))
    as [_ [H1 [_ [_ [_ [H5 _]]]]]].
  - vm_compute; discriminate.
  - reflexivity.
  - reflexivity.
  - reflexivity.
  - intros c _. reflexivity.
  - reflexivity.
  - reflexivity.
  - simpl; tauto.
  - intros s' [<-|[]]. reflexivity.
  - reflexivity.
  - reflexivity.
  - split; [exact H1 | exact H5].
Defined.

(** C5 as worded in the specification fails: the DELETE of the purge is
    rejected and so is the rollback that the catch block attempts; the
    exception thrown by the block of the transaction, and by the invocation,
    is the one of the rollback, not the one of the DELETE. *)
Lemma C5_counterexample :
  let res := dailyAggregation rank_stable deadlock_then_abort now0 two_days in
  deadlock_then_abort DeleteQuery = Some (RequestError "deadlock") /\
  deadlock_then_abort Rollback = Some (TransactionError "EABORT") /\
  issued (fst res)
  = Close :: Rollback :: DeleteQuery :: CountQuery :: issued_at_begin two_days day0 /\
  snd (purge deadlock_then_abort day0 (world_at_begin rank_stable day0 two_days))
  = Throw (TransactionError "EABORT") /\
  snd res = Throw (TransactionError "EABORT") /\
  snd res <> Throw (RequestError "deadlock").
Proof.
  cbv zeta. split; [reflexivity|]. split; [reflexivity|].
  split; [vm_compute; reflexivity|]. split; [vm_compute; reflexivity|].
  split; [vm_compute; reflexivity|]. vm_compute; discriminate.
Qed.

(** C6. With no observation for the target date, an invocation in which no
    call is rejected returns normally having issued only the connection, the
    two read queries and the close, and leaves the store as it was; whichever
    calls are rejected, it inserts no summary and issues no DELETE.  Hence a
    second invocation for the same target date, run on the store the first
    one left, changes nothing either. *)
Theorem C6_no_data_is_a_no_op
    (rank : list (string * Z) -> list (string * Z)) (now now' : Z) (d : database) :
  let first := dailyAggregation rank no_fault now d in
  let second := dailyAggregation rank no_fault now' (db (fst first)) in
  (observations_on d (yesterdayIST now) = [] ->
   snd first = Normal tt /\
   db (fst first) = d /\
   issued (fst first) = [Close; CheckDataQuery; InitialDataQuery; Connect] /\
   forall fault,
     db (fst (dailyAggregation rank fault now d)) = d /\
     ~ In DeleteQuery (issued (fst (dailyAggregation rank fault now d))) /\
     forall c,
       ~ In (AggregationQuery c) (issued (fst (dailyAggregation rank fault now d)))) /\
  (yesterdayIST now' = yesterdayIST now ->
   snd first = Normal tt /\
   snd second = Normal tt /\
   db (fst second) = db (fst first) /\
   issued (fst second) = [Close; CheckDataQuery; InitialDataQuery; Connect]).
Proof.
  intros first second. split.
  - intros Hnil. unfold first. rewrite run_without_data by assumption.
    repeat split; try reflexivity;
      now apply (handler_no_data_any_fault rank fault now d Hnil).
  - intros Hsame.
    assert (Hleft : observations_on (db (fst first)) (yesterdayIST now') = []
                    /\ snd first = Normal tt).
    { unfold first. rewrite Hsame.
      destruct (observations_on d (yesterdayIST now)) as [|r l] eqn:E.
      - rewrite run_without_data by assumption. now split.
      - rewrite run_with_data by (rewrite E; discriminate).
        split; [apply purged_nothing_left | reflexivity]. }
    destruct Hleft as [Hleft Hfirst]. unfold second.
    rewrite run_without_data by assumption. now repeat split.
Qed.

Lemma C6_witness :
  observations_on empty_store (yesterdayIST now0) = [] /\
  yesterdayIST (now0 + 1000) = yesterdayIST now0 /\
  db (fst (dailyAggregation rank_stable no_fault now0 empty_store)) = empty_store /\
  db (fst (dailyAggregation rank_stable no_fault (now0 + 1000)
             (db (fst (dailyAggregation rank_stable no_fault now0 two_days)))))
    = db (fst (dailyAggregation rank_stable no_fault now0 two_days)).
Proof.
  split; [reflexivity|]. split; [reflexivity|]. split.
  - apply (proj1 (C6_no_data_is_a_no_op rank_stable now0 now0 empty_store)).
    reflexivity.
  - apply (proj2 (C6_no_data_is_a_no_op rank_stable now0 (now0 + 1000) two_days)).
    reflexivity.
Defined.

(** [value | 0] keeps the integer part: the result lies between zero and the
    value, less than one away from it. *)
Lemma truncate_toward_zero (q : Q) :
  (Qle 0 q -> Qle (inject_Z (Collector.truncate q)) q /\
              Qlt q (inject_Z (Collector.truncate q + 1))) /\
  (Qle q 0 -> Qle q (inject_Z (Collector.truncate q)) /\
              Qlt (inject_Z (Collector.truncate q - 1)) q).
Proof.
  destruct q as [a b]. unfold Collector.truncate, Qle, Qlt. simpl.
  pose proof (Z.quot_rem' a (Z.pos b)) as Hqr.
  pose proof (Pos2Z.is_pos b) as Hb.
  split; intros Ha; rewrite Z.mul_1_r in Ha.
  - pose proof (Z.rem_bound_pos a (Z.pos b) Ha Hb) as Hr. split; nia.
  - assert (Hr : - Z.pos b < Z.rem a (Z.pos b) <= 0).
    { pose proof (Z.rem_bound_pos (- a) (Z.pos b) ltac:(lia) Hb) as H.
      rewrite Z.rem_opp_l in H by lia. lia. }
    split; nia.
Qed.

Lemma total_inject_Z {A : Type} (f : A -> Z) (l : list A) :
  Qeq (total (map (fun r => inject_Z (f r)) l)) (inject_Z (sum_Z (map f l))).
Proof.
  induction l as [|a l IH]; simpl; [reflexivity|].
  unfold total in IH. rewrite IH. now rewrite inject_Z_plus.
Qed.

Lemma inject_Z_istOffset :
  Qeq (inject_Z istOffset) ((55 # 10) * 60 * 60 * 1000)%Q.
Proof. reflexivity. Qed.

(** C7. Every row an invocation of the Collector adds carries, as an
    offset-aware date-time with offset zero, the reading of the Collector's
    own clock taken when the city's response was turned into an observation,
    shifted by exactly 5.5 hours (19 800 000 ms). *)
Theorem C7_stored_timestamp
    (apiKey : option string) (http : Collector.City -> Api.outcome)
    (clock : Collector.City -> Z) (insert_fault : string -> option exn)
    (d : database) :
  let res := Collector.weatherTrigger apiKey http clock insert_fault d in
  Qeq (inject_Z istOffset) ((55 # 10) * 60 * 60 * 1000)%Q /\
  exists rows,
    weather_data (fst res) = weather_data d ++ rows /\
    forall r, In r rows ->
      exists c, In c Collector.cities /\
                city r = Collector.name c /\
                timestamp r = mkDateTimeOffset (clock c + istOffset) 0 /\
                local_ms (timestamp r) = clock c + istOffset.
Proof.
  intros res. split; [exact inject_Z_istOffset|].
  destruct (weatherTrigger_rows apiKey http clock insert_fault d)
    as [rows [Hw Hfrom]].
  exists rows. split; [exact Hw|].
  intros r Hr. destruct (Hfrom r Hr) as [c [p [Hc [Hf Hrow]]]].
  destruct (fetchWeatherData_some http clock c p Hf)
    as [data [m [conds [_ [_ [_ [Hcity [_ [_ [_ [_ Hts]]]]]]]]]]].
  destruct Hrow as [Rc [_ [_ [_ [_ [_ Rt]]]]]].
  exists c. split; [exact Hc|]. split; [congruence|].
  rewrite Rt, Hts. split; [reflexivity|]. unfold local_ms. simpl. lia.
Qed.

(** C7 as worded in the specification fails: the API reports 2023-11-14T22:03:20Z for
    its reading, the response is processed at 22:13:20Z, and the stored
    instant is the latter plus 5.5 hours. *)
Lemma C7_counterexample :
  let res := Collector.weatherTrigger key (fun _ => Api.Resolved (Some complete))
               clock0 accept_all empty_store in
  exists r, In r (weather_data (fst res)) /\
            city r = "Delhi"%string /\
            utc_ms (timestamp r) = now0 + istOffset /\
            utc_ms (timestamp r) <> api_instant_ms complete + istOffset.
Proof.
  eexists. split; [left; reflexivity|].
  split; [reflexivity|]. split; [reflexivity|]. vm_compute. discriminate.
Qed.

(** The fetches that yield nothing: the request was rejected, or the
    response has no body, no [main] or no [weather] array.  Nothing else
    does. *)
Lemma fetchWeatherData_failures (http : Collector.City -> Api.outcome)
    (clock : Collector.City -> Z) (c : Collector.City) :
  Collector.fetchWeatherData http clock c = None <->
  ((exists message, http c = Api.Rejected message) \/
   http c = Api.Resolved None \/
   (exists data, http c = Api.Resolved (Some data) /\
                 (Api.main data = None \/ Api.weather data = None))).
Proof.
  unfold Collector.fetchWeatherData, Collector.fetchWeatherData_try.
  destruct (http c) as [msg|[data|]].
  - split; [intros _; left; now exists msg | reflexivity].
  - destruct (Api.main data) as [m|] eqn:Em.
    + destruct (Api.weather data) as [conds|] eqn:Ew.
      * split; [discriminate|].
        intros [[msg H]|[H|[data' [H [Hm|Hw]]]]]; try discriminate;
          injection H as <-; congruence.
      * split; [|reflexivity]. intros _. right. right. exists data. auto.
    + split; [|reflexivity]. intros _. right. right. exists data. auto.
  - split; [intros _; right; now left | reflexivity].
Qed.

(** A response whose [main] lacks a reading is turned into an observation
    all the same, and that observation is one the server does not accept. *)
Lemma fetchWeatherData_missing_reading (http : Collector.City -> Api.outcome)
    (clock : Collector.City -> Z) (insert_fault : string -> option exn)
    (c : Collector.City) (data : Api.Data) (m : Api.Main)
    (conditions : list (option Api.Condition)) :
  http c = Api.Resolved (Some data) ->
  Api.main data = Some m ->
  Api.weather data = Some conditions ->
  Api.temp m = None \/ Api.feels_like m = None \/
  Api.pressure m = None \/ Api.humidity m = None ->
  exists p, Collector.fetchWeatherData http clock c = Some p /\
            Collector.temperature p = Api.temp m /\
            Collector.feels_like p = Api.feels_like m /\
            Collector.pressure p = Api.pressure m /\
            Collector.humidity p = Api.humidity m /\
            ~ accepted insert_fault p.
Proof.
  intros Hh Hm Hw Hmiss.
  unfold Collector.fetchWeatherData, Collector.fetchWeatherData_try.
  rewrite Hh, Hm, Hw. eexists. split; [reflexivity|].
  cbn [Collector.temperature Collector.feels_like Collector.pressure
       Collector.humidity].
  repeat (split; [reflexivity|]).
  intros [_ [_ [t [f [pr [hu [H1 [H2 [H3 H4]]]]]]]]].
  cbn [Collector.temperature Collector.feels_like Collector.pressure
       Collector.humidity] in H1, H2, H3, H4.
  destruct Hmiss as [H|[H|[H|H]]]; congruence.
Qed.

(** C8. In an invocation of the Collector with an API key configured, the
    fetches that yield no observation are exactly those whose request was
    rejected (timeout, status outside 2xx) or whose response has no body,
    no [main] or no [weather] array; they stop nothing.  A response whose
    [main] lacks a reading is not among them: it yields an observation
    with that reading missing, whose insert is not accepted (the columns
    do not allow NULL), so the invocation throws.  The
    observation of every fetched city whose insert is accepted is stored,
    nothing is stored for the others, the invocation returns normally when
    every insert of a fetched observation is accepted, and it throws
    exactly when one of those inserts is not. *)
Theorem C8_failed_fetches_are_dropped
    (apiKey : option string) (http : Collector.City -> Api.outcome)
    (clock : Collector.City -> Z) (insert_fault : string -> option exn)
    (d : database) :
  Collector.apiKey_missing apiKey = false ->
  let fetched c := Collector.fetchWeatherData http clock c in
  let res := Collector.weatherTrigger apiKey http clock insert_fault d in
  (forall c,
     fetched c = None <->
     ((exists message, http c = Api.Rejected message) \/
      http c = Api.Resolved None \/
      (exists data, http c = Api.Resolved (Some data) /\
                    (Api.main data = None \/ Api.weather data = None)))) /\
  (forall c data m conditions,
     In c Collector.cities ->
     http c = Api.Resolved (Some data) ->
     Api.main data = Some m ->
     Api.weather data = Some conditions ->
     Api.temp m = None \/ Api.feels_like m = None \/
     Api.pressure m = None \/ Api.humidity m = None ->
     (exists p, fetched c = Some p /\
                Collector.temperature p = Api.temp m /\
                Collector.feels_like p = Api.feels_like m /\
                Collector.pressure p = Api.pressure m /\
                Collector.humidity p = Api.humidity m /\
                ~ accepted insert_fault p) /\
     exists e, snd res = Throw e) /\
  exists rows,
    weather_data (fst res) = weather_data d ++ rows /\
    (forall c p, In c Collector.cities -> fetched c = Some p ->
       accepted insert_fault p -> exists r, In r rows /\ row_of p r) /\
    (forall r, In r rows ->
       exists c p, In c Collector.cities /\ fetched c = Some p /\
                   accepted insert_fault p /\ row_of p r) /\
    ((forall c p, In c Collector.cities -> fetched c = Some p ->
        accepted insert_fault p) -> snd res = Normal tt) /\
    (forall e, snd res = Throw e ->
       exists c p, In c Collector.cities /\ fetched c = Some p /\
                   ~ accepted insert_fault p) /\
    (forall c p, In c Collector.cities -> fetched c = Some p ->
       ~ accepted insert_fault p -> exists e, snd res = Throw e).
Proof.
  intros K fetched res. split; [apply fetchWeatherData_failures|]. split.
  - intros c data m conditions Hc Hh Hm Hw Hmiss.
    destruct (fetchWeatherData_missing_reading http clock insert_fault c data m
                conditions Hh Hm Hw Hmiss) as [p [Hf [Ht [Hl [Hp [Hu Hn]]]]]].
    split; [exists p; repeat split; assumption|].
    now apply (weatherTrigger_throws apiKey http clock insert_fault d c p).
  - destruct (weatherTrigger_spec apiKey http clock insert_fault d K)
      as [rows [Hw [Hfrom [Hto [Hok Herr]]]]].
    exists rows. split; [exact Hw|]. split; [exact Hto|].
    split; [exact Hfrom|]. split; [exact Hok|]. split; [exact Herr|].
    intros c p Hc Hf Hn.
    now apply (weatherTrigger_throws apiKey http clock insert_fault d c p).
Qed.

Lemma C8_witness :
  Collector.apiKey_missing key = false /\
  map (fun c => Collector.name c)
      (filter (fun c => match Collector.fetchWeatherData http_two_down clock0 c with
                        | None => true | Some _ => false end) Collector.cities)
    = ["Mumbai"; "Chennai"]%string /\
  map city (weather_data (fst (Collector.weatherTrigger key http_two_down clock0
                                 accept_all empty_store)))
    = ["Delhi"; "Bangalore"; "Kolkata"; "Hyderabad"]%string /\
  snd (Collector.weatherTrigger key http_two_down clock0 accept_all empty_store)
    = Normal tt.
Proof.
  split; [reflexivity|]. split; [reflexivity|]. split; [reflexivity|].
  destruct (C8_failed_fetches_are_dropped key http_two_down clock0 accept_all
              empty_store eq_refl) as [_ [_ [rows [_ [_ [_ [Hok _]]]]]]].
  apply Hok. intros c p _ Hf. split; [reflexivity|].
  destruct (fetchWeatherData_some _ _ _ _ Hf)
    as [data [m [conds [Hh [Hm [_ [_ [Ht [Hfl [Hp [Hu _]]]]]]]]]]].
  assert (Hr : m = reading).
  { unfold http_two_down in Hh.
    destruct (String.eqb (Collector.name c) "Mumbai"); [discriminate|].
    destruct (String.eqb (Collector.name c) "Chennai");
      injection Hh as <-; simpl in Hm; congruence. }
  subst m. split.
  - exists (Some 1013), (Some 64). rewrite Hp, Hu. split; reflexivity.
  - eexists _, _, _, _. rewrite Ht, Hfl, Hp, Hu. repeat split; reflexivity.
Defined.

(** C8 as worded in the specification fails, in two ways.  Two fetches
    fail, four succeed, the server rejects the insert for Delhi: the
    invocation throws.  And a payload that is malformed in that the [main]
    of Delhi has no [temp] is not dropped: it becomes an observation without
    temperature, its insert is rejected, and the invocation throws although
    five fetches succeeded. *)
Lemma C8_counterexample :
  let delhi := Collector.mkCity "Delhi" (287041 # 10000) (771025 # 10000) in
  (let res := Collector.weatherTrigger key http_two_down clock0 reject_delhi
                empty_store in
   Collector.fetchWeatherData http_two_down clock0
     (Collector.mkCity "Mumbai" (190760 # 10000) (728777 # 10000)) = None /\
   Collector.fetchWeatherData http_two_down clock0 delhi <> None /\
   map city (weather_data (fst res)) = ["Bangalore"; "Kolkata"; "Hyderabad"]%string /\
   snd res = Throw (RequestError "Connection lost")) /\
  (let res := Collector.weatherTrigger key http_delhi_no_temp clock0 accept_all
                empty_store in
   http_delhi_no_temp delhi = Api.Resolved (Some no_temp) /\
   Api.main no_temp = Some reading_without_temp /\
   Api.temp reading_without_temp = None /\
   Collector.fetchWeatherData http_delhi_no_temp clock0 delhi
   = Some (Collector.mkParams "Delhi" None (Some (3012 # 100)) (Some (10135 # 10))
             (Some (647 # 10)) "Haze" now0) /\
   map city (weather_data (fst res))
   = ["Mumbai"; "Chennai"; "Bangalore"; "Kolkata"; "Hyderabad"]%string /\
   snd res = Throw (RequestError "Cannot insert the value NULL into column")).
Proof.
  cbv zeta. split.
  - split; [reflexivity|]. split; [discriminate|]. split; reflexivity.
  - repeat split; reflexivity.
Qed.

(** C9. A response that has [main] but no [weather] property is not
    turned into an observation labelled 'Unknown': indexing the missing
    array throws a TypeError inside the [try] of [fetchWeatherData], which
    is caught and answered with [null], so the city is dropped and no row is
    stored for it.  (With an empty [weather] array the observation is kept
    and labelled 'Unknown'.) *)
Theorem C9_absent_weather_array_is_dropped
    (apiKey : option string) (http : Collector.City -> Api.outcome)
    (clock : Collector.City -> Z) (insert_fault : string -> option exn)
    (d : database) (c : Collector.City) (data : Api.Data) (m : Api.Main) :
  In c Collector.cities ->
  http c = Api.Resolved (Some data) ->
  Api.main data = Some m ->
  Api.weather data = None ->
  Collector.fetchWeatherData_try http clock c
    = Throw (TypeError "Cannot read properties of undefined (reading '0')") /\
  Collector.fetchWeatherData http clock c = None /\
  exists rows,
    weather_data (fst (Collector.weatherTrigger apiKey http clock insert_fault d))
      = weather_data d ++ rows /\
    forall r, In r rows -> city r <> Collector.name c.
Proof.
  intros Hc Hh Hm Hw.
  assert (Hnone : Collector.fetchWeatherData http clock c = None)
    by (now apply fetchWeatherData_absent_weather with (data := data) (m := m)).
  split; [|split; [exact Hnone|]].
  - unfold Collector.fetchWeatherData_try. now rewrite Hh, Hm, Hw.
  - destruct (weatherTrigger_rows apiKey http clock insert_fault d)
      as [rows [Hrows Hfrom]].
    exists rows. split; [exact Hrows|].
    intros r Hr E. destruct (Hfrom r Hr) as [c' [p [Hc' [Hf Hrow]]]].
    destruct (fetchWeatherData_some http clock c' p Hf)
      as [_ [_ [_ [_ [_ [_ [Hcity _]]]]]]].
    destruct Hrow as [Rc _].
    assert (c' = c) by (apply cities_name_inj; congruence).
    subst c'. congruence.
Qed.

Lemma C9_witness :
  let delhi := Collector.mkCity "Delhi"%string (287041 # 10000) (771025 # 10000) in
  let bare := Collector.weatherTrigger key http_delhi_bare clock0 accept_all
                empty_store in
  let empty := Collector.weatherTrigger key http_delhi_empty clock0 accept_all
                 empty_store in
  In delhi Collector.cities /\
  http_delhi_bare delhi = Api.Resolved (Some no_weather_property) /\
  Api.main no_weather_property = Some reading /\
  Api.weather no_weather_property = None /\
  Collector.fetchWeatherData http_delhi_bare clock0 delhi = None /\
  map (fun r => (city r, weather r)) (weather_data (fst bare))
    = [("Mumbai", "Haze"); ("Chennai", "Haze"); ("Bangalore", "Haze");
       ("Kolkata", "Haze"); ("Hyderabad", "Haze")]%string /\
  snd bare = Normal tt /\
  map (fun r => (city r, weather r)) (weather_data (fst empty))
    = [("Delhi", "Unknown"); ("Mumbai", "Haze"); ("Chennai", "Haze");
       ("Bangalore", "Haze"); ("Kolkata", "Haze"); ("Hyderabad", "Haze")]%string.
Proof.
  cbv zeta.
  assert (Hin : In (Collector.mkCity "Delhi"%string (287041 # 10000) (771025 # 10000))
                   Collector.cities) by (left; reflexivity).
  split; [exact Hin|]. split; [reflexivity|]. split; [reflexivity|].
  split; [reflexivity|]. split.
  - exact (proj1 (proj2 (C9_absent_weather_array_is_dropped key http_delhi_bare
                           clock0 accept_all empty_store _ no_weather_property
                           reading Hin eq_refl eq_refl eq_refl))).
  - repeat split; reflexivity.
Defined.

(** C10. An insert of the Collector that succeeds stores pressure and
    humidity as the integer parts of the fetched values (so whole numbers,
    any fraction lost) and temperature and feels-like as fetched; and the
    avg_pressure and avg_humidity the Aggregator writes are the two-place
    roundings of a sum of integers divided by the number of observations. *)
Theorem C10_pressure_and_humidity_are_integers :
  (forall (insert_fault : string -> option exn) (p : Collector.params)
          (d d' : database),
     Collector.insertWeatherData insert_fault p d = (d', Normal tt) ->
     exists r,
       weather_data d' = weather_data d ++ [r] /\
       option_map Collector.truncate (Collector.pressure p) = Some (pressure r) /\
       option_map Collector.truncate (Collector.humidity p) = Some (humidity r) /\
       Collector.temperature p = Some (temperature r) /\
       Collector.feels_like p = Some (feels_like r)) /\
  (forall q : Q,
     (Qle 0 q -> Qle (inject_Z (Collector.truncate q)) q /\
                 Qlt q (inject_Z (Collector.truncate q + 1))) /\
     (Qle q 0 -> Qle q (inject_Z (Collector.truncate q)) /\
                 Qlt (inject_Z (Collector.truncate q - 1)) q)) /\
  (forall (rank : list (string * Z) -> list (string * Z)) (now : Z)
          (d : database) (c : string),
     let obs := observations d (yesterdayIST now) c in
     obs <> [] ->
     exists s,
       inserted_for c d (db (fst (dailyAggregation rank no_fault now d))) = [s] /\
       avg_pressure s
         = Some (round_2dp (Qdiv (inject_Z (sum_Z (map pressure obs)))
                                 (inject_Z (Z.of_nat (length obs))))) /\
       avg_humidity s
         = Some (round_2dp (Qdiv (inject_Z (sum_Z (map humidity obs)))
                                 (inject_Z (Z.of_nat (length obs)))))).
Proof.
  split; [|split].
  - intros insert_fault p d d' H.
    destruct (insertWeatherData_cases insert_fault p d)
      as [[_ [r [Hrow [_ Hins]]]]|[_ [e Hins]]]; rewrite Hins in H.
    + injection H as <-. exists r. split; [reflexivity|].
      unfold row_of in Hrow. tauto.
    + discriminate.
  - exact truncate_toward_zero.
  - intros rank now d c obs Hne.
    rewrite run_with_data by (now apply observations_sub with (c := c)).
    exists (summary_of rank (yesterdayIST now) d c).
    split; [now apply inserted_for_city|].
    destruct (summary_of_summarizes rank (yesterdayIST now) d c Hne)
      as [_ [_ [_ [_ [_ [_ [Hp [Hh _]]]]]]]].
    fold obs in Hp, Hh. rewrite Hp, Hh. unfold arithmetic_mean.
    rewrite !length_map.
    split; f_equal; apply round_2dp_comp; now rewrite total_inject_Z.
Qed.

Lemma C10_witness :
  (exists r,
     weather_data
       (fst (Collector.insertWeatherData accept_all
               (Collector.mkParams "Delhi"%string (Some (2831 # 100))
                  (Some (3012 # 100)) (Some (10135 # 10)) (Some (647 # 10))
                  "Haze"%string now0) empty_store)) = [r] /\
     pressure r = 1013 /\ humidity r = 64 /\
     temperature r = (2831 # 100)%Q) /\
  observations two_days (yesterdayIST now0) "Delhi" <> [] /\
  exists s,
    inserted_for "Delhi" two_days
      (db (fst (dailyAggregation rank_stable no_fault now0 two_days))) = [s] /\
    avg_pressure s = Some (101133 # 100)%Q.
Proof.
  destruct C10_pressure_and_humidity_are_integers as [Hins [_ Hagg]].
  split; [|split].
  - destruct (Hins accept_all
                (Collector.mkParams "Delhi"%string (Some (2831 # 100))
                   (Some (3012 # 100)) (Some (10135 # 10)) (Some (647 # 10))
                   "Haze"%string now0)
                empty_store _ eq_refl) as [r [Hw [Hp [Hh [Ht _]]]]].
    exists r. split; [exact Hw|].
    simpl in Hp, Hh, Ht. injection Hp as <-. injection Hh as <-.
    injection Ht as <-. repeat split.
  - vm_compute; discriminate.
  - destruct (Hagg rank_stable now0 two_days "Delhi"%string) as [s [H1 [H2 _]]].
    + vm_compute; discriminate.
    + exists s. split; [exact H1|]. rewrite H2. reflexivity.
Defined.

(** * Further properties of the two functions *)

Import Timer SqlPool Invariant Accept.

(** ** The Collector *)

Lemma not_null_all_null {A : Type} (f : A -> option Collector.params) (l : list A) :
  (forall x, In x l -> f x = None) -> Collector.not_null (map f l) = [].
Proof.
  induction l as [|a l IH]; intros H; simpl; [reflexivity|].
  rewrite (H a (or_introl eq_refl)). apply IH. intros x Hx. apply H. now right.
Qed.

(** X1. Without an API key (the variable unset, or set to the empty string)
    an invocation of the Collector throws 'OpenWeather API key not
    configured' and leaves the store as it was, whatever the API would
    answer and whatever the server would accept. *)
Theorem X1_missing_api_key_is_fatal
    (apiKey : option string) (http : Collector.City -> Api.outcome)
    (clock : Collector.City -> Z) (insert_fault : string -> option exn)
    (d : database) :
  apiKey = None \/ apiKey = Some EmptyString ->
  Collector.weatherTrigger apiKey http clock insert_fault d
  = (d, Throw (Error "OpenWeather API key not configured")).
Proof. intros [-> | ->]; reflexivity. Qed.

Lemma X1_witness :
  (Some EmptyString = None \/ Some EmptyString = Some EmptyString) /\
  Collector.weatherTrigger (Some EmptyString) http_two_down clock0 accept_all
    empty_store
  = (empty_store, Throw (Error "OpenWeather API key not configured")).
Proof.
  split; [now right|].
  apply (X1_missing_api_key_is_fatal (Some EmptyString) http_two_down
           clock0 accept_all empty_store).
  now right.
Defined.

(** X2. With an API key configured, when the fetch fails for every
    configured city the invocation returns normally and the store is left as
    it was: no insert is made, so nothing the server would reject matters. *)
Theorem X2_no_valid_data_is_not_an_error
    (apiKey : option string) (http : Collector.City -> Api.outcome)
    (clock : Collector.City -> Z) (insert_fault : string -> option exn)
    (d : database) :
  Collector.apiKey_missing apiKey = false ->
  (forall c, In c Collector.cities ->
             Collector.fetchWeatherData http clock c = None) ->
  Collector.weatherTrigger apiKey http clock insert_fault d = (d, Normal tt).
Proof.
  intros K Hnone. unfold Collector.weatherTrigger. rewrite K.
  now rewrite (not_null_all_null _ _ Hnone).
Qed.

Lemma X2_witness :
  Collector.apiKey_missing key = false /\
  Collector.weatherTrigger key (fun _ => Api.Rejected "timeout of 5000ms exceeded")
    clock0 reject_delhi two_days = (two_days, Normal tt).
Proof.
  split; [reflexivity|].
  apply (X2_no_valid_data_is_not_an_error key _ clock0 reject_delhi two_days eq_refl).
  intros c _. reflexivity.
Defined.

Lemma insertWeatherData_acceptedb (insert_fault : string -> option exn)
    (p : Collector.params) (d : database) :
  (acceptedb insert_fault p = true /\
   exists r, city r = Collector.city p /\
     Collector.insertWeatherData insert_fault p d
     = ({| weather_data := weather_data d ++ [r];
           identity := next_id d;
           daily_weather_summary := daily_weather_summary d |}, Normal tt)) \/
  (acceptedb insert_fault p = false /\
   exists e, Collector.insertWeatherData insert_fault p d = (d, Throw e)).
Proof.
  unfold acceptedb, Collector.insertWeatherData.
  destruct p as [c t f pr hu w ts].
  cbn [Collector.city Collector.temperature Collector.feels_like
       Collector.pressure Collector.humidity Collector.weather
       Collector.timestamp].
  destruct (insert_fault c) as [e|].
  { right. split; [reflexivity | now exists e]. }
  destruct (Collector.sql_Int pr) as [pr'|e1].
  2:{ right. split; [reflexivity | now exists e1]. }
  destruct (Collector.sql_Int hu) as [hu'|e2].
  2:{ right. split; [now destruct pr' | now exists e2]. }
  unfold Collector.sql_Float, INSERT_weather_data_VALUES.
  destruct t as [t|], f as [f|], pr' as [pr'|], hu' as [hu'|];
    try (right; split; [reflexivity | eexists; reflexivity]).
  left. split; [reflexivity|]. eexists. split; [|reflexivity]. reflexivity.
Qed.

(** The rows [Promise.all] over the inserts adds are those of the accepted
    observations, in their order; the summaries are not touched. *)
Lemma insert_all_cities (insert_fault : string -> option exn)
    (l : list Collector.params) (d : database) :
  exists rows,
    weather_data (fst (Collector.insert_all insert_fault l d))
      = weather_data d ++ rows /\
    daily_weather_summary (fst (Collector.insert_all insert_fault l d))
      = daily_weather_summary d /\
    map city rows = map Collector.city (filter (acceptedb insert_fault) l).
Proof.
  revert d. induction l as [|p l IH]; intros d.
  - exists []. simpl. now rewrite app_nil_r.
  - simpl Collector.insert_all. simpl filter.
    destruct (insertWeatherData_acceptedb insert_fault p d)
      as [[Hb [r [Hc Hins]]]|[Hb [e Hins]]]; rewrite Hins, Hb.
    + match goal with
      | |- context [Collector.insert_all insert_fault l ?d1] =>
          destruct (IH d1) as [rows [Hw [Hs Hm]]];
          destruct (Collector.insert_all insert_fault l d1) as [d2 r2]
      end.
      simpl in Hw, Hs. exists (r :: rows). simpl.
      split; [rewrite Hw, <- app_assoc; reflexivity|].
      split; [exact Hs|]. now rewrite Hc, Hm.
    + destruct (IH d) as [rows [Hw [Hs Hm]]].
      destruct (Collector.insert_all insert_fault l d) as [d2 r2].
      simpl in Hw, Hs. exists rows. simpl. auto.
Qed.

Lemma NoDup_map_filter {A B : Type} (f : A -> B) (g : A -> bool) (l : list A) :
  NoDup (map f l) -> NoDup (map f (filter g l)).
Proof.
  induction l as [|a l IH]; simpl; intros H; [constructor|].
  inversion H as [|? ? Hnotin Hnd]; subst.
  destruct (g a); [|now apply IH].
  simpl. constructor; [|now apply IH].
  intros Hin. apply Hnotin. apply in_map_iff in Hin.
  destruct Hin as [x [E Hx]]. apply filter_In in Hx.
  apply in_map_iff. exists x. tauto.
Qed.

(** The fetched observations carry the names of distinct configured cities. *)
Lemma fetched_cities (http : Collector.City -> Api.outcome)
    (clock : Collector.City -> Z) (l : list Collector.City) :
  NoDup (map Collector.name l) ->
  NoDup (map Collector.city
           (Collector.not_null (map (Collector.fetchWeatherData http clock) l))) /\
  incl (map Collector.city
          (Collector.not_null (map (Collector.fetchWeatherData http clock) l)))
       (map Collector.name l).
Proof.
  induction l as [|c l IH]; intros Hnd; simpl.
  - split; [constructor | apply incl_refl].
  - inversion Hnd as [|? ? Hnotin Hnd']; subst.
    destruct (IH Hnd') as [IH1 IH2].
    destruct (Collector.fetchWeatherData http clock c) as [p|] eqn:Hf.
    + destruct (fetchWeatherData_some http clock c p Hf)
        as [_ [_ [_ [_ [_ [_ [Hcity _]]]]]]].
      simpl. rewrite Hcity. split.
      * constructor; [|exact IH1]. intros Hin. apply Hnotin. now apply IH2.
      * intros x [<-|Hx]; [now left | right; now apply IH2].
    + split; [exact IH1|]. intros x Hx. right. now apply IH2.
Qed.

(** X3. Whatever the key, the answers of the API and the inserts the server
    rejects, an invocation of the Collector only appends to weather_data:
    the rows already there stay in place, at most one row is added per
    configured city (so at most six), each under the configured name of a
    city, and daily_weather_summary is not touched. *)
Theorem X3_collector_only_appends
    (apiKey : option string) (http : Collector.City -> Api.outcome)
    (clock : Collector.City -> Z) (insert_fault : string -> option exn)
    (d : database) :
  let res := Collector.weatherTrigger apiKey http clock insert_fault d in
  exists rows,
    weather_data (fst res) = weather_data d ++ rows /\
    daily_weather_summary (fst res) = daily_weather_summary d /\
    NoDup (map city rows) /\
    incl (map city rows) (map Collector.name Collector.cities) /\
    (length rows <= 6)%nat.
Proof.
  intros res. unfold res, Collector.weatherTrigger.
  destruct (Collector.apiKey_missing apiKey).
  { exists []. simpl. rewrite app_nil_r.
    split; [reflexivity|]. split; [reflexivity|]. split; [constructor|].
    split; [intros x [] | lia]. }
  set (valid := Collector.not_null
                  (map (Collector.fetchWeatherData http clock) Collector.cities)).
  destruct (fetched_cities http clock Collector.cities cities_names_distinct)
    as [Hnd Hincl]. fold valid in Hnd, Hincl.
  assert (Hlen : (length valid <= 6)%nat).
  { rewrite <- (length_map Collector.city valid).
    change 6%nat with (length (map Collector.name Collector.cities)).
    apply NoDup_incl_length; assumption. }
  destruct (length valid =? 0)%nat.
  { exists []. simpl. rewrite app_nil_r.
    split; [reflexivity|]. split; [reflexivity|]. split; [constructor|].
    split; [intros x [] | lia]. }
  destruct (insert_all_cities insert_fault valid d) as [rows [Hw [Hs Hm]]].
  exists rows. split; [exact Hw|]. split; [exact Hs|]. rewrite Hm.
  split; [now apply NoDup_map_filter|]. split.
  - intros x Hx. apply Hincl. apply in_map_iff in Hx.
    destruct Hx as [p [E Hp]]. apply filter_In in Hp.
    apply in_map_iff. exists p. tauto.
  - rewrite <- (length_map city rows), Hm, length_map.
    pose proof (filter_length_le (acceptedb insert_fault) valid). lia.
Qed.

Lemma or_string_nonempty (x : option string) (fallback : string) :
  fallback <> EmptyString -> or_string x fallback <> EmptyString.
Proof.
  intros Hf. unfold or_string. destruct x as [s|]; [|exact Hf].
  destruct (String.eqb_spec s EmptyString); assumption.
Qed.

(** X4. The weather label of every row the Collector adds is never empty.
    When the first element of the response's weather array carries a
    non-empty label, that label is the one stored; when the array is empty,
    or its first element is null, or the label of that element is missing
    or empty, 'Unknown' is stored. *)
Theorem X4_stored_label_is_never_empty
    (apiKey : option string) (http : Collector.City -> Api.outcome)
    (clock : Collector.City -> Z) (insert_fault : string -> option exn)
    (d : database) :
  let res := Collector.weatherTrigger apiKey http clock insert_fault d in
  exists rows,
    weather_data (fst res) = weather_data d ++ rows /\
    forall r, In r rows ->
      weather r <> EmptyString /\
      exists c data conditions,
        In c Collector.cities /\ city r = Collector.name c /\
        http c = Api.Resolved (Some data) /\
        Api.weather data = Some conditions /\
        (forall first others l,
           conditions = Some first :: others ->
           Api.label first = Some l -> l <> EmptyString ->
           weather r = l) /\
        (conditions = [] \/
         (exists others, conditions = None :: others) \/
         (exists first others,
            conditions = Some first :: others /\
            (Api.label first = None \/ Api.label first = Some EmptyString)) ->
         weather r = "Unknown"%string).
Proof.
  intros res.
  destruct (weatherTrigger_rows apiKey http clock insert_fault d)
    as [rows [Hw Hfrom]].
  exists rows. split; [exact Hw|].
  intros r Hr. destruct (Hfrom r Hr) as [c [p [Hc [Hf Hrow]]]].
  destruct Hrow as [Rc [_ [_ [_ [_ [Rw _]]]]]].
  unfold Collector.fetchWeatherData, Collector.fetchWeatherData_try in Hf.
  destruct (http c) as [msg|[data|]] eqn:Hh; try discriminate.
  destruct (Api.main data) as [m|]; try discriminate.
  destruct (Api.weather data) as [conditions|] eqn:Hcond; try discriminate.
  injection Hf as <-. simpl in Rc, Rw. rewrite Rw. split.
  - apply or_string_nonempty. discriminate.
  - exists c, data, conditions.
    split; [exact Hc|]. split; [exact Rc|]. split; [exact Hh|].
    split; [exact Hcond|]. split.
    + intros first others l -> Hl Hne. simpl. rewrite Hl. simpl.
      destruct (String.eqb_spec l EmptyString); [contradiction | reflexivity].
    + intros [->|[[others ->]|[first [others [-> [Hl|Hl]]]]]]; simpl;
        try reflexivity; rewrite Hl; reflexivity.
Qed.

(** ** The target date and the timer *)

Lemma day_of_instant (a k : Z) :
  a / msPerDay = k <-> k * msPerDay <= a < (k + 1) * msPerDay.
Proof.
  unfold msPerDay. split; intros H.
  - subst k. Z.to_euclidean_division_equations. lia.
  - Z.to_euclidean_division_equations. lia.
Qed.

Lemma yesterdayIST_after_firing (k delay : Z) :
  0 <= delay < msPerDay -> yesterdayIST (fires_at k + delay) = k.
Proof.
  intros H. unfold yesterdayIST.
  assert (E : (fires_at k + delay + istOffset) / msPerDay = k + 1).
  { apply day_of_instant. unfold fires_at, schedule_ms, istOffset, msPerDay in *. lia. }
  rewrite E. lia.
Qed.

(** X5. The timer fires at 18:30:00 UTC, which is midnight in IST: an
    invocation started at the firing of day k, or any time in the 24 hours
    after it, works on date k, the IST day that has just ended; one
    millisecond before the firing the target would still be date k - 1. *)
Theorem X5_target_date_of_a_scheduled_run (k delay : Z) :
  0 <= delay < msPerDay ->
  yesterdayIST (fires_at k + delay) = k /\
  yesterdayIST (fires_at k - 1) = k - 1 /\
  (fires_at k + istOffset) = (k + 1) * msPerDay.
Proof.
  intros H. split; [now apply yesterdayIST_after_firing|]. split.
  - replace (fires_at k - 1) with (fires_at (k - 1) + (msPerDay - 1))
      by (unfold fires_at, msPerDay; lia).
    apply yesterdayIST_after_firing. unfold msPerDay. lia.
  - unfold fires_at, schedule_ms, istOffset, msPerDay. lia.
Qed.

Lemma X5_witness :
  0 <= 13400000 < msPerDay /\
  now0 = fires_at 19675 + 13400000 /\
  yesterdayIST now0 = 19675.
Proof.
  split; [unfold msPerDay; lia|]. split; [reflexivity|].
  refine (proj1 (X5_target_date_of_a_scheduled_run 19675 13400000 _)).
  unfold msPerDay; lia.
Defined.

(** X6. The Collector and the Aggregator agree on the day: a row stored
    from an observation taken at clock reading t belongs to the target date
    of an invocation started within 24 hours of the firing of day k exactly
    when t lies between the firing of day k - 1 (included) and the firing of
    day k (excluded).  A row collected at the very instant of the firing is
    therefore left for the next day. *)
Theorem X6_rows_of_the_target_date
    (p : Collector.params) (r : weather_row) (k delay : Z) :
  row_of p r ->
  0 <= delay < msPerDay ->
  (on_date (yesterdayIST (fires_at k + delay)) r = true <->
   fires_at (k - 1) <= Collector.timestamp p < fires_at k).
Proof.
  intros Hrow Hdelay. rewrite yesterdayIST_after_firing by assumption.
  destruct Hrow as [_ [_ [_ [_ [_ [_ Ht]]]]]].
  unfold on_date, CONVERT_date, local_ms. rewrite Ht. simpl.
  rewrite Z.eqb_eq, day_of_instant.
  unfold fires_at, schedule_ms, istOffset, msPerDay. lia.
Qed.

Lemma X6_witness :
  let p := Collector.mkParams "Delhi"%string (Some (2831 # 100))
             (Some (3012 # 100)) (Some (1013 # 1)) (Some (64 # 1))
             "Haze"%string (fires_at 19675) in
  let r := mkWeatherRow 1 "Delhi"%string (2831 # 100) (3012 # 100) 1013 64
             "Haze"%string (mkDateTimeOffset (fires_at 19675 + istOffset) 0) in
  row_of p r /\
  0 <= 0 < msPerDay /\
  on_date (yesterdayIST (fires_at 19676 + 0)) r = true /\
  on_date (yesterdayIST (fires_at 19675 + 0)) r = false.
Proof.
  cbv zeta.
  split; [repeat split|]. split; [unfold msPerDay; lia|]. split.
  - apply (X6_rows_of_the_target_date
             (Collector.mkParams "Delhi"%string (Some (2831 # 100))
                (Some (3012 # 100)) (Some (1013 # 1)) (Some (64 # 1))
                "Haze"%string (fires_at 19675)) _ 19676 0).
    + repeat split.
    + unfold msPerDay; lia.
    + simpl. unfold fires_at, schedule_ms, msPerDay. lia.
  - reflexivity.
Defined.

(** ** Invariants of the Aggregator, whichever calls are rejected *)

Lemma preserves_ret {A : Type} (P : world -> Prop) (a : A) : preserves P (ret a).
Proof. intros w w' r HP E. injection E as <- _. exact HP. Qed.

Lemma preserves_throw {A : Type} (P : world -> Prop) (e : exn) :
  preserves P (@throw A e).
Proof. intros w w' r HP E. injection E as <- _. exact HP. Qed.

Lemma preserves_bind {A B : Type} (P : world -> Prop) (m : M A) (k : A -> M B) :
  preserves P m -> (forall a, preserves P (k a)) -> preserves P (bind m k).
Proof.
  intros Hm Hk w w' r HP E. unfold bind in E.
  destruct (m w) as [w1 [a|e]] eqn:Em.
  - apply (Hk a w1 w' r); [|exact E]. now apply (Hm w w1 (Normal a)).
  - injection E as <- _. now apply (Hm w w1 (Throw e)).
Qed.

Lemma preserves_try_catch {A : Type} (P : world -> Prop) (m : M A)
    (h : exn -> M A) :
  preserves P m -> (forall e, preserves P (h e)) -> preserves P (try_catch m h).
Proof.
  intros Hm Hh w w' r HP E. unfold try_catch in E.
  destruct (m w) as [w1 [a|e]] eqn:Em.
  - injection E as <- _. now apply (Hm w w1 (Normal a)).
  - apply (Hh e w1 w' r); [|exact E]. now apply (Hm w w1 (Throw e)).
Qed.

Lemma preserves_try_finally {A : Type} (P : world -> Prop) (m : M A)
    (c : M unit) :
  preserves P m -> preserves P c -> preserves P (try_finally m c).
Proof.
  intros Hm Hc w w' r HP E. unfold try_finally in E.
  destruct (m w) as [w1 r1] eqn:Em.
  assert (H1 : P w1) by (now apply (Hm w w1 r1)).
  destruct (c w1) as [w2 [u|e]] eqn:Ec; injection E as <- _.
  - now apply (Hc w1 w2 (Normal u)).
  - now apply (Hc w1 w2 (Throw e)).
Qed.

Lemma preserves_for_of {X : Type} (P : world -> Prop) (xs : list X)
    (body : X -> M unit) :
  (forall x, preserves P (body x)) -> preserves P (for_of xs body).
Proof.
  intros Hb. induction xs as [|x xs IH]; simpl.
  - apply preserves_ret.
  - apply preserves_bind; [apply Hb | intros _; exact IH].
Qed.

Lemma preserves_request {A : Type} (P : world -> Prop) (fault : step -> option exn)
    (s : step) (q : database -> database * A) :
  (forall w, P w -> P (note s w)) ->
  (forall w, P w -> P (set_db (fst (q (db w))) (note s w))) ->
  preserves P (request fault s q).
Proof.
  intros H1 H2 w w' r HP. unfold request.
  destruct (fault s); intros E; injection E as <- _; auto.
Qed.

Lemma preserves_connect (P : world -> Prop) (fault : step -> option exn) :
  (forall w, P w -> P (note Connect w)) ->
  (forall w, P w -> P (set_pool true (note Connect w))) ->
  preserves P (connect fault).
Proof.
  intros H1 H2 w w' r HP. unfold connect.
  destruct (fault Connect); intros E; injection E as <- _; auto.
Qed.

Lemma preserves_begin (P : world -> Prop) (fault : step -> option exn) :
  (forall w, P w -> P (note Begin w)) ->
  (forall w, P w -> P (set_transaction (Some (db w)) (note Begin w))) ->
  preserves P (begin fault).
Proof.
  intros H1 H2 w w' r HP. unfold begin.
  destruct (fault Begin); intros E; injection E as <- _; auto.
Qed.

Lemma preserves_commit (P : world -> Prop) (fault : step -> option exn) :
  (forall w, P w -> P (note Commit w)) ->
  (forall w, P w -> P (set_transaction None (note Commit w))) ->
  preserves P (commit fault).
Proof.
  intros H1 H2 w w' r HP. unfold commit.
  destruct (fault Commit); intros E; injection E as <- _; auto.
Qed.

Lemma preserves_rollback (P : world -> Prop) (fault : step -> option exn) :
  (forall w, P w -> P (note Rollback w)) ->
  (forall w snap, P w -> transaction w = Some snap ->
                  P (set_transaction None (set_db snap (note Rollback w)))) ->
  preserves P (rollback fault).
Proof.
  intros H1 H2 w w' r HP. unfold rollback.
  destruct (fault Rollback); [intros E; injection E as <- _; auto|].
  simpl. destruct (transaction w) as [snap|] eqn:Et;
    intros E; injection E as <- _; auto.
Qed.

Lemma preserves_close_pool (P : world -> Prop) (fault : step -> option exn) :
  (forall w, P w -> P (note Close w)) ->
  preserves P (close_pool fault).
Proof.
  intros H1 w w' r HP. unfold close_pool.
  destruct (pool w); [|intros E; injection E as <- _; exact HP].
  destruct (fault Close); intros E; injection E as <- _; auto.
Qed.

(** Takes a computation apart down to its calls; [leaf] settles what is
    asked of the property at each call. *)
Ltac preserves_tac leaf :=
  repeat match goal with
  | |- preserves _ (ret _) => apply preserves_ret
  | |- preserves _ (throw _) => apply preserves_throw
  | |- preserves _ (bind _ _) => apply preserves_bind; [|intros ?]
  | |- preserves _ (try_catch _ _) => apply preserves_try_catch; [|intros ?]
  | |- preserves _ (try_finally _ _) => apply preserves_try_finally
  | |- preserves _ (for_of _ _) => apply preserves_for_of; intros ?
  | |- preserves _ (if ?b then _ else _) => destruct b
  | |- preserves _ (purge _ _) => unfold purge
  | |- preserves _ (request _ _ _) => apply preserves_request; leaf
  | |- preserves _ (connect _) => apply preserves_connect; leaf
  | |- preserves _ (begin _) => apply preserves_begin; leaf
  | |- preserves _ (commit _) => apply preserves_commit; leaf
  | |- preserves _ (rollback _) => apply preserves_rollback; leaf
  | |- preserves _ (close_pool _) => apply preserves_close_pool; leaf
  end.

Lemma keeps_summaries_step (base : list summary_row) (w : world) (d' : database)
    (t : option database) (b : bool) (tr : list step) :
  keeps_summaries base w ->
  (exists x, daily_weather_summary d' = daily_weather_summary (db w) ++ x) ->
  (t = transaction w \/ t = None \/ t = Some (db w)) ->
  keeps_summaries base (mkWorld d' t b tr).
Proof.
  intros [[x0 H0] Hs] [x Hx] Ht. split; simpl.
  - exists (x0 ++ x). now rewrite Hx, H0, app_assoc.
  - intros snap E. destruct Ht as [-> | [-> | ->]].
    + now apply Hs.
    + discriminate.
    + injection E as <-. now exists x0.
Qed.

Lemma handler_keeps_summaries (rank : list (string * Z) -> list (string * Z))
    (fault : step -> option exn) (now : Z) (base : list summary_row) :
  preserves (keeps_summaries base) (handler rank fault now).
Proof.
  unfold handler. cbv zeta.
  preserves_tac
    ltac:(try (intros w HP; unfold note, set_db, set_pool, set_transaction;
               apply (keeps_summaries_step base w);
               [ exact HP
               | simpl; first [ eexists; reflexivity
                              | exists []; now rewrite app_nil_r ]
               | simpl; tauto ])).
  intros w snap HP Et. destruct HP as [_ Hs]. destruct (Hs snap Et) as [y Hy].
  split; simpl; [now exists y | discriminate].
Qed.

(** X7. Whichever calls the server rejects and however the invocation ends,
    the Aggregator only appends to daily_weather_summary: every summary row
    present before the invocation is still there afterwards, in place. *)
Theorem X7_summaries_are_only_appended
    (rank : list (string * Z) -> list (string * Z)) (fault : step -> option exn)
    (now : Z) (d : database) :
  exists added,
    daily_weather_summary (db (fst (dailyAggregation rank fault now d)))
    = daily_weather_summary d ++ added.
Proof.
  unfold dailyAggregation.
  destruct (handler rank fault now (mkWorld d None false [])) as [w' r] eqn:E.
  assert (H0 : keeps_summaries (daily_weather_summary d) (mkWorld d None false [])).
  { split; simpl; [exists []; now rewrite app_nil_r | discriminate]. }
  exact (proj1 (handler_keeps_summaries rank fault now _ _ _ _ H0 E)).
Qed.

Lemma filter_idempotent {A : Type} (f : A -> bool) (l : list A) :
  filter f (filter f l) = filter f l.
Proof.
  apply filter_all. intros x Hx. apply filter_In in Hx. tauto.
Qed.

Lemma only_purged_step (day : Z) (rows : list weather_row) (w : world)
    (d' : database) (t : option database) (b : bool) (tr : list step) :
  only_purged day rows w ->
  (weather_data d' = weather_data (db w) \/
   weather_data d' = filter (fun r => negb (on_date day r)) (weather_data (db w))) ->
  (t = transaction w \/ t = None \/ t = Some (db w)) ->
  only_purged day rows (mkWorld d' t b tr).
Proof.
  intros [H0 Hs] Hd Ht. split; simpl.
  - destruct Hd as [->| ->]; [exact H0|].
    destruct H0 as [->| ->]; [now right|]. right. apply filter_idempotent.
  - intros snap E. destruct Ht as [-> | [-> | ->]].
    + now apply Hs.
    + discriminate.
    + injection E as <-. exact H0.
Qed.

Lemma handler_only_purges (rank : list (string * Z) -> list (string * Z))
    (fault : step -> option exn) (now : Z) (rows : list weather_row) :
  preserves (only_purged (yesterdayIST now) rows) (handler rank fault now).
Proof.
  unfold handler. cbv zeta.
  preserves_tac
    ltac:(try (intros w HP; unfold note, set_db, set_pool, set_transaction;
               apply (only_purged_step (yesterdayIST now) rows w);
               [ exact HP
               | simpl; first [ left; reflexivity | right; reflexivity ]
               | simpl; tauto ])).
  intros w snap HP Et. destruct HP as [_ Hs]. specialize (Hs snap Et).
  split; simpl; [exact Hs | discriminate].
Qed.

(** X8. Whichever calls the server rejects and however the invocation ends,
    the Aggregator never adds or alters a row of weather_data and never
    loses a row of another date: the table is left as it was, or as it was
    without the rows of the target date. *)
Theorem X8_rows_of_other_dates_are_kept
    (rank : list (string * Z) -> list (string * Z)) (fault : step -> option exn)
    (now : Z) (d : database) :
  let after := db (fst (dailyAggregation rank fault now d)) in
  let other := fun r => negb (on_date (yesterdayIST now) r) in
  (weather_data after = weather_data d \/
   weather_data after = filter other (weather_data d)) /\
  filter other (weather_data after) = filter other (weather_data d) /\
  (forall r, In r (weather_data after) -> In r (weather_data d)).
Proof.
  intros after other. unfold after, dailyAggregation.
  destruct (handler rank fault now (mkWorld d None false [])) as [w' r] eqn:E.
  assert (H0 : only_purged (yesterdayIST now) (weather_data d)
                 (mkWorld d None false [])).
  { split; simpl; [now left | discriminate]. }
  destruct (handler_only_purges rank fault now _ _ _ _ H0 E) as [H _].
  simpl. fold other in H. split; [exact H|].
  destruct H as [-> | ->].
  - split; [reflexivity | auto].
  - split; [apply filter_idempotent|].
    intros x Hx. apply filter_In in Hx. tauto.
Qed.

(** X11. The pool is closed exactly when it was opened: if the connection is
    refused, the invocation throws the connection error having issued
    nothing else, and close is not called; otherwise close is called once,
    as the last call of the invocation, whichever other calls are rejected
    and however the invocation ends. *)
Theorem X11_pool_is_closed_last
    (rank : list (string * Z) -> list (string * Z)) (fault : step -> option exn)
    (now : Z) (d : database) :
  let res := dailyAggregation rank fault now d in
  (forall e, fault Connect = Some e ->
     res = (mkWorld d None false [Connect], Throw e)) /\
  (fault Connect = None ->
     exists earlier, issued (fst res) = Close :: earlier /\ ~ In Close earlier).
Proof.
  intros res. unfold res, dailyAggregation, handler.
  rewrite try_finally_finish, try_catch_rethrow. split.
  - intros e He. erewrite bind_throws by (apply connect_rejected; exact He).
    reflexivity.
  - intros Hc. erewrite bind_ok by (now apply connect_ok). cbv beta zeta.
    set (P := fun w : world => connected w /\ ~ In Close (issued w)).
    match goal with
    | |- context [finish fault (?m ?w)] =>
        assert (Hp : preserves P m);
        [| assert (H0 : P w) by (split; [reflexivity | simpl; intuition discriminate]);
           destruct (m w) as [w2 r2] eqn:E;
           pose proof (Hp _ _ _ H0 E) as [Hpool Hclose] ]
    end.
    + unfold P, connected.
      preserves_tac
        ltac:(try (intros w [Hpool Hclose]; split; simpl;
                   [ exact Hpool | intros [Hs|Hs]; [discriminate | now apply Hclose] ])).
      intros w snap [Hpool Hclose] _. split; simpl;
        [ exact Hpool | intros [Hs|Hs]; [discriminate | now apply Hclose] ].
    + unfold finish, close_pool. simpl fst. unfold connected in Hpool.
      rewrite Hpool. exists (issued w2).
      destruct (fault Close); simpl; split; auto.
Qed.

(** ** Rejected calls of the Aggregator outside the purge *)

Lemma fail_at_same (s : step) (e : exn) : fail_at s e s = Some e.
Proof. unfold fail_at. destruct (step_eq_dec s s); [reflexivity | contradiction]. Qed.

Lemma fail_at_other (s s' : step) (e : exn) : s' <> s -> fail_at s e s' = None.
Proof. intros H. unfold fail_at. destruct (step_eq_dec s' s); [contradiction | reflexivity]. Qed.

Lemma for_of_app {X : Type} (xs ys : list X) (body : X -> M unit) (w : world) :
  for_of (xs ++ ys) body w = bind (for_of xs body) (fun _ => for_of ys body) w.
Proof.
  revert w. induction xs as [|x xs IH]; intros w; simpl; [reflexivity|].
  unfold bind. destruct (body x w) as [w1 [u|e]]; [|reflexivity].
  rewrite IH. reflexivity.
Qed.

(** The loop stops at the first city whose INSERT is rejected: the cities
    before it are summarized, the ones after it are not looked at. *)
Lemma loop_rejected (rank : list (string * Z) -> list (string * Z))
    (fault : step -> option exn) (day : Z)
    (before : list cityData) (cd : cityData) (after : list cityData)
    (w : world) (e : exn) :
  (forall x, In x before -> fault (AggregationQuery (cd_city x)) = None) ->
  fault (AggregationQuery (cd_city cd)) = Some e ->
  for_of (before ++ cd :: after) (loop_body rank fault day) w
  = ({| db :=
          {| weather_data := weather_data (db w);
             identity := identity (db w);
             daily_weather_summary :=
               daily_weather_summary (db w) ++
               flat_map (fun c => aggregationSelect rank c day (db w))
                        (map cd_city before) |};
        transaction := transaction w;
        pool := pool w;
        issued := AggregationQuery (cd_city cd) ::
                  rev (map AggregationQuery (map cd_city before)) ++ issued w |},
     Throw e).
Proof.
  intros Hbefore Hcd. rewrite for_of_app.
  erewrite bind_ok by (now apply loop_ok).
  simpl for_of. unfold loop_body at 1.
  erewrite bind_throws; [reflexivity|].
  erewrite bind_throws; [reflexivity|].
  now apply request_rejected.
Qed.

(** X9. When the INSERT of the summary of one city is rejected, the
    invocation throws that exception at once: the summaries of the cities
    handled before it stay inserted, the cities after it are not summarized,
    the transaction is never begun, nothing is deleted from weather_data,
    and the pool is closed. *)
Theorem X9_rejected_summary_stops_the_invocation
    (rank : list (string * Z) -> list (string * Z)) (now : Z) (d : database)
    (c : string) (e : exn) (before after : list string) :
  cities_on d (yesterdayIST now) = before ++ c :: after ->
  let res := dailyAggregation rank (fail_at (AggregationQuery c) e) now d in
  snd res = Throw e /\
  weather_data (db (fst res)) = weather_data d /\
  identity (db (fst res)) = identity d /\
  inserted d (db (fst res)) = map (summary_of rank (yesterdayIST now) d) before /\
  issued (fst res)
  = Close :: AggregationQuery c :: rev (map AggregationQuery before) ++
    [CheckDataQuery; InitialDataQuery; Connect].
Proof.
  intros Hsplit res. set (day := yesterdayIST now) in *.
  set (fault := fail_at (AggregationQuery c) e).
  assert (Hnd : NoDup (before ++ c :: after)).
  { rewrite <- Hsplit. apply cities_on_NoDup. }
  assert (Hother : forall x, In x before -> fault (AggregationQuery x) = None).
  { intros x Hx. apply fail_at_other. intros E. injection E as ->.
    apply NoDup_remove_2 in Hnd. apply Hnd. apply in_or_app. now left. }
  assert (Hobs : forall x, In x before -> observations d day x <> []).
  { intros x Hx. apply cities_on_In. rewrite Hsplit. apply in_or_app. now left. }
  pose proof (checkDataQuery_cities day d) as Hcds. rewrite Hsplit in Hcds.
  apply map_eq_app in Hcds. destruct Hcds as [cbefore [crest [Hc1 [Hc2 Hc3]]]].
  apply map_eq_cons in Hc3.
  destruct Hc3 as [cd [cafter [Hc4 [Hc5 Hc6]]]]. subst crest.
  assert (Hne : (length (snd (checkDataQuery day d)) =? 0)%nat = false).
  { rewrite Hc1, length_app. simpl. apply Nat.eqb_neq. lia. }
  unfold res, dailyAggregation, handler. fold day.
  rewrite try_finally_finish, try_catch_rethrow.
  erewrite bind_ok by (now apply connect_ok).
  erewrite bind_ok by (now apply request_ok).
  erewrite bind_ok by (now apply request_ok).
  cbn [db set_db set_pool note fst snd initialDataQuery].
  rewrite Hne.
  change (fun cd0 : cityData =>
            bind (request fault (AggregationQuery (cd_city cd0))
                          (aggregationQuery rank (cd_city cd0) day))
                 (fun _ => ret tt))
    with (loop_body rank fault day).
  erewrite bind_throws.
  2:{ rewrite Hc1. apply loop_rejected.
      - intros x Hx. apply Hother. rewrite <- Hc2. now apply in_map.
      - rewrite Hc5. apply fail_at_same. }
  rewrite Hc2, Hc5.
  rewrite summaries_of_cities by exact Hobs.
  unfold finish, close_pool. simpl.
  change (fault Close) with (@None exn). simpl.
  unfold inserted. simpl. rewrite skipn_app_exact.
  repeat split; reflexivity.
Qed.

Lemma X9_witness :
  cities_on two_days (yesterdayIST now0) = ["Delhi"%string] ++ ["Mumbai"%string] /\
  snd (dailyAggregation rank_stable
         (fail_at (AggregationQuery "Mumbai") (RequestError "timeout")) now0 two_days)
    = Throw (RequestError "timeout") /\
  map summary_city
    (inserted two_days
       (db (fst (dailyAggregation rank_stable
                   (fail_at (AggregationQuery "Mumbai") (RequestError "timeout"))
                   now0 two_days))))
    = ["Delhi"%string].
Proof.
  split; [reflexivity|].
  destruct (X9_rejected_summary_stops_the_invocation rank_stable now0 two_days
              "Mumbai" (RequestError "timeout") ["Delhi"%string] [] eq_refl)
    as [H1 [_ [_ [H4 _]]]].
  split; [exact H1|]. rewrite H4. reflexivity.
Defined.

Lemma summary_of_reads (rank : list (string * Z) -> list (string * Z))
    (day : Z) (d1 d2 : database) (c : string) :
  weather_data d1 = weather_data d2 ->
  summary_of rank day d1 c = summary_of rank day d2 c.
Proof.
  intros H. unfold summary_of, WeatherCounts, observations. now rewrite H.
Qed.

Lemma cities_on_reads (day : Z) (d1 d2 : database) :
  weather_data d1 = weather_data d2 -> cities_on d1 day = cities_on d2 day.
Proof. intros H. unfold cities_on, observations_on. now rewrite H. Qed.

(** The store a purge leaves when its count, delete or reseed is rejected
    and the rollback goes through: the summaries are in, the rows are still
    there. *)
Lemma store_after_failed_purge (rank : list (string * Z) -> list (string * Z))
    (now : Z) (d : database) (s : step) (e : exn) :
  In s [CountQuery; DeleteQuery; ResetIdentityQuery] ->
  observations_on d (yesterdayIST now) <> [] ->
  db (fst (dailyAggregation rank (fail_at s e) now d))
  = summarized rank (yesterdayIST now) d.
Proof.
  intros Hs Hdata. destruct Hs as [<-|[<-|[<-|[]]]].
  - rewrite handler_at_purge by (assumption || reflexivity).
    erewrite purge_count_rejected by reflexivity. now rewrite finish_fst_db.
  - rewrite handler_at_purge by (assumption || reflexivity).
    erewrite purge_delete_rejected by reflexivity. now rewrite finish_fst_db.
  - rewrite handler_at_purge by (assumption || reflexivity).
    erewrite purge_reseed_rejected by reflexivity. now rewrite finish_fst_db.
Qed.

(** X10. Running the Aggregator again for the same date after an invocation
    whose purge failed and was rolled back writes a second summary row for
    every city: the second invocation finds the rows still there,
    summarizes them again, and only then purges.  The table then holds, for
    each city and that date, two rows that agree on every statistic; their
    dominant_weather is the same when the server orders the label groups
    the same way both times, and otherwise can differ only between labels
    that tie for the highest count. *)
Theorem X10_rerun_after_failed_purge_duplicates
    (rank rank' : list (string * Z) -> list (string * Z)) (now now' : Z)
    (d : database) (s : step) (e : exn) :
  In s [CountQuery; DeleteQuery; ResetIdentityQuery] ->
  observations_on d (yesterdayIST now) <> [] ->
  yesterdayIST now' = yesterdayIST now ->
  let first := dailyAggregation rank (fail_at s e) now d in
  let second := dailyAggregation rank' no_fault now' (db (fst first)) in
  let written := map (summary_of rank (yesterdayIST now) d)
                     (cities_on d (yesterdayIST now)) in
  let rewritten := map (summary_of rank' (yesterdayIST now) d)
                       (cities_on d (yesterdayIST now)) in
  snd second = Normal tt /\
  written <> [] /\
  inserted d (db (fst second)) = written ++ rewritten /\
  observations_on (db (fst second)) (yesterdayIST now) = [] /\
  forall c, observations d (yesterdayIST now) c <> [] ->
    let obs := observations d (yesterdayIST now) c in
    exists s1 s2,
      inserted_for c d (db (fst second)) = [s1; s2] /\
      same_statistics s1 s2 /\
      (dominant_weather s1 = dominant_weather s2 -> s1 = s2) /\
      (rank' (label_groups obs) = rank (label_groups obs) -> s1 = s2) /\
      (orders_by_count_desc rank -> orders_by_count_desc rank' ->
       exists l1 l2,
         dominant_weather s1 = Some l1 /\ dominant_weather s2 = Some l2 /\
         most_frequent l1 obs /\ most_frequent l2 obs /\
         label_count l1 obs = label_count l2 obs).
Proof.
  intros Hs Hdata Hsame first second written rewritten.
  set (day := yesterdayIST now) in *.
  assert (Hfirst : db (fst first) = summarized rank day d)
    by (now apply store_after_failed_purge).
  assert (Hdata' : observations_on (summarized rank day d) (yesterdayIST now') <> []).
  { rewrite Hsame. exact Hdata. }
  assert (Hsecond : second = (world_done rank' day (summarized rank day d), Normal tt)).
  { unfold second. rewrite Hfirst, run_with_data by exact Hdata'.
    now rewrite Hsame. }
  assert (Hins : inserted d (db (fst second)) = written ++ rewritten).
  { rewrite Hsecond. unfold inserted. cbn [fst db world_done].
    rewrite purged_summary. unfold summarized at 1.
    cbn [daily_weather_summary].
    rewrite (cities_on_reads day (summarized rank day d) d eq_refl).
    rewrite (map_ext _ _ (fun c => summary_of_reads rank' day (summarized rank day d) d c eq_refl)).
    unfold summarized. cbn [daily_weather_summary].
    rewrite <- app_assoc. apply skipn_app_exact. }
  split; [now rewrite Hsecond|].
  split; [apply map_nonempty; unfold day; now rewrite cities_on_nil|].
  split; [exact Hins|].
  split; [rewrite Hsecond; apply purged_nothing_left|].
  intros c Hc obs.
  exists (summary_of rank day d c), (summary_of rank' day d c).
  assert (Hdom : dominant_weather (summary_of rank day d c)
                 = dominant_weather (summary_of rank' day d c) ->
                 summary_of rank day d c = summary_of rank' day d c).
  { intros H. unfold summary_of in *. cbn [dominant_weather] in H.
    now rewrite H. }
  split.
  { unfold inserted_for. rewrite Hins, filter_app. unfold written, rewritten.
    rewrite (filter_map_unique (summary_of rank day d) (cities_on d day) c);
      [| reflexivity | apply cities_on_NoDup | now apply cities_on_In].
    rewrite (filter_map_unique (summary_of rank' day d) (cities_on d day) c);
      [| reflexivity | apply cities_on_NoDup | now apply cities_on_In].
    reflexivity. }
  split; [repeat split|]. split; [exact Hdom|]. split.
  { intros H. apply Hdom. rewrite !dominant_weather_rank. fold obs.
    now rewrite H. }
  intros Hrank Hrank'.
  destruct (first_label_is_most_frequent rank obs Hrank Hc) as [l1 [E1 [I1 M1]]].
  destruct (first_label_is_most_frequent rank' obs Hrank' Hc) as [l2 [E2 [I2 M2]]].
  exists l1, l2. rewrite !dominant_weather_rank. fold obs.
  split; [exact E1|]. split; [exact E2|].
  split; [now split|]. split; [now split|].
  pose proof (M1 l2). pose proof (M2 l1). lia.
Qed.

Lemma X10_witness :
  In DeleteQuery [CountQuery; DeleteQuery; ResetIdentityQuery] /\
  observations_on tied (yesterdayIST now0) <> [] /\
  yesterdayIST (now0 + 300000) = yesterdayIST now0 /\
  map (fun s => (summary_city s, record_count s, avg_temp s, dominant_weather s))
    (inserted tied
       (db (fst (dailyAggregation rank_reversed no_fault (now0 + 300000)
                   (db (fst (dailyAggregation rank_stable
                               (fail_at DeleteQuery (RequestError "deadlock"))
                               now0 tied)))))))
  = [("Delhi", 4, Some (2500 # 100)%Q, Some "Haze");
     ("Delhi", 4, Some (2500 # 100)%Q, Some "Mist")]%string.
Proof.
  split; [simpl; tauto|]. split; [vm_compute; discriminate|].
  split; [reflexivity|].
  destruct (X10_rerun_after_failed_purge_duplicates rank_stable rank_reversed
              now0 (now0 + 300000) tied DeleteQuery (RequestError "deadlock"))
    as [_ [_ [H _]]].
  - simpl; tauto.
  - vm_compute; discriminate.
  - reflexivity.
  - rewrite H. vm_compute. reflexivity.
Defined.

(** ** Rejected calls after the commit *)

Lemma purge_final_state_rejected (fault : step -> option exn) (day : Z)
    (w : world) (e : exn) :
  fault CountQuery = None ->
  fault DeleteQuery = None ->
  fault ResetIdentityQuery = None ->
  fault Commit = None ->
  fault FinalStateQuery = Some e ->
  fault Rollback = None ->
  purge fault day w
  = ({| db := purged day (db w);
        transaction := None;
        pool := pool w;
        issued := Rollback :: FinalStateQuery :: Commit :: ResetIdentityQuery ::
                  DeleteQuery :: CountQuery :: issued w |},
     Throw (TransactionError "ENOTBEGUN")).
Proof.
  intros H1 H2 H3 H4 H5 H6. unfold purge, try_catch.
  erewrite bind_ok by (now apply request_ok).
  erewrite bind_ok by (now apply request_ok).
  erewrite bind_ok by (now apply request_ok).
  erewrite bind_ok by (now apply commit_ok).
  erewrite bind_throws by (eapply request_rejected; eassumption).
  unfold bind, rollback. rewrite H6. reflexivity.
Qed.

(** X12. A call rejected after the commit does not undo the purge: when the
    final verification query or the closing of the pool is rejected, the
    invocation throws, yet the store is exactly the one a faultless
    invocation leaves - summaries inserted, rows of the target date deleted
    for good. *)
Theorem X12_failure_after_commit_keeps_the_purge
    (rank : list (string * Z) -> list (string * Z)) (now : Z) (d : database)
    (s : step) (e : exn) :
  In s [FinalStateQuery; Close] ->
  observations_on d (yesterdayIST now) <> [] ->
  let res := dailyAggregation rank (fail_at s e) now d in
  (exists thrown, snd res = Throw thrown) /\
  db (fst res) = db (fst (dailyAggregation rank no_fault now d)) /\
  In Commit (issued (fst res)) /\
  observations_on (db (fst res)) (yesterdayIST now) = [].
Proof.
  intros Hs Hdata res. unfold res.
  rewrite (run_with_data rank now d Hdata). cbn [fst db world_done].
  destruct Hs as [<-|[<-|[]]].
  - rewrite handler_at_purge by (assumption || reflexivity).
    erewrite purge_final_state_rejected by reflexivity.
    unfold finish, close_pool. simpl.
    split; [now eexists|]. split; [reflexivity|]. split; [tauto|].
    apply purged_nothing_left.
  - rewrite handler_at_purge by (assumption || reflexivity).
    erewrite purge_ok by reflexivity.
    unfold finish, close_pool. simpl.
    split; [now eexists|]. split; [reflexivity|]. split; [tauto|].
    apply purged_nothing_left.
Qed.

Lemma X12_witness :
  In FinalStateQuery [FinalStateQuery; Close] /\
  observations_on two_days (yesterdayIST now0) <> [] /\
  map id (weather_data
            (db (fst (dailyAggregation rank_stable
                        (fail_at FinalStateQuery (RequestError "timeout"))
                        now0 two_days)))) = [5; 6] /\
  snd (dailyAggregation rank_stable
         (fail_at FinalStateQuery (RequestError "timeout")) now0 two_days)
  <> Normal tt.
Proof.
  split; [simpl; tauto|]. split; [vm_compute; discriminate|].
  destruct (X12_failure_after_commit_keeps_the_purge rank_stable now0 two_days
              FinalStateQuery (RequestError "timeout"))
    as [[thrown Ht] [Hdb _]].
  - simpl; tauto.
  - vm_compute; discriminate.
  - split; [rewrite Hdb; vm_compute; reflexivity|].
    rewrite Ht. discriminate.
Defined.

(** ** What the summaries of an invocation account for *)

Lemma filter_split_length {A : Type} (f : A -> bool) (l : list A) :
  (length (filter f l) + length (filter (fun x => negb (f x)) l) = length l)%nat.
Proof.
  induction l as [|a l IH]; simpl; [reflexivity|].
  destruct (f a); simpl; lia.
Qed.

Lemma filter_andb {A : Type} (f g : A -> bool) (l : list A) :
  filter (fun x => f x && g x) l = filter g (filter f l).
Proof.
  induction l as [|a l IH]; simpl; [reflexivity|].
  destruct (f a); simpl; [destruct (g a); now rewrite IH | exact IH].
Qed.

Lemma list_sum_map_add {A : Type} (f g : A -> nat) (l : list A) :
  list_sum (map (fun x => (f x + g x)%nat) l)
  = (list_sum (map f l) + list_sum (map g l))%nat.
Proof. induction l as [|a l IH]; simpl; [reflexivity | rewrite IH; lia]. Qed.

Lemma list_sum_zero {A : Type} (f : A -> nat) (l : list A) :
  (forall x, In x l -> f x = 0%nat) -> list_sum (map f l) = 0%nat.
Proof.
  induction l as [|a l IH]; intros H; simpl; [reflexivity|].
  rewrite (H a (or_introl eq_refl)), IH; [reflexivity|].
  intros x Hx. apply H. now right.
Qed.

(** A key occurs once in a list without repetition. *)
Lemma list_sum_indicator (a : string) (ks : list string) :
  NoDup ks -> In a ks ->
  list_sum (map (fun k => if String.eqb a k then 1%nat else 0%nat) ks) = 1%nat.
Proof.
  induction ks as [|k ks IH]; intros Hnd Hin; [contradiction|].
  inversion Hnd as [|? ? Hnotin Hnd']; subst. simpl.
  destruct (String.eqb_spec a k) as [E|E].
  - subst k. rewrite list_sum_zero; [reflexivity|].
    intros x Hx. destruct (String.eqb_spec a x); [subst; contradiction | reflexivity].
  - destruct Hin as [Hin|Hin]; [congruence|]. now rewrite IH.
Qed.

(** The groups of a GROUP BY share out the rows: their sizes add up to the
    number of rows. *)
Lemma group_sizes_add_up {R : Type} (key : R -> string) (l : list R)
    (ks : list string) :
  NoDup ks -> (forall x, In x l -> In (key x) ks) ->
  list_sum (map (fun k => length (filter (fun r => String.eqb (key r) k) l)) ks)
  = length l.
Proof.
  intros Hnd. induction l as [|a l IH]; intros Hin; simpl.
  - apply list_sum_zero. reflexivity.
  - rewrite (map_ext _ (fun k => ((if String.eqb (key a) k then 1 else 0)
                                  + length (filter (fun r => String.eqb (key r) k) l))%nat)).
    + rewrite list_sum_map_add.
      rewrite list_sum_indicator by (assumption || (apply Hin; now left)).
      rewrite IH by (intros x Hx; apply Hin; now right). reflexivity.
    + intros k. destruct (String.eqb (key a) k); reflexivity.
Qed.

Lemma observations_of_city (d : database) (day : Z) (c : string) :
  observations d day c
  = filter (fun r => String.eqb (city r) c) (observations_on d day).
Proof. unfold observations, observations_on, on_date_city. apply filter_andb. Qed.

Lemma record_counts_add_up (rank : list (string * Z) -> list (string * Z))
    (day : Z) (d : database) :
  sum_Z (map record_count (map (summary_of rank day d) (cities_on d day)))
  = COUNT (observations_on d day).
Proof.
  unfold COUNT.
  rewrite <- (group_sizes_add_up city (observations_on d day) (cities_on d day)).
  - rewrite map_map. generalize (cities_on d day) as cs.
    unfold sum_Z. induction cs as [|c cs IH]; [reflexivity|].
    simpl map. simpl fold_right. simpl list_sum.
    cbn [summary_of record_count] in IH. rewrite IH. unfold COUNT.
    rewrite observations_of_city. lia.
  - apply cities_on_NoDup.
  - intros x Hx. unfold cities_on. apply distinct_In. now apply in_map.
Qed.

(** X13. In every invocation that returns, the summaries account for the
    rows deleted: the record counts of the summary rows inserted add up to
    the number of observations of the target date, which is the number of
    rows by which weather_data has shrunk. *)
Theorem X13_record_counts_account_for_deleted_rows
    (rank : list (string * Z) -> list (string * Z)) (fault : step -> option exn)
    (now : Z) (d : database) (w' : world) :
  dailyAggregation rank fault now d = (w', Normal tt) ->
  sum_Z (map record_count (inserted d (db w')))
    = COUNT (observations_on d (yesterdayIST now)) /\
  COUNT (weather_data d) - COUNT (weather_data (db w'))
    = COUNT (observations_on d (yesterdayIST now)).
Proof.
  intros H. apply handler_normal in H. set (day := yesterdayIST now) in *.
  destruct H as [[Hnil Hdb]|[Hdata Hdb]]; rewrite Hdb.
  - rewrite Hnil. unfold inserted. rewrite skipn_all. simpl. split; [reflexivity|].
    unfold COUNT. simpl. lia.
  - rewrite inserted_summarized, record_counts_add_up. split; [reflexivity|].
    rewrite purged_weather_data. unfold summarized. cbn [weather_data].
    unfold COUNT, observations_on.
    pose proof (filter_split_length (on_date day) (weather_data d)). lia.
Qed.

Lemma X13_witness :
  dailyAggregation rank_stable no_fault now0 two_days
    = (world_done rank_stable day0 two_days, Normal tt) /\
  sum_Z (map record_count (inserted two_days (db (world_done rank_stable day0 two_days))))
    = 4 /\
  COUNT (weather_data two_days)
    - COUNT (weather_data (db (world_done rank_stable day0 two_days))) = 4.
Proof.
  assert (H : dailyAggregation rank_stable no_fault now0 two_days
              = (world_done rank_stable day0 two_days, Normal tt))
    by (vm_compute; reflexivity).
  split; [exact H|].
  destruct (X13_record_counts_account_for_deleted_rows rank_stable no_fault now0
              two_days _ H) as [H1 H2].
  split; [rewrite H1 | rewrite H2]; reflexivity.
Defined.

(** X14. In every invocation that returns, the summary rows inserted are
    for exactly the cities that had observations on the target date, one
    row each and dated to that date: no summary is written for a city
    without observations that day, nor for any other date. *)
Theorem X14_summaries_only_for_cities_with_data
    (rank : list (string * Z) -> list (string * Z)) (fault : step -> option exn)
    (now : Z) (d : database) (w' : world) :
  dailyAggregation rank fault now d = (w', Normal tt) ->
  NoDup (map summary_city (inserted d (db w'))) /\
  (forall c, In c (map summary_city (inserted d (db w'))) <->
             observations d (yesterdayIST now) c <> []) /\
  (forall s, In s (inserted d (db w')) -> summary_date s = yesterdayIST now).
Proof.
  intros H. apply handler_normal in H. set (day := yesterdayIST now) in *.
  destruct H as [[Hnil Hdb]|[Hdata Hdb]]; rewrite Hdb.
  - unfold inserted. rewrite skipn_all. simpl.
    split; [constructor|]. split; [|contradiction].
    intros c. split; [contradiction|].
    intros Hne. now apply (observations_sub d day c).
  - rewrite inserted_summarized, map_map. cbn [summary_of summary_city].
    rewrite map_id. split; [apply cities_on_NoDup|].
    split; [intros c; apply cities_on_In|].
    intros s Hs. apply in_map_iff in Hs. destruct Hs as [c [<- _]]. reflexivity.
Qed.

Lemma X14_witness :
  dailyAggregation rank_stable no_fault now0 two_days
    = (world_done rank_stable day0 two_days, Normal tt) /\
  map summary_city (inserted two_days (db (world_done rank_stable day0 two_days)))
    = ["Delhi"; "Mumbai"]%string /\
  NoDup (map summary_city
           (inserted two_days (db (world_done rank_stable day0 two_days)))).
Proof.
  assert (H : dailyAggregation rank_stable no_fault now0 two_days
              = (world_done rank_stable day0 two_days, Normal tt))
    by (vm_compute; reflexivity).
  split; [exact H|]. split; [reflexivity|].
  exact (proj1 (X14_summaries_only_for_cities_with_data rank_stable no_fault now0
                  two_days _ H)).
Defined.

(** ** The rounded mean against the extremes *)

Lemma total_bounds (xs : list Q) (lo hi : Q) :
  (forall x, In x xs -> Qle lo x /\ Qle x hi) ->
  Qle (Qmult lo (inject_Z (Z.of_nat (length xs)))) (total xs) /\
  Qle (total xs) (Qmult hi (inject_Z (Z.of_nat (length xs)))).
Proof.
  induction xs as [|x xs IH]; intros H.
  - simpl. unfold total. simpl. split; rewrite Qmult_0_r; apply Qle_refl.
  - destruct (IH (fun y Hy => H y (or_intror Hy))) as [IH1 IH2].
    destruct (H x (or_introl eq_refl)) as [Hlo Hhi].
    change (length (x :: xs)) with (S (length xs)).
    rewrite Nat2Z.inj_succ. unfold Z.succ. rewrite inject_Z_plus.
    change (total (x :: xs)) with (Qplus x (total xs)).
    set (n := inject_Z (Z.of_nat (length xs))) in *. clearbody n.
    change (inject_Z 1) with 1%Q. split; lra.
Qed.

Lemma mean_bounds (xs : list Q) (lo hi : Q) :
  xs <> [] ->
  (forall x, In x xs -> Qle lo x /\ Qle x hi) ->
  Qle lo (arithmetic_mean xs) /\ Qle (arithmetic_mean xs) hi.
Proof.
  intros Hne H. destruct (total_bounds xs lo hi H) as [H1 H2].
  unfold arithmetic_mean.
  assert (Hpos : Qlt 0 (inject_Z (Z.of_nat (length xs)))).
  { destruct xs as [|x xs]; [congruence|].
    change 0%Q with (inject_Z 0). rewrite <- Zlt_Qlt. simpl length. lia. }
  split.
  - now apply Qle_shift_div_l.
  - now apply Qle_shift_div_r.
Qed.

(** X16. In the summary an invocation inserts for a city, the minimum
    temperature is at most the maximum, and the average temperature, being
    rounded to two places, lies within half a hundredth of the interval
    between them: min - 0.005 <= avg <= max + 0.005. *)
Theorem X16_average_lies_between_the_extremes
    (rank : list (string * Z) -> list (string * Z))
    (now : Z) (d : database) (c : string) :
  observations d (yesterdayIST now) c <> [] ->
  exists s avg lo hi,
    inserted_for c d (db (fst (dailyAggregation rank no_fault now d))) = [s] /\
    avg_temp s = Some avg /\ min_temp s = Some lo /\ max_temp s = Some hi /\
    Qle lo hi /\
    Qle (Qminus lo (1 # 200)) avg /\ Qle avg (Qplus hi (1 # 200)).
Proof.
  intros Hne.
  rewrite run_with_data by (now apply observations_sub with (c := c)).
  cbn [fst db world_done].
  set (day := yesterdayIST now) in *.
  destruct (summary_of_summarizes rank day d c Hne)
    as [_ [_ [Havg [[lo [Hlo [Hlo_in Hlo_le]]] [[hi [Hhi [Hhi_in Hhi_ge]]] _]]]]].
  set (temps := map temperature (observations d day c)) in *.
  assert (Htemps : temps <> []) by (now apply map_nonempty).
  destruct (mean_bounds temps lo hi Htemps) as [M1 M2].
  { intros x Hx. split; [now apply Hlo_le | now apply Hhi_ge]. }
  pose proof (round_2dp_close (arithmetic_mean temps)) as Hclose.
  apply Qabs_Qle_condition in Hclose. destruct Hclose as [R1 R2].
  exists (summary_of rank day d c), (round_2dp (arithmetic_mean temps)), lo, hi.
  split; [now apply inserted_for_city|].
  split; [exact Havg|]. split; [exact Hlo|]. split; [exact Hhi|].
  split; [now apply Hlo_le|].
  set (m := arithmetic_mean temps) in *. set (a := round_2dp m) in *.
  clearbody a m. split; lra.
Qed.

Lemma X16_witness :
  observations two_days (yesterdayIST now0) "Delhi" <> [] /\
  exists s avg lo hi,
    inserted_for "Delhi" two_days
      (db (fst (dailyAggregation rank_stable no_fault now0 two_days))) = [s] /\
    avg_temp s = Some avg /\ min_temp s = Some lo /\ max_temp s = Some hi /\
    Qle lo hi /\
    Qle (Qminus lo (1 # 200)) avg /\ Qle avg (Qplus hi (1 # 200)).
Proof.
  split; [vm_compute; discriminate|].
  apply (X16_average_lies_between_the_extremes rank_stable now0 two_days "Delhi").
  vm_compute; discriminate.
Defined.

(** ** The cached pool *)

Lemma calls_cached (connect : nat -> completion nat) (n : nat) (s : state)
    (p : nat) :
  sqlPool s = Some p -> calls connect n s = (s, repeat (Normal p) n).
Proof.
  intros H. induction n as [|n IH]; simpl; [reflexivity|].
  unfold getSqlPool. rewrite H, IH. reflexivity.
Qed.

Lemma nth_error_repeat_lt {A : Type} (a : A) (n i : nat) :
  (i < n)%nat -> nth_error (repeat a n) i = Some a.
Proof.
  revert i. induction n as [|n IH]; intros i H; [lia|].
  destruct i as [|i]; simpl; [reflexivity|]. apply IH. lia.
Qed.

Lemma calls_until_connected (connect : nat -> completion nat) (k p : nat) :
  (forall i, (i < k)%nat -> exists e, connect i = Throw e) ->
  connect k = Normal p ->
  forall n j, (j <= k)%nat ->
    let res := calls connect n (mkState None j) in
    connects (fst res) = Nat.min (j + n) (S k) /\
    sqlPool (fst res) = (if (k <? j + n)%nat then Some p else None) /\
    forall i, (i < n)%nat ->
      ((j + i < k)%nat -> exists e, nth_error (snd res) i = Some (Throw e)) /\
      ((k <= j + i)%nat -> nth_error (snd res) i = Some (Normal p)).
Proof.
  intros Hfail Hok. induction n as [|n IH]; intros j Hj.
  - simpl. rewrite Nat.add_0_r.
    replace (k <? j)%nat with false by (symmetry; apply Nat.ltb_ge; lia).
    split; [lia|]. split; [reflexivity|]. intros i Hi. lia.
  - simpl calls. unfold getSqlPool at 1. cbn [sqlPool connects].
    destruct (Nat.eq_dec j k) as [->|Hne].
    + rewrite Hok. rewrite (calls_cached connect n (mkState (Some p) (S k)) p eq_refl).
      cbn [fst snd connects sqlPool].
      replace (k <? k + S n)%nat with true by (symmetry; apply Nat.ltb_lt; lia).
      split; [lia|]. split; [reflexivity|].
      intros [|i] Hi; split; intros H; try lia; simpl; [reflexivity|].
      apply nth_error_repeat_lt. lia.
    + destruct (Hfail j ltac:(lia)) as [e He]. rewrite He.
      specialize (IH (S j) ltac:(lia)). cbv zeta in IH.
      destruct (calls connect n (mkState None (S j))) as [s2 rs] eqn:E.
      cbn [fst snd] in *. destruct IH as [I1 [I2 I3]].
      replace (j + S n)%nat with (S j + n)%nat by lia.
      split; [exact I1|]. split; [exact I2|].
      intros [|i] Hi.
      * split; intros H; simpl; [now exists e | lia].
      * destruct (I3 i ltac:(lia)) as [A B]. simpl.
        split; intros H; [apply A | apply B]; lia.
Qed.

(** X15. [getSqlPool] connects once per call until a connection first
    succeeds and never again: for calls made one after the other, with the
    first k connection attempts refused and the next one answered with a
    pool, each of the first k calls throws (a failure is not remembered),
    every later call returns that same pool, and [sql.connect] has been
    called min(n, k+1) times after n calls. *)
Theorem X15_pool_is_connected_once
    (connect : nat -> completion nat) (k p n : nat) :
  (forall i, (i < k)%nat -> exists e, connect i = Throw e) ->
  connect k = Normal p ->
  let res := calls connect n initial in
  connects (fst res) = Nat.min n (S k) /\
  sqlPool (fst res) = (if (k <? n)%nat then Some p else None) /\
  forall i, (i < n)%nat ->
    ((i < k)%nat -> exists e, nth_error (snd res) i = Some (Throw e)) /\
    ((k <= i)%nat -> nth_error (snd res) i = Some (Normal p)).
Proof.
  intros Hfail Hok.
  exact (calls_until_connected connect k p Hfail Hok n 0%nat (Nat.le_0_l k)).
Qed.

Lemma X15_witness :
  let connect := fun i : nat =>
    if (i <? 2)%nat then Throw (ConnectionError "Failed to connect")
    else Normal (100 + i)%nat in
  (forall i, (i < 2)%nat -> exists e, connect i = Throw e) /\
  connect 2%nat = Normal 102%nat /\
  calls connect 5 initial
  = (mkState (Some 102%nat) 3,
     [Throw (ConnectionError "Failed to connect");
      Throw (ConnectionError "Failed to connect");
      Normal 102%nat; Normal 102%nat; Normal 102%nat]) /\
  connects (fst (calls connect 5 initial)) = Nat.min 5 3.
Proof.
  cbv zeta.
  assert (Hfail : forall i, (i < 2)%nat ->
            exists e, (if (i <? 2)%nat then Throw (ConnectionError "Failed to connect")
                       else @Normal nat (100 + i)%nat) = Throw e).
  { intros i Hi. apply Nat.ltb_lt in Hi. rewrite Hi. now eexists. }
  split; [exact Hfail|]. split; [reflexivity|]. split; [reflexivity|].
  exact (proj1 (X15_pool_is_connected_once _ 2 102 5 Hfail eq_refl)).
Defined.

Lemma X11_witness :
  dailyAggregation rank_stable
    (fail_at Connect (ConnectionError "Failed to connect")) now0 two_days
  = (mkWorld two_days None false [Connect],
     Throw (ConnectionError "Failed to connect")) /\
  exists earlier,
    issued (fst (dailyAggregation rank_stable
                   (fail_at VerifyQuery (RequestError "timeout")) now0 two_days))
    = Close :: earlier /\ ~ In Close earlier.
Proof.
  split.
  - apply (proj1 (X11_pool_is_closed_last rank_stable
                    (fail_at Connect (ConnectionError "Failed to connect"))
                    now0 two_days)).
    reflexivity.
  - apply (proj2 (X11_pool_is_closed_last rank_stable
                    (fail_at VerifyQuery (RequestError "timeout")) now0 two_days)).
    reflexivity.
Defined.

(** ** A rollback that fails *)

Lemma rollback_rejected (fault : step -> option exn) (w : world) (e : exn) :
  fault Rollback = Some e -> rollback fault w = (note Rollback w, Throw e).
Proof. intros H. unfold rollback. now rewrite H. Qed.

Lemma purge_call_and_rollback_rejected (fault : step -> option exn) (day : Z)
    (w : world) (s : step) (cause masking : exn) :
  In s [CountQuery; DeleteQuery; ResetIdentityQuery] ->
  (forall s', In s' (purge_calls_before s) -> fault s' = None) ->
  fault s = Some cause ->
  fault Rollback = Some masking ->
  exists w',
    purge fault day w = (w', Throw masking) /\
    issued w' = Rollback :: s :: rev (purge_calls_before s) ++ issued w /\
    pool w' = pool w.
Proof.
  intros Hs Hbefore Hcause Hroll. unfold purge, try_catch.
  destruct Hs as [<-|[<-|[<-|[]]]].
  - erewrite bind_throws by (eapply request_rejected; eassumption).
    erewrite bind_throws by (eapply rollback_rejected; eassumption).
    eexists. split; [reflexivity|]. split; reflexivity.
  - assert (F1 : fault CountQuery = None) by (apply Hbefore; simpl; tauto).
    erewrite bind_ok by (now apply request_ok).
    erewrite bind_throws by (eapply request_rejected; eassumption).
    erewrite bind_throws by (eapply rollback_rejected; eassumption).
    eexists. split; [reflexivity|]. split; reflexivity.
  - assert (F1 : fault CountQuery = None) by (apply Hbefore; simpl; tauto).
    assert (F2 : fault DeleteQuery = None) by (apply Hbefore; simpl; tauto).
    erewrite bind_ok by (now apply request_ok).
    erewrite bind_ok by (now apply request_ok).
    erewrite bind_throws by (eapply request_rejected; eassumption).
    erewrite bind_throws by (eapply rollback_rejected; eassumption).
    eexists. split; [reflexivity|]. split; reflexivity.
Qed.

Lemma no_commit_before_a_rejected_call (d : database) (day : Z) (s : step) :
  In s [CountQuery; DeleteQuery; ResetIdentityQuery] ->
  ~ In Commit (s :: rev (purge_calls_before s) ++ issued_at_begin d day).
Proof.
  intros Hs [H|H].
  - subst s. destruct Hs as [H|[H|[H|[]]]]; discriminate.
  - rewrite in_app_iff, <- in_rev in H. destruct H as [H|H].
    + destruct Hs as [<-|[<-|[<-|[]]]]; simpl in H; intuition discriminate.
    + unfold issued_at_begin in H. simpl in H.
      rewrite in_app_iff, <- in_rev, in_map_iff in H.
      destruct H as [H|[H|[[c [H _]]|[H|[H|[H|[]]]]]]]; discriminate.
Qed.

(** X17. When the count, the delete or the identity reseed of the purge is
    rejected and the rollback is rejected too, the block of the transaction
    throws the exception of the rollback: the exception that caused the
    rollback is lost to the caller.  The invocation ends with the exception
    of the rollback, or with that of the close if closing the pool is
    rejected as well.  The commit is not issued. *)
Theorem X17_failed_rollback_masks_the_error
    (rank : list (string * Z) -> list (string * Z)) (fault : step -> option exn)
    (now : Z) (d : database) (s : step) (cause masking : exn) :
  observations_on d (yesterdayIST now) <> [] ->
  fault Connect = None ->
  fault InitialDataQuery = None ->
  fault CheckDataQuery = None ->
  (forall c, fault (AggregationQuery c) = None) ->
  fault VerifyQuery = None ->
  fault Begin = None ->
  In s [CountQuery; DeleteQuery; ResetIdentityQuery] ->
  (forall s', In s' (purge_calls_before s) -> fault s' = None) ->
  fault s = Some cause ->
  fault Rollback = Some masking ->
  let res := dailyAggregation rank fault now d in
  snd (purge fault (yesterdayIST now) (world_at_begin rank (yesterdayIST now) d))
    = Throw masking /\
  snd res = Throw (match fault Close with Some e' => e' | None => masking end) /\
  issued (fst res)
  = Close :: Rollback :: s :: rev (purge_calls_before s)
      ++ issued_at_begin d (yesterdayIST now) /\
  ~ In Commit (issued (fst res)).
Proof.
  intros Hdata Hc Hi Hk Ha Hv Hb Hs Hbefore Hcause Hroll res. unfold res.
  rewrite handler_at_purge by auto.
  destruct (purge_call_and_rollback_rejected fault (yesterdayIST now)
              (world_at_begin rank (yesterdayIST now) d) s cause masking
              Hs Hbefore Hcause Hroll) as [w' [Hp [Hissued Hpool]]].
  rewrite Hp. split; [reflexivity|].
  unfold finish, close_pool. cbn [fst snd]. rewrite Hpool.
  cbn [world_at_begin pool].
  assert (Hn : ~ In Commit (Close :: issued w')).
  { rewrite Hissued. intros [H|[H|H]]; try discriminate.
    now apply (no_commit_before_a_rejected_call d (yesterdayIST now) s Hs). }
  destruct (fault Close) as [e'|]; cbn [fst snd note issued];
    rewrite Hissued in *; cbn [world_at_begin issued] in *;
    repeat split; auto.
Qed.

Lemma X17_witness :
  let fault := fun s : step =>
    match s with
    | ResetIdentityQuery => Some (RequestError "timeout")
    | Rollback => Some (TransactionError "EABORT")
    | _ => None
    end in
  observations_on two_days (yesterdayIST now0) <> [] /\
  In ResetIdentityQuery [CountQuery; DeleteQuery; ResetIdentityQuery] /\
  snd (dailyAggregation rank_stable fault now0 two_days)
  = Throw (TransactionError "EABORT") /\
  issued (fst (dailyAggregation rank_stable fault now0 two_days))
  = Close :: Rollback :: ResetIdentityQuery :: DeleteQuery :: CountQuery ::
    issued_at_begin two_days (yesterdayIST now0).
Proof.
  cbv zeta. split; [vm_compute; discriminate|]. split; [simpl; tauto|].
  destruct (X17_failed_rollback_masks_the_error rank_stable
              (fun s : step =>
                 match s with
                 | ResetIdentityQuery => Some (RequestError "timeout")
                 | Rollback => Some (TransactionError "EABORT")
                 | _ => None
                 end)
              now0 two_days ResetIdentityQuery
              (RequestError "timeout") (TransactionError "EABORT"))
    as [_ [H1 [H2 _]]].
  - vm_compute; discriminate.
  - reflexivity.
  - reflexivity.
  - reflexivity.
  - intros c. reflexivity.
  - reflexivity.
  - reflexivity.
  - simpl; tauto.
  - intros s' [<-|[<-|[]]]; reflexivity.
  - reflexivity.
  - reflexivity.
  - split; [exact H1 | exact H2].
Defined.

